(** * Bikeshed reference resolution: a shallow embedding and its properties

    The development follows [bikeshed/retrieve.py] and
    [bikeshed/refs/ReferenceManager.py].  Python values are modelled as they
    are used by the code: [str] as [string] (a sequence of bytes; the helper
    functions below are the ASCII behaviour of the Python methods of the same
    name), [dict] as an insertion-ordered association list where the code
    iterates over it or appends to its values and as a [gmap] where it only
    looks keys up, [set] as a [gset] where the code only tests membership
    and as a list without repetition where it iterates, exceptions as the
    [Raise] outcome of a result type, and the diagnostics of the [messages]
    module as a log that is threaded through.

    Part I holds the embedding, Part II the properties. *)

From Stdlib Require Import String Ascii List ZArith Lia Bool Arith.
From Stdlib Require Import OrderedTypeEx.
From stdpp Require Import base gmap strings list.

Open Scope string_scope.
Open Scope list_scope.
Import ListNotations.

(* ===================================================================== *)
(** * Part I.  The embedding                                              *)
(* ===================================================================== *)

(** ** Python values and outcomes *)

Module Py.

(** The exceptions the modelled code can raise. *)
Inductive Exn : Type :=
| OSError (msg : string)
| AttributeError (msg : string)
| IndexError (msg : string)
| KeyError (key : string)
| TypeError (msg : string).

(** A call either returns a value or raises. *)
Inductive Res (A : Type) : Type :=
| Ret (a : A)
| Raise (e : Exn).
Arguments Ret {A} a.
Arguments Raise {A} e.

Definition raises {A} (r : Res A) : bool :=
  match r with Ret _ => false | Raise _ => true end.

(** [c.isspace()] on ASCII: TAB, LF, VT, FF, CR, FS, GS, RS, US, SPACE. *)
Definition isspace (c : ascii) : bool :=
  let n := nat_of_ascii c in
  (((9 <=? n) && (n <=? 13)) || ((28 <=? n) && (n <=? 32)))%nat.

(** [\d] on ASCII. *)
Definition isdigit (c : ascii) : bool :=
  let n := nat_of_ascii c in ((48 <=? n) && (n <=? 57))%nat.

Definition isupper (c : ascii) : bool :=
  let n := nat_of_ascii c in ((65 <=? n) && (n <=? 90))%nat.

Definition islower (c : ascii) : bool :=
  let n := nat_of_ascii c in ((97 <=? n) && (n <=? 122))%nat.

Definition lower_char (c : ascii) : ascii :=
  if isupper c then ascii_of_nat (nat_of_ascii c + 32) else c.

(** [s.lower()]. *)
Fixpoint lower (s : string) : string :=
  match s with
  | EmptyString => EmptyString
  | String c s' => String (lower_char c) (lower s')
  end.

(** [s.lstrip()]. *)
Fixpoint lstrip (s : string) : string :=
  match s with
  | EmptyString => EmptyString
  | String c s' => if isspace c then lstrip s' else s
  end.

(** [s.rstrip()]: a character is kept when it is not white space or when
    something is kept after it. *)
Fixpoint rstrip (s : string) : string :=
  match s with
  | EmptyString => EmptyString
  | String c s' =>
      match rstrip s' with
      | EmptyString => if isspace c then EmptyString else String c EmptyString
      | t => String c t
      end
  end.

(** [s.strip()]. *)
Definition strip (s : string) : string := rstrip (lstrip s).

(** [s.startswith(p)]. *)
Definition startswith (s p : string) : bool := String.prefix p s.

(** Truthiness of a [str] and of a [list]. *)
Definition truthy (s : string) : bool :=
  match s with EmptyString => false | _ => true end.

Definition nonempty {A} (l : list A) : bool :=
  match l with [] => false | _ => true end.

(** [a < b] on [str]. *)
Definition str_lt (a b : string) : bool := String.ltb a b.

(** [sorted(l, key=key)] for keys compared with [<]: a stable sort.  Each
    element is placed behind the elements whose key is smaller than its own
    and in front of the others, which stood after it in the input. *)
Section Sorted.
Context {A K : Type} (key : A -> K) (lt : K -> K -> bool).

Fixpoint insert_sorted (x : A) (s : list A) : list A :=
  match s with
  | [] => [x]
  | y :: s' => if lt (key y) (key x) then y :: insert_sorted x s' else x :: y :: s'
  end.

Fixpoint sorted (l : list A) : list A :=
  match l with
  | [] => []
  | x :: l' => insert_sorted x (sorted l')
  end.
End Sorted.

(** [sep.join(l)] *)
Fixpoint join (sep : string) (l : list string) : string :=
  match l with
  | [] => ""
  | [x] => x
  | x :: l' => x +:+ sep +:+ join sep l'
  end.

(** An insertion-ordered [dict] with [str] keys. *)
Definition Dict (V : Type) : Type := list (string * V).

(** [d.get(k)] *)
Fixpoint dict_get {V} (d : Dict V) (k : string) : option V :=
  match d with
  | [] => None
  | (k', v) :: d' => if String.eqb k' k then Some v else dict_get d' k
  end.

(** [k in d] *)
Definition dict_mem {V} (d : Dict V) (k : string) : bool :=
  match dict_get d k with Some _ => true | None => false end.

(** [d[k].append(x)] on a [defaultdict(list)]: a missing key is created, at
    the end of the dictionary. *)
Fixpoint dict_append {V} (d : Dict (list V)) (k : string) (x : V) : Dict (list V) :=
  match d with
  | [] => [(k, [x])]
  | (k', v) :: d' =>
      if String.eqb k' k then (k', v ++ [x]) :: d' else (k', v) :: dict_append d' k x
  end.

(** [s[0:2]] *)
Definition first_two (s : string) : string := String.substring 0 2 s.

(** The line feed, at which [.] stops. *)
Definition is_newline (c : ascii) : bool := Ascii.eqb c "010"%char.

(** The text a [$] can stand after other than at the very end: the string
    without its final line feed. *)
Definition before_final_newline (s : string) : string :=
  match rev (list_ascii_of_string s) with
  | c :: r => if is_newline c then string_of_list_ascii (rev r) else s
  | [] => s
  end.

(** The longest prefix of characters satisfying [p], and the rest. *)
Fixpoint span (p : ascii -> bool) (l : list ascii) : list ascii * list ascii :=
  match l with
  | [] => ([], [])
  | c :: l' => if p c then let '(a, b) := span p l' in (c :: a, b) else ([], l)
  end.

(** [re.match] of [key] against the pattern [(.+)-\d+$]: group 1 of the
    match, if there is one.  The digits run up to the end (or to a final
    line feed), so they start behind the last hyphen; group 1 is what stands
    before that hyphen, and [.] matches no line feed. *)
Definition match_numeric_suffix (key : string) : option string :=
  let body := rev (list_ascii_of_string (before_final_newline key)) in
  match span isdigit body with
  | (_ :: _, c :: g) =>
      if Ascii.eqb c "-"%char && nonempty g && forallb (fun x => negb (is_newline x)) g
      then Some (string_of_list_ascii (rev g))
      else None
  | _ => None
  end.

(** [re.search] in [k] for the pattern [(\d{8})$]: group 1 of the match, if
    there is one. *)
Definition match_date_suffix (k : string) : option string :=
  let body := rev (list_ascii_of_string (before_final_newline k)) in
  let last8 := firstn 8 body in
  if (length last8 =? 8)%nat && forallb isdigit last8
  then Some (string_of_list_ascii (rev last8))
  else None.

(** What [.*] matches at the start of a list of characters: the characters
    before the first line feed. *)
Definition first_line (l : list ascii) : list ascii :=
  fst (span (fun x => negb (is_newline x)) l).

(** The same on a string. *)
Definition first_line_of (s : string) : string :=
  string_of_list_ascii (first_line (list_ascii_of_string s)).

(** The class [[a-zA-Z0-9-_]]. *)
Definition is_descriptor_name_char (c : ascii) : bool :=
  islower c || isupper c || isdigit c || Ascii.eqb c "-"%char || Ascii.eqb c "_"%char.

(** [re.match] of [term] against the pattern [@[a-zA-Z0-9-_]+/] followed
    by the group [.*]: group 1 of the match, if there is one.  The name is
    the longest run of characters of the class, which does not hold the
    slash; group 1 stops before a line feed. *)
Definition match_descriptor (term : string) : option string :=
  match list_ascii_of_string term with
  | c :: l =>
      if Ascii.eqb c "@"%char then
        match span is_descriptor_name_char l with
        | (_ :: _, c' :: v) =>
            if Ascii.eqb c' "/"%char
            then Some (string_of_list_ascii (first_line v))
            else None
        | _ => None
        end
      else None
  | [] => None
  end.

(** [re.match] of [text] against the pattern made of one or more characters
    other than an opening parenthesis, an opening parenthesis, and one
    character other than a closing parenthesis; as a truth value. *)
Definition match_methodish (text : string) : bool :=
  match span (fun c => negb (Ascii.eqb c "("%char)) (list_ascii_of_string text) with
  | (_ :: _, _ :: c :: _) => negb (Ascii.eqb c ")"%char)
  | _ => false
  end.

(** [re.sub] of the pattern [\s+] in [s] by one space. *)
Fixpoint collapse_ws_list (l : list ascii) : list ascii :=
  match l with
  | [] => []
  | c :: l' =>
      if isspace c then
        match l' with
        | c' :: _ => if isspace c' then collapse_ws_list l' else " "%char :: collapse_ws_list l'
        | [] => [" "%char]
        end
      else c :: collapse_ws_list l'
  end.

Definition collapse_ws (s : string) : string :=
  string_of_list_ascii (collapse_ws_list (list_ascii_of_string s)).

(** [x is None] *)
Definition is_None {A} (x : option A) : bool :=
  match x with None => true | Some _ => false end.

(** [s in l] for a list of [str]. *)
Definition str_in (s : string) (l : list string) : bool := existsb (String.eqb s) l.

(** A [set] of [str]: its elements without repetition, in the order in which
    the set is iterated over.  Python leaves that order open; here it is the
    order in which the elements were added. *)
Definition set_add (x : string) (s : list string) : list string :=
  if str_in x s then s else s ++ [x].

(** [set(l)] *)
Definition set_of_list (l : list string) : list string :=
  fold_left (fun s x => set_add x s) l [].

(** The line feed. *)
Definition nl : string := String "010"%char EmptyString.

(** [str(x)] for a [str] or [None]. *)
Definition str_of_option (o : option string) : string :=
  match o with Some s => s | None => "None" end.

(** Truthiness of a value that is a [str] or [None]. *)
Definition truthy_opt (o : option string) : bool :=
  match o with Some s => truthy s | None => false end.

(** [a == b] on values that are a [str] or [None]. *)
Definition opt_eqb (a b : option string) : bool :=
  match a, b with
  | Some x, Some y => String.eqb x y
  | None, None => true
  | _, _ => false
  end.

(** [s[n:]] *)
Fixpoint string_drop (n : nat) (s : string) : string :=
  match n, s with
  | O, _ => s
  | S n', String _ s' => string_drop n' s'
  | S _, EmptyString => EmptyString
  end.

(** [s[:-1]] *)
Definition drop_last (s : string) : string :=
  string_of_list_ascii (removelast (list_ascii_of_string s)).

(** [s.endswith(p)] *)
Definition endswith (s p : string) : bool :=
  (String.length p <=? String.length s)%nat &&
  String.eqb (string_drop (String.length s - String.length p) s) p.

(** [s.partition(sep)] for the separator [/] when it occurs in [s]: what
    stands before the first slash and what stands after it. *)
Fixpoint partition_slash (s : string) : option (string * string) :=
  match s with
  | EmptyString => None
  | String c s' =>
      if Ascii.eqb c "/"%char then Some (EmptyString, s')
      else
        match partition_slash s' with
        | Some (a, b) => Some (String c a, b)
        | None => None
        end
  end.

(** [re.match] of [s] against the pattern of an optional hyphen and one or
    more digits, as a truth value. *)
Definition match_version (s : string) : bool :=
  match s with
  | String c s' =>
      isdigit c ||
      (Ascii.eqb c "-"%char && match s' with String d _ => isdigit d | EmptyString => false end)
  | EmptyString => false
  end.

(** The values that [json.load] decodes: [None], which is what [null]
    decodes to, and the values of the other kinds, a number by its text. *)
#[warnings="-register-all"] Inductive Json : Type :=
| JNull
| JBool (b : bool)
| JNumber (text : string)
| JString (s : string)
| JArray (items : list Json)
| JObject (members : list (string * Json)).

End Py.

Import Py.

(** ** The [messages] module *)

Module messages.

(** Modelled from the spec: the [messages] module is not part of the sources.
    Section 6 describes the diagnostics sink as three severities (fatal,
    link-error, warning), each carrying free-form text. *)
Inductive Severity : Type := Fatal | LinkError | Warning.

Definition Message : Type := (Severity * string)%type.

Definition Log : Type := list Message.

(** Modelled from the spec: [die], [linkerror] and [warn] add one message of
    their severity (fatal, link-error, warning) to the log and return; the
    code goes on after each call of them. *)
Definition die (msg : string) (log : Log) : Log := log ++ [(Fatal, msg)].

Definition linkerror (msg : string) (log : Log) : Log := log ++ [(LinkError, msg)].

Definition warn (msg : string) (log : Log) : Log := log ++ [(Warning, msg)].

Definition is_fatal (m : Message) : bool :=
  match fst m with Fatal => true | _ => false end.

End messages.

(** ** Collaborators that are not part of the sources

    The modules [h], [config], [utils], [biblio] and [RefSource] are used by
    the requester and the reference manager but are not among the sources.
    Their data is declared here as the reference manager uses it, and their
    functions are the fields of one interface per module; the requester and
    the reference manager are defined over any implementation of the
    interfaces. *)

Module h.

(** A document element: its identity (what [is] compares) and attributes. *)
Record Element : Type := {
  ident : nat;
  attrib : Py.Dict string;
}.

(** [a is b] *)
Definition same (a b : Element) : bool := (ident a =? ident b)%nat.

(** [el.get(name)] *)
Definition get (el : Element) (name : string) : option string :=
  Py.dict_get (attrib el) name.

Class Sig : Type := {
  hasClass : Element -> string -> bool;
  treeAttr : Element -> string -> option string;
  outerHTML : option Element -> string;
  unfixTypography : string -> string;
}.

End h.

Module config.

(** The exception [DuplicatedLinkText]. *)
Record DuplicatedLinkText : Type := {
  offendingText : string;
  allTexts : list string;
  el : h.Element;
}.

Class Sig : Type := {
  scriptPath : list string -> string;
  lowercaseTypes : list string;
  linkStatuses : list string;
  dfnTypes : list string;
  englishFromList : list string -> string;
  splitForValues : string -> list string;
  linkTextsFromElement : h.Element -> DuplicatedLinkText + list string;
}.

End config.

Module RefSource.

(** A reference as the data files and [addLocalDfns] write it: a [dict] with
    these keys. *)
Record Ref : Type := {
  type : string;
  status : string;
  spec : option string;
  shortname : option string;
  level : option string;
  url : string;
  export : bool;
  for_ : list string;
  el : option h.Element;
}.

Definition set_export (r : Ref) (b : bool) : Ref :=
  {| type := type r; status := status r; spec := spec r; shortname := shortname r;
     level := level r; url := url r; export := b; for_ := for_ r; el := el r |}.

(** [RefWrapper]: a reference together with the text it is filed under. *)
Record RefWrapper : Type := {
  text : string;
  ref : Ref;
}.

(** The signature of a method, as the [methods] table holds it. *)
Record MethodSig : Type := {
  args : list string;
  method_for : list string;
  method_shortname : option string;
}.

(** A [RefSource]: a tier of references.  [refs] and [fors] are
    [defaultdict(list)]s: from a text to its references, and from a for-value
    to the texts defined for it. *)
Record t : Type := {
  source : string;
  refs : Py.Dict (list Ref);
  fors : Py.Dict (list string);
  methods : Py.Dict (Py.Dict MethodSig);
}.

Definition set_refs (s : t) (r : Py.Dict (list Ref)) : t :=
  {| source := source s; refs := r; fors := fors s; methods := methods s |}.

Definition set_fors (s : t) (f : Py.Dict (list string)) : t :=
  {| source := source s; refs := refs s; fors := f; methods := methods s |}.

(** A [linkFor] argument: one for-value or a list of them. *)
Inductive ForArg : Type :=
| ForStr (s : string)
| ForList (l : list string).

(** The keyword arguments of [queryRefs]; [None] is an argument left out. *)
Record Query : Type := {
  q_linkType : option string;
  q_text : option string;
  q_spec : option string;
  q_status : option string;
  q_statusHint : option string;
  q_linkFor : option ForArg;
  q_linkForHint : option ForArg;
  q_explicitFor : bool;
  q_export : option bool;
  q_ignoreObsoletes : bool;
  q_exact : bool;
  q_el : option h.Element;
}.

Class Sig : Type := {
  (** [queryRefs] with keyword arguments: the matches and the stage the query failed at. *)
  queryRefs : t -> Query -> list RefWrapper * option string;
  (** [addMethodVariants(text, fors, shortname)] *)
  addMethodVariants : t -> string -> list string -> option string -> t;
}.

End RefSource.

Module biblio.

(** A bibliography record as the data files hold it: a [dict] with a
    [linkText], an [order], a [biblioFormat], for an alias its [aliasOf],
    possibly an [obsoletedBy], and further keys. *)
Record Candidate : Type := {
  linkText : string;
  order : Z;
  biblioFormat : string;
  aliasOf : option string;
  obsoletedBy : option string;
  fields : Py.Dict string;
}.

(** The data of a specification in [specs]. *)
Definition SpecData : Type := Py.Dict string.

(** What a bibliography entry object was built from. *)
Inductive Origin : Type :=
| OfBiblioEntry (preferredURL : option string) (c : Candidate)
| OfStringBiblioEntry (c : Candidate)
| OfSpecBasedBiblioEntry (spec : SpecData) (preferredURL : option string).

(** A bibliography entry object, with the two attributes that
    [getBiblioRef] reads and assigns. *)
Record Entry : Type := {
  entry_linkText : string;
  originalLinkText : option string;
  origin : Origin;
}.

Class Sig : Type := {
  (** [BiblioEntry], called with [preferredURL] and the keys of a candidate. *)
  BiblioEntry : option string -> Candidate -> Entry;
  (** [StringBiblioEntry], called with the keys of a candidate. *)
  StringBiblioEntry : Candidate -> Entry;
  (** [SpecBasedBiblioEntry(spec, preferredURL=)] *)
  SpecBasedBiblioEntry : SpecData -> option string -> Entry;
  (** [loadBiblioDataFile(lines, storage)]: the storage with the records of
      the file added. *)
  loadBiblioDataFile : string -> Py.Dict (list Candidate) -> Py.Dict (list Candidate);
}.

End biblio.

Module utils.

Class Sig : Type := {
  (** [stripLineBreaks(obj)] *)
  stripLineBreaks : biblio.Candidate -> biblio.Candidate;
  (** [filterObsoletes(refs, replacedSpecs=, ignoredSpecs=, localShortname=,
      localSpec=)] *)
  filterObsoletes : list RefSource.RefWrapper -> gset (string * string) -> gset string ->
                    option string -> option string -> list RefSource.RefWrapper;
}.

End utils.


(** Further names of [config], [utils], [constants], [json] and the
    built-ins that [retrieveBoilerplateFile], [setSpecData], [fetchHeadings]
    and [getRef] use. *)
Module extern.

Class Sig : Type := {
  (** [x in config.snapshotStatuses] *)
  snapshotStatuses : option string -> bool;
  (** [x in config.shortToLongStatus] *)
  shortToLongStatus : option string -> bool;
  (** [constants.refStatus.snapshot] *)
  refStatus_snapshot : string;
  (** [constants.refStatus.current] *)
  refStatus_current : string;
  (** [config.linkTypeIn(linkTypes, targetLinkType)] *)
  linkTypeIn : string -> string -> bool;
  (** [utils.linkTextVariations(text, linkType)]: the texts it yields. *)
  linkTextVariations : string -> string -> list string;
  (** [str(l)] for a list of [str]. *)
  str_of_list : list string -> string;
  (** [json.load(fh)] on a stream with the given text: the decoded value,
      which is [JNull] for the text [null], or nothing where the call raises
      [ValueError]. *)
  json_load : string -> option Json;
  (** [config.splitStatus(st)]: the megagroup and the status. *)
  splitStatus : option string -> option string * option string;
}.

End extern.

(** The input sources of [InputSource], which is not among the sources
    either. *)
Module InputSource.

Class Sig : Type := {
  (** An input source. *)
  t : Type;
  (** [InputSource.InputSource(path, chroot=False)] *)
  ofPath : string -> t;
  (** [source.relative(name)], which can be [None]. *)
  relative : t -> string -> option t;
  (** [source.cheaplyExists(name)] *)
  cheaplyExists : t -> string -> bool;
  (** [source.read().content] *)
  read : t -> Res string;
}.

End InputSource.

(** ** [retrieve.py]: the data file requester *)

Module retrieve.

(** [DataFileRequester]: its [type] and the requester to fall back on. *)
#[warnings="-register-all"] Inductive DataFileRequester : Type :=
| Requester (type : string) (fallback : option DataFileRequester).

Definition type (r : DataFileRequester) : string :=
  match r with Requester t _ => t end.

Definition fallback (r : DataFileRequester) : option DataFileRequester :=
  match r with Requester _ f => f end.

(** What [fetch] hands back: the text of the file in [str] mode, a readable
    stream over the text otherwise. *)
Inductive Fetched : Type :=
| Text (s : string)
| Stream (content : string).

(** The file system: the text of the file at a path, if there is one. *)
Class FileSystem : Type := {
  files : string -> option string;
}.

Section Host.
Context `{config.Sig} `{FileSystem}.

(** [open(location, encoding=utf-8)]. *)
Definition open (location : string) : Res string :=
  match files location with
  | Some content => Ret content
  | None => Raise (OSError ("No such file or directory: '" +:+ location +:+ "'"))
  end.

(** [_buildPath(segs, fileType)] *)
Definition _buildPath (self : DataFileRequester) (segs : list string)
    (fileType : option string) : string :=
  let fileType := match fileType with None => type self | Some t => t end in
  if String.eqb fileType "readonly"
  then config.scriptPath ("spec-data" :: "readonly" :: segs)
  else config.scriptPath ("spec-data" :: segs).

(** [_fail(location, str, okayToFail)] *)
Definition _fail (location : string) (str okayToFail : bool) : Res Fetched :=
  if okayToFail then
    if str then Ret (Text "") else Ret (Stream "")
  else Raise (OSError ("Couldn't find file '" +:+ location +:+ "'")).

(** [fetch(segs..., str=, okayToFail=, type=)].  [type_kw] is the [type]
    keyword; [None] stands both for its absence and for an explicit
    [None], which [_buildPath] replaces by [self.type] alike. *)
Fixpoint fetch (self : DataFileRequester) (segs : list string)
    (str okayToFail : bool) (type_kw : option string) : Res Fetched :=
  let fileType := match type_kw with None => type self | Some t => t end in
  let location := _buildPath self segs (Some fileType) in
  match open location with
  | Ret fh => if str then Ret (Text fh) else Ret (Stream fh)
  | Raise (OSError _) =>
      match self with
      | Requester _ (Some fb) =>
          match fetch fb segs str okayToFail None with
          | Raise (OSError _) => _fail location str okayToFail
          | r => r
          end
      | Requester _ None => _fail location str okayToFail
      end
  | Raise e => Raise e
  end.

(** The file of the requester and of every requester of its fallback
    chain is missing. *)
Fixpoint all_missing (self : DataFileRequester) (segs : list string)
    (type_kw : option string) : bool :=
  match files (_buildPath self segs type_kw) with
  | Some _ => false
  | None =>
      match self with
      | Requester _ (Some fb) => all_missing fb segs None
      | Requester _ None => true
      end
  end.

Definition empty_result (str : bool) : Fetched :=
  if str then Text "" else Stream "".

End Host.

(** [defaultRequester] *)
Definition defaultRequester : DataFileRequester :=
  Requester "latest" (Some (Requester "readonly" None)).

Section Paths.
Context `{config.Sig} `{FileSystem}.

(** [path(segs..., type=)] *)
Definition path (self : DataFileRequester) (segs : list string) (type_kw : option string)
    : string :=
  let fileType := match type_kw with None => type self | Some t => t end in
  _buildPath self segs (Some fileType).

(** The text of the first file there is along the fallback chain: at the
    path of the requester or, failing that, at the path of a requester it
    falls back on, for the type of that requester. *)
Fixpoint first_found (self : DataFileRequester) (segs : list string)
    (type_kw : option string) : option string :=
  match files (path self segs type_kw) with
  | Some content => Some content
  | None =>
      match self with
      | Requester _ (Some fb) => first_found fb segs None
      | Requester _ None => None
      end
  end.

(** A text as [fetch] hands it back. *)
Definition fetched (str : bool) (content : string) : Fetched :=
  if str then Text content else Stream content.

End Paths.

Section Boilerplate.
Context `{config.Sig} `{extern.Sig} `{InputSource.Sig}.

(** The document, as [retrieveBoilerplateFile] reads it. *)
Record Doc : Type := {
  doc_dataFile : DataFileRequester;
  md_group : option string;
  md_status : option string;
  md_rawStatus : option string;
  (** [doc.md.localBoilerplate[name]], by the name. *)
  md_localBoilerplate : string -> bool;
  inputSource : InputSource.t;
}.

(** What [retrieveBoilerplateFile] acts on: the sources handed to
    [doc.recordDependencies] so far, and the log of messages. *)
Definition DocState : Type := (list (option InputSource.t) * messages.Log)%type.

Definition msg_found_local (f name : string) : string :=
  "Found " +:+ f +:+ " next to the specification without a matching" +:+ nl +:+
  "Local Boilerplate: " +:+ name +:+ " yes" +:+ nl +:+
  "in the metadata. This include won't be found when building via a URL.".

(** The sources next to the document, and the warnings about them. *)
Definition localSources (doc : Doc) (name statusFile genericFile : string)
    (searchLocally : bool) : list (option InputSource.t) * list string :=
  if searchLocally then
    ([InputSource.relative (inputSource doc) statusFile;  (* Can be None. *)
      InputSource.relative (inputSource doc) genericFile], [])
  else
    fold_left
      (fun '(sources, warnings) f =>
         if InputSource.cheaplyExists (inputSource doc) f
         then
           (* We should remove this after giving specs time to react to the warning: *)
           (sources ++ [InputSource.relative (inputSource doc) f],
            warnings ++ [msg_found_local f name])
         else (sources, warnings))
      [statusFile; genericFile] ([], []).

(** [boilerplatePath(segs...)] *)
Definition boilerplatePath (dataFile : DataFileRequester) (segs : list string) : string :=
  path dataFile ("boilerplate" :: segs) None.

(** The two sources of a folder of the boilerplate files, if the folder is
    named. *)
Definition folderSources (dataFile : DataFileRequester) (folder : option string)
    (statusFile genericFile : string) : list (option InputSource.t) :=
  if truthy_opt folder then
    [Some (InputSource.ofPath (boilerplatePath dataFile [default "" folder; statusFile]));
     Some (InputSource.ofPath (boilerplatePath dataFile [default "" folder; genericFile]))]
  else [].

(** The values of [group], [megaGroup] and [status] behind the first lines
    of [retrieveBoilerplateFile]. *)
Definition boilerplateKeys (doc : Doc) (group status : option string)
    : option string * option string * option string :=
  let group :=
    match group, md_group doc with
    | None, Some g => Some (lower g)
    | _, _ => group
    end in
  let status :=
    match status with
    | None =>
        match md_status doc with
        | Some s => Some s
        | None => md_rawStatus doc
        end
    | Some _ => status
    end in
  let '(megaGroup, status) := extern.splitStatus status in
  (group, megaGroup, status).

(** The list [sources] of [retrieveBoilerplateFile], and the warnings
    written while it is made. *)
Definition boilerplateSources (doc : Doc) (name : string) (group status : option string)
    (allowLocal : bool) (fileRequester : option DataFileRequester)
    : list (option InputSource.t) * list string :=
  let dataFile := default (doc_dataFile doc) fileRequester in
  let '(group, megaGroup, status) := boilerplateKeys doc group status in
  let searchLocally := allowLocal && md_localBoilerplate doc name in
  let statusFile := name +:+ "-" +:+ str_of_option status +:+ ".include" in
  let genericFile := name +:+ ".include" in
  let '(sources, warnings) := localSources doc name statusFile genericFile searchLocally in
  (sources ++
   folderSources dataFile group statusFile genericFile ++
   folderSources dataFile megaGroup statusFile genericFile ++
   [Some (InputSource.ofPath (boilerplatePath dataFile [statusFile]));
    Some (InputSource.ofPath (boilerplatePath dataFile [genericFile]))],
   warnings).

(** The loop over [sources]: the content of the first source that can be
    read, [None] when the loop comes to its end. *)
Fixpoint readFirst (sources : list (option InputSource.t)) : Res (option string) :=
  match sources with
  | [] => Ret None
  | None :: sources' => readFirst sources'
  | Some source :: sources' =>
      match InputSource.read source with
      | Ret content => Ret (Some content)
      | Raise (OSError _) =>
          (* That input doesn't exist. *)
          readFirst sources'
      | Raise e => Raise e
      end
  end.

Definition msg_no_include (doc : Doc) (name : string) (group status : option string)
    : string :=
  let '(group, _, status) := boilerplateKeys doc group status in
  "Couldn't find an appropriate include file for the " +:+ name +:+
  " inclusion, given group='" +:+ str_of_option group +:+ "' and status='" +:+
  str_of_option status +:+ "'.".

(** [retrieveBoilerplateFile(doc, name, group, status, error, allowLocal,
    fileRequester)] *)
Definition retrieveBoilerplateFile (doc : Doc) (name : string) (group status : option string)
    (error allowLocal : bool) (fileRequester : option DataFileRequester) (st : DocState)
    : Res string * DocState :=
  let '(sources, warnings) :=
    boilerplateSources doc name group status allowLocal fileRequester in
  let log := fold_left (fun log w => messages.warn w log) warnings (snd st) in
  (* Watch all the possible sources, not just the one that got used, because if
     an earlier one appears, we want to rebuild. *)
  let deps := fst st ++ sources in
  match readFirst sources with
  | Ret (Some content) => (Ret content, (deps, log))
  | Ret None =>
      (Ret "",
       (deps, if error then messages.die (msg_no_include doc name group status) log else log))
  | Raise e => (Raise e, (deps, log))
  end.

(** A source that cannot be read for want of its file. *)
Definition unreadable (source : InputSource.t) : Prop :=
  exists msg, InputSource.read source = Raise (OSError msg).

End Boilerplate.

End retrieve.

(** ** [refs/ReferenceManager.py] *)

Module ReferenceManager.

Import messages.

(** A link default: the tuple (spec, type, status, for). *)
Definition LinkDefault : Type :=
  (option string * string * option string * option string)%type.

(** The slots of a [ReferenceManager]. *)
Record t : Type := {
  dataFile : retrieve.DataFileRequester;
  specs : gmap string biblio.SpecData;
  defaultSpecs : Py.Dict (list LinkDefault);
  ignoredSpecs : gset string;
  replacedSpecs : gset (string * string);
  biblios : Py.Dict (list biblio.Candidate);
  loadedBiblioGroups : gset string;
  biblioKeys : gset string;
  biblioNumericSuffixes : gmap string (list string);
  preferredBiblioNames : gmap string string;
  headings : gmap string Json;
  defaultStatus : string;
  localRefs : RefSource.t;
  anchorBlockRefs : RefSource.t;
  foreignRefs : RefSource.t;
  shortname : option string;
  specLevel : option string;
  spec : option string;
  testing : bool;
}.

Definition set_biblios (self : t) (b : Py.Dict (list biblio.Candidate)) : t :=
  {| dataFile := dataFile self; specs := specs self; defaultSpecs := defaultSpecs self;
     ignoredSpecs := ignoredSpecs self; replacedSpecs := replacedSpecs self;
     biblios := b; loadedBiblioGroups := loadedBiblioGroups self;
     biblioKeys := biblioKeys self; biblioNumericSuffixes := biblioNumericSuffixes self;
     preferredBiblioNames := preferredBiblioNames self; headings := headings self;
     defaultStatus := defaultStatus self; localRefs := localRefs self;
     anchorBlockRefs := anchorBlockRefs self; foreignRefs := foreignRefs self;
     shortname := shortname self; specLevel := specLevel self; spec := spec self;
     testing := testing self |}.

Definition set_loadedBiblioGroups (self : t) (g : gset string) : t :=
  {| dataFile := dataFile self; specs := specs self; defaultSpecs := defaultSpecs self;
     ignoredSpecs := ignoredSpecs self; replacedSpecs := replacedSpecs self;
     biblios := biblios self; loadedBiblioGroups := g;
     biblioKeys := biblioKeys self; biblioNumericSuffixes := biblioNumericSuffixes self;
     preferredBiblioNames := preferredBiblioNames self; headings := headings self;
     defaultStatus := defaultStatus self; localRefs := localRefs self;
     anchorBlockRefs := anchorBlockRefs self; foreignRefs := foreignRefs self;
     shortname := shortname self; specLevel := specLevel self; spec := spec self;
     testing := testing self |}.

Definition set_localRefs (self : t) (r : RefSource.t) : t :=
  {| dataFile := dataFile self; specs := specs self; defaultSpecs := defaultSpecs self;
     ignoredSpecs := ignoredSpecs self; replacedSpecs := replacedSpecs self;
     biblios := biblios self; loadedBiblioGroups := loadedBiblioGroups self;
     biblioKeys := biblioKeys self; biblioNumericSuffixes := biblioNumericSuffixes self;
     preferredBiblioNames := preferredBiblioNames self; headings := headings self;
     defaultStatus := defaultStatus self; localRefs := r;
     anchorBlockRefs := anchorBlockRefs self; foreignRefs := foreignRefs self;
     shortname := shortname self; specLevel := specLevel self; spec := spec self;
     testing := testing self |}.

Definition set_foreignRefs (self : t) (r : RefSource.t) : t :=
  {| dataFile := dataFile self; specs := specs self; defaultSpecs := defaultSpecs self;
     ignoredSpecs := ignoredSpecs self; replacedSpecs := replacedSpecs self;
     biblios := biblios self; loadedBiblioGroups := loadedBiblioGroups self;
     biblioKeys := biblioKeys self; biblioNumericSuffixes := biblioNumericSuffixes self;
     preferredBiblioNames := preferredBiblioNames self; headings := headings self;
     defaultStatus := defaultStatus self; localRefs := localRefs self;
     anchorBlockRefs := anchorBlockRefs self; foreignRefs := r;
     shortname := shortname self; specLevel := specLevel self; spec := spec self;
     testing := testing self |}.

(** *** Methods as state transformers

    A method runs on the reference manager and the log of messages, and
    either returns or raises; what it changed before raising stays changed. *)

Definition State : Type := (t * Log)%type.

Definition M (A : Type) : Type := State -> Res A * State.

Definition ret {A} (a : A) : M A := fun st => (Ret a, st).

Definition raise {A} (e : Exn) : M A := fun st => (Raise e, st).

Definition bind {A B} (c : M A) (k : A -> M B) : M B :=
  fun st =>
    match c st with
    | (Ret a, st') => k a st'
    | (Raise e, st') => (Raise e, st')
    end.

#[global] Instance M_ret : MRet M := @ret.
#[global] Instance M_bind : MBind M := fun A B k c => bind c k.

Definition get_self : M t := fun st => (Ret (fst st), st).

Definition modify (f : t -> t) : M unit := fun st => (Ret tt, (f (fst st), snd st)).

Definition lift {A} (r : Res A) : M A := fun st => (r, st).

Definition die (msg : string) : M unit :=
  fun st => (Ret tt, (fst st, messages.die msg (snd st))).

Definition linkerror (msg : string) : M unit :=
  fun st => (Ret tt, (fst st, messages.linkerror msg (snd st))).

Definition when (b : bool) (c : M unit) : M unit := if b then c else ret tt.

(** *** The bibliography *)

Section Biblio.
Context `{config.Sig} `{retrieve.FileSystem} `{biblio.Sig} `{utils.Sig}.

(** [bibliosFromKey(key)] *)
Definition bibliosFromKey (key : string) : M (list biblio.Candidate) :=
  self ← get_self;
  when (negb (dict_mem (biblios self) key))
    (let group := first_two key in
     when (negb (bool_decide (group ∈ loadedBiblioGroups self)))
       (lines ← lift (retrieve.fetch (dataFile self)
                         ["biblio"; "biblio-" +:+ group +:+ ".data"] false true None);
        modify (fun self =>
          set_biblios self
            (biblio.loadBiblioDataFile
               (match lines with retrieve.Text c | retrieve.Stream c => c end)
               (biblios self)))) ;;
     modify (fun self => set_loadedBiblioGroups self ({[group]} ∪ loadedBiblioGroups self))) ;;
  self ← get_self;
  mret (default [] (dict_get (biblios self) key)).

(** [_bestCandidateBiblio(candidates)] *)
Definition _bestCandidateBiblio (candidates : list biblio.Candidate) : Res biblio.Candidate :=
  match sorted biblio.order Z.ltb candidates with
  | c :: _ => Ret (utils.stripLineBreaks c)
  | [] => Raise (IndexError "list index out of range")
  end.

(** How the [while True] loop of [getBiblioRef] is left: by [break], with the
    candidates, or by [return], with the value returned. *)
Inductive Lookup : Type :=
| Break (candidates : list biblio.Candidate)
| Return (value : option biblio.Entry).

(** The message about a wrong numeric suffix. *)
Definition msg_wrong_suffix (text : string) (numericSuffixes : list string) : string :=
  "A biblio link references " +:+ text +:+ ", but only " +:+
  config.englishFromList numericSuffixes +:+ " exists in SpecRef.".

(** The end of the loop body, reached when the key has no candidates and the
    key without its numeric suffix was not taken instead: a reference made up
    from the data of the specification, or [None], after the message about a
    wrong suffix.  [wrongSuffix] is [self.biblioNumericSuffixes[unversionedKey]]
    when [failFromWrongSuffix] is set. *)
Definition lookupFailed (text key : string) (status : option string)
    (generateFakeRef quiet : bool) (wrongSuffix : option (list string)) : M Lookup :=
  self ← get_self;
  match (if generateFakeRef then specs self !! key else None) with
  | Some spec => mret (Return (Some (biblio.SpecBasedBiblioEntry spec status)))
  | None =>
      match wrongSuffix with
      | Some numericSuffixes =>
          when (negb quiet) (die (msg_wrong_suffix text numericSuffixes))
      | None => mret tt
      end ;;
      mret (Return None)
  end.

(** The loop of [getBiblioRef].  Every path through its body ends in a
    [break] or a [return], so the body runs once. *)
Definition lookupCandidates (text key : string) (status : option string)
    (generateFakeRef quiet : bool) : M Lookup :=
  candidates ← bibliosFromKey key;
  if nonempty candidates then mret (Break candidates)
  else
    self ← get_self;
    match match_numeric_suffix key with
    | Some unversionedKey =>
        if dict_mem (biblios self) unversionedKey then
          match biblioNumericSuffixes self !! unversionedKey with
          | Some numericSuffixes =>
              (* Nope, there are more numeric-suffixed versions,
                 just not the one you asked for *)
              lookupFailed text key status generateFakeRef quiet (Some numericSuffixes)
          | None =>
              (* Load up the unversioned url! *)
              mret (Break (default [] (dict_get (biblios self) unversionedKey)))
          end
        else lookupFailed text key status generateFakeRef quiet None
    | None => lookupFailed text key status generateFakeRef quiet None
    end.

(** The entry under its canonical name, if one has been established: the
    assignment to [bib.originalLinkText] and [bib.linkText]. *)
Definition canonicalName (self : t) (b : biblio.Entry) : biblio.Entry :=
  match preferredBiblioNames self !! biblio.entry_linkText b with
  | Some preferred =>
      {| biblio.entry_linkText := preferred;
         biblio.originalLinkText := Some (biblio.entry_linkText b);
         biblio.origin := biblio.origin b |}
  | None => b
  end.

(** The end of [getBiblioRef]: the canonical name and the return.  [bib] is
    [None] when a recursive call returned [None]; reading its [linkText] then
    raises. *)
Definition useCanonicalName (bib : option biblio.Entry) : M (option biblio.Entry) :=
  match bib with
  | None => raise (AttributeError "'NoneType' object has no attribute 'linkText'")
  | Some b =>
      self ← get_self;
      mret (Some (canonicalName self b))
  end.

(** The messages of [getBiblioRef]. *)
Definition msg_recursing (text : string) : string :=
  "Data error in biblio files; infinitely recursing trying to find [" +:+ text +:+ "].".

Definition msg_alias (text aliasOf : string) : string :=
  "Biblio ref [" +:+ text +:+ "] claims to be an alias of [" +:+ aliasOf +:+
  "], which doesn't exist.".

Definition msg_obsolete (linkText replacement : string) : string :=
  "Obsolete biblio ref: [" +:+ linkText +:+ "] is replaced by [" +:+ replacement +:+
  "]. Either update the reference, or use [" +:+ linkText +:+
  " obsolete] if this is an intentionally-obsolete reference.".

(** A candidate that [getBiblioRef] takes for obsolete: it is neither in the
    string format nor an alias, and its [obsoletedBy] is not blank. *)
Definition obsoleteCandidate (candidate : biblio.Candidate) : Prop :=
  String.eqb (biblio.biblioFormat candidate) "string" = false /\
  String.eqb (biblio.biblioFormat candidate) "alias" = false /\
  truthy (strip (default "" (biblio.obsoletedBy candidate))) = true.

(** The part of [getBiblioRef] behind the loop, for the candidates the loop
    was left with.  [recur target] is the recursive call
    [self.getBiblioRef(target, status=status, el=el, quiet=True, depth=depth + 1)];
    its result is [None] only when the fuel of the recursion runs out. *)
Definition resolveCandidates
    (recur : string -> State -> option (Res (option biblio.Entry) * State))
    (text : string) (status : option string) (allowObsolete quiet : bool)
    (candidates : list biblio.Candidate) (st1 : State)
    : option (Res (option biblio.Entry) * State) :=
  match _bestCandidateBiblio candidates with
  | Raise e => Some (Raise e, st1)
  | Ret candidate =>
      if String.eqb (biblio.biblioFormat candidate) "string" then
        Some (useCanonicalName (Some (biblio.StringBiblioEntry candidate)) st1)
      else if String.eqb (biblio.biblioFormat candidate) "alias" then
        match biblio.aliasOf candidate with
        | None => Some (Raise (KeyError "aliasOf"), st1)
        | Some target =>
            (* Follow the chain to the real candidate *)
            match recur target st1 with
            | None => None
            | Some (Raise e, st2) => Some (Raise e, st2)
            | Some (Ret None, st2) => Some ((die (msg_alias text target) ;; mret None) st2)
            | Some (Ret (Some bib), st2) => Some (useCanonicalName (Some bib) st2)
            end
        end
      else if truthy (strip (default "" (biblio.obsoletedBy candidate))) then
        (* Obsoleted by something. Unless otherwise indicated, follow the chain. *)
        if allowObsolete then
          Some (useCanonicalName (Some (biblio.BiblioEntry status candidate)) st1)
        else
          match recur (default "" (biblio.obsoletedBy candidate)) st1 with
          | None => None
          | Some (Raise e, st2) => Some (Raise e, st2)
          | Some (Ret bib, st2) =>
              Some ((when (negb quiet)
                       (match bib with
                        | Some b =>
                            die (msg_obsolete (biblio.linkText candidate)
                                   (biblio.entry_linkText b))
                        | None =>
                            raise (AttributeError
                                     "'NoneType' object has no attribute 'linkText'")
                        end) ;;
                     useCanonicalName bib) st2)
          end
      else
        Some (useCanonicalName (Some (biblio.BiblioEntry status candidate)) st1)
  end.

(** [getBiblioRef(text, status, generateFakeRef, allowObsolete, el, quiet,
    depth)].  The recursion of the method is on [fuel]; the result is [None]
    only when the fuel runs out. *)
Fixpoint getBiblioRef_fuel (fuel : nat) (text : string) (status : option string)
    (generateFakeRef allowObsolete : bool) (el : option h.Element) (quiet : bool)
    (depth : nat) (st : State) : option (Res (option biblio.Entry) * State) :=
  match fuel with
  | O => None
  | S fuel' =>
      if (100 <? depth)%nat then
        Some ((die (msg_recursing text) ;; mret None) st)
      else
        let key := lower text in
        match lookupCandidates text key status generateFakeRef quiet st with
        | (Raise e, st1) => Some (Raise e, st1)
        | (Ret (Return value), st1) => Some (Ret value, st1)
        | (Ret (Break candidates), st1) =>
            resolveCandidates
              (fun target => getBiblioRef_fuel fuel' target status false false el true
                               (depth + 1))
              text status allowObsolete quiet candidates st1
        end
  end.

(** The method itself.  The depth grows by one with each recursive call and
    a call at a depth above 100 returns at once, so a call at [depth] has no
    more than [101 - depth] calls nested below it. *)
Definition getBiblioRef (text : string) (status : option string)
    (generateFakeRef allowObsolete : bool) (el : option h.Element) (quiet : bool)
    (depth : nat) (st : State) : option (Res (option biblio.Entry) * State) :=
  getBiblioRef_fuel (S (101 - depth)) text status generateFakeRef allowObsolete el quiet
    depth st.

(** A key that [getLatestBiblioRef] takes for a dated variant of [key], and
    its date. *)
Definition datedVariant (key k date : string) : Prop :=
  startswith k key = true /\ match_date_suffix k = Some date.

(** The dated variants among the items of a dictionary all satisfy [P]. *)
Definition allDated (key : string) (items : Py.Dict (list biblio.Candidate))
    (P : string -> Prop) : Prop :=
  forall k bs date, In (k, bs) items -> datedVariant key k date -> P date.

(** The loop of [getLatestBiblioRef] over [self.biblios.items()]: the latest
    date seen and the records filed under its key. *)
Fixpoint latestDated (key : string) (items : Py.Dict (list biblio.Candidate))
    (latest : option (string * list biblio.Candidate))
    : option (string * list biblio.Candidate) :=
  match items with
  | [] => latest
  | (k, biblios) :: items' =>
      if negb (startswith k key) then latestDated key items' latest
      else
        match match_date_suffix k with
        | None => latestDated key items' latest
        | Some date =>
            match latest with
            | None => latestDated key items' (Some (date, biblios))
            | Some (latestDate, _) =>
                if str_lt latestDate date
                then latestDated key items' (Some (date, biblios))
                else latestDated key items' latest
            end
        end
  end.

(** [getLatestBiblioRef(key)] *)
Definition getLatestBiblioRef (key : string) : M (option biblio.Entry) :=
  candidates ← bibliosFromKey key;
  if negb (nonempty candidates) then mret None
  else
    self ← get_self;
    match latestDated key (biblios self) None with
    | None => mret None
    | Some (_, latestRefs) =>
        candidate ← lift (_bestCandidateBiblio latestRefs);
        mret (Some (biblio.BiblioEntry None candidate))
    end.

End Biblio.

(** *** References *)

(** The dictionaries that [simplifyPossibleRefs] returns. *)
Record PossibleRef : Type := {
  p_text : string;
  p_type : string;
  p_spec : option string;
  p_for : option string;
  p_url : string;
}.

(** The keys of [forVals]: the tuples (text, type, spec). *)
Definition RefKey : Type := (string * string * option string)%type.

Definition refkey_eqb (a b : RefKey) : bool :=
  let '(t1, ty1, s1) := a in
  let '(t2, ty2, s2) := b in
  String.eqb t1 t2 && String.eqb ty1 ty2 &&
  match s1, s2 with
  | Some x, Some y => String.eqb x y
  | None, None => true
  | _, _ => false
  end.

(** [forVals[key].append(x)] on the [defaultdict(list)] of
    [simplifyPossibleRefs]. *)
Fixpoint forVals_append (d : list (RefKey * list (string * string))) (k : RefKey)
    (x : string * string) : list (RefKey * list (string * string)) :=
  match d with
  | [] => [(k, [x])]
  | (k', v) :: d' =>
      if refkey_eqb k' k then (k', v ++ [x]) :: d' else (k', v) :: forVals_append d' k x
  end.

(** [(ref.text, ref.type, ref.spec)] *)
Definition refkey (r : RefSource.RefWrapper) : RefKey :=
  (RefSource.text r, RefSource.type (RefSource.ref r), RefSource.spec (RefSource.ref r)).

(** The first loop of [simplifyPossibleRefs]: the for-values and URLs of the
    references, by key; a reference for nothing counts as for [/]. *)
Definition forVals_of (refs : list RefSource.RefWrapper)
    : list (RefKey * list (string * string)) :=
  fold_left
    (fun forVals r =>
       let url := RefSource.url (RefSource.ref r) in
       match RefSource.for_ (RefSource.ref r) with
       | [] => forVals_append forVals (refkey r) ("/", url)
       | fors => fold_left (fun d f => forVals_append d (refkey r) (f, url)) fors forVals
       end)
    refs [].

(** [simplifyPossibleRefs(refs, alwaysShowFor)] *)
Definition simplifyPossibleRefs (refs : list RefSource.RefWrapper) (alwaysShowFor : bool)
    : list PossibleRef :=
  flat_map
    (fun '((text, type, spec), fors) =>
       if (2 <=? length fors)%nat || alwaysShowFor then
         (* Needs for-based disambiguation *)
         map (fun '(for_, url) =>
                {| p_text := text; p_type := type; p_spec := spec;
                   p_for := Some for_; p_url := url |}) fors
       else
         [{| p_text := text; p_type := type; p_spec := spec; p_for := None;
             p_url := match fors with (_, url) :: _ => url | [] => "" end |}])
    (forVals_of refs).

(** [refToText(ref)] *)
Definition refToText (r : PossibleRef) : string :=
  match p_for r with
  | Some (String c f) =>
      "spec:" +:+ str_of_option (p_spec r) +:+ "; type:" +:+ p_type r +:+
      "; for:" +:+ String c f +:+ "; text:" +:+ p_text r
  | _ =>
      "spec:" +:+ str_of_option (p_spec r) +:+ "; type:" +:+ p_type r +:+
      "; text:" +:+ p_text r
  end.

(** The text of the message of [reportAmbiguousForlessLink] up to the name of
    the link. *)
Definition ambiguous_forless_prefix (text : string) : string :=
  "Ambiguous for-less link for '" +:+ text +:+ "'".

(** The message of [reportAmbiguousForlessLink]. *)
Definition msg_ambiguous_forless (text : string)
    (forlessRefs localRefs : list RefSource.RefWrapper) : string :=
  let localRefText := join nl (map refToText (simplifyPossibleRefs localRefs true)) in
  let forlessRefText := join nl (map refToText (simplifyPossibleRefs forlessRefs true)) in
  ambiguous_forless_prefix text +:+
  ", please see <https://tabatkins.github.io/bikeshed/#ambi-for> for instructions:" +:+
  nl +:+ "Local references:" +:+ nl +:+ localRefText +:+ nl +:+
  "for-less references:" +:+ nl +:+ forlessRefText.

(** [reportAmbiguousForlessLink(el, text, forlessRefs, localRefs)] *)
Definition reportAmbiguousForlessLink (el : option h.Element) (text : string)
    (forlessRefs localRefs : list RefSource.RefWrapper) : M unit :=
  linkerror (msg_ambiguous_forless text forlessRefs localRefs).

Section Refs.
Context `{h.Sig} `{config.Sig} `{RefSource.Sig} `{utils.Sig}.

(** [filterObsoletes(refs)] *)
Definition filterObsoletes (self : t) (refs : list RefSource.RefWrapper)
    : list RefSource.RefWrapper :=
  utils.filterObsoletes refs (replacedSpecs self) (ignoredSpecs self) (shortname self)
    (spec self).

(** The condition of [removeSameSpecRefs] on a reference, when reading the
    [shortname] does not raise. *)
Definition sameSpecRef (shortname : option string) (r : RefSource.Ref) : bool :=
  negb (String.eqb (RefSource.status r) "local") &&
  match RefSource.shortname r, shortname with
  | Some sn, Some mine => String.eqb (rstrip sn) mine
  | _, _ => false
  end.

(** A reference with its export flag cleared if the condition holds. *)
Definition clearExport (shortname : option string) (r : RefSource.Ref) : RefSource.Ref :=
  if sameSpecRef shortname r then RefSource.set_export r false else r.

(** A reference as it was, or with its export flag cleared and nothing else
    changed, the latter only if the condition holds. *)
Definition exportCleared (shortname : option string) (r r' : RefSource.Ref) : Prop :=
  r' = r \/ (sameSpecRef shortname r = true /\ r' = RefSource.set_export r false).

(** Reading [ref[shortname].rstrip()] does not raise, or is not reached. *)
Definition shortnameReadable (r : RefSource.Ref) : bool :=
  String.eqb (RefSource.status r) "local" || negb (is_None (RefSource.shortname r)).

(** [removeSameSpecRefs()]: the inner loop over the references of one text.
    It stops where reading [rstrip] of a [shortname] that is [None] raises;
    the references before that point have been dealt with. *)
Fixpoint removeSameSpecRefs_refs (shortname : option string) (refs : list RefSource.Ref)
    : Res unit * list RefSource.Ref :=
  match refs with
  | [] => (Ret tt, [])
  | r :: refs' =>
      if negb (String.eqb (RefSource.status r) "local") then
        match RefSource.shortname r with
        | None =>
            (Raise (AttributeError "'NoneType' object has no attribute 'rstrip'"), refs)
        | Some sn =>
            let r' :=
              match shortname with
              | Some mine => if String.eqb (rstrip sn) mine then RefSource.set_export r false else r
              | None => r
              end in
            let '(res, out) := removeSameSpecRefs_refs shortname refs' in
            (res, r' :: out)
        end
      else
        let '(res, out) := removeSameSpecRefs_refs shortname refs' in
        (res, r :: out)
  end.

(** The outer loop, over [self.foreignRefs.refs.items()]. *)
Fixpoint removeSameSpecRefs_items (shortname : option string)
    (items : Py.Dict (list RefSource.Ref)) : Res unit * Py.Dict (list RefSource.Ref) :=
  match items with
  | [] => (Ret tt, [])
  | (k, refs) :: items' =>
      match removeSameSpecRefs_refs shortname refs with
      | (Ret _, refs') =>
          let '(res, out) := removeSameSpecRefs_items shortname items' in
          (res, (k, refs') :: out)
      | (Raise e, refs') => (Raise e, (k, refs') :: items')
      end
  end.

(** [removeSameSpecRefs()] *)
Definition removeSameSpecRefs : M unit :=
  fun st =>
    let self := fst st in
    let '(res, refs') :=
      removeSameSpecRefs_items (shortname self) (RefSource.refs (foreignRefs self)) in
    (res, (set_foreignRefs self (RefSource.set_refs (foreignRefs self) refs'), snd st)).

(** [any(x.for_ for x in refs)] *)
Definition any_for (refs : list RefSource.RefWrapper) : bool :=
  existsb (fun x => nonempty (RefSource.for_ (RefSource.ref x))) refs.

(** [random.choice(l)] on a list that is not empty, [rand] being the number
    the generator draws. *)
Definition random_choice {A} (rand : nat) (l : list A) : option A :=
  nth_error l (rand mod length l).

(** The part of [getRef] behind the local tier (the early exit for the
    status [local], the link defaults, the anchor blocks and the foreign
    references, with the errors that [zeroRefsError] gates): it is a
    parameter of [getRef], which calls it with the values its variables have
    at that point.  It is reached when a spec is given or the local tier has
    no match. *)
Definition OtherTiers : Type :=
  string -> string -> option string -> option string -> string ->
  option RefSource.ForArg -> bool -> option RefSource.ForArg -> bool ->
  option h.Element -> M (option RefSource.RefWrapper).

Variable getRef_otherTiers : OtherTiers.

(** The query of [getRef] to the local tier. *)
Definition localQuery (linkType text : string) (linkFor : option RefSource.ForArg)
    (linkForHint : option RefSource.ForArg) (explicitFor : bool) (el : option h.Element)
    : RefSource.Query :=
  {| RefSource.q_linkType := Some linkType; RefSource.q_text := Some text;
     RefSource.q_spec := None; RefSource.q_status := None;
     RefSource.q_statusHint := None; RefSource.q_linkFor := linkFor;
     RefSource.q_linkForHint := linkForHint;
     RefSource.q_explicitFor := explicitFor; RefSource.q_export := None;
     RefSource.q_ignoreObsoletes := false; RefSource.q_exact := false;
     RefSource.q_el := el |}.

(** The matches of the local tier. *)
Definition localMatches (self : t) (linkType text : string) (linkFor : option RefSource.ForArg)
    (linkForHint : option RefSource.ForArg) (explicitFor : bool) (el : option h.Element)
    : list RefSource.RefWrapper :=
  fst (RefSource.queryRefs (localRefs self)
         (localQuery linkType text linkFor linkForHint explicitFor el)).

(** The query of [getRef] for exported for-less references. *)
Definition forlessQuery (linkType text : string) (el : option h.Element) : RefSource.Query :=
  {| RefSource.q_linkType := Some linkType; RefSource.q_text := Some text;
     RefSource.q_spec := None; RefSource.q_status := None;
     RefSource.q_statusHint := None;
     RefSource.q_linkFor := Some (RefSource.ForStr "/");
     RefSource.q_linkForHint := None; RefSource.q_explicitFor := false;
     RefSource.q_export := Some true; RefSource.q_ignoreObsoletes := false;
     RefSource.q_exact := false; RefSource.q_el := el |}.

(** The exported for-less references of the anchor blocks or, when there are
    none, of the foreign tier. *)
Definition forlessMatches (self : t) (linkType text : string) (el : option h.Element)
    : list RefSource.RefWrapper :=
  let forlessRefs :=
    filterObsoletes self
      (fst (RefSource.queryRefs (anchorBlockRefs self) (forlessQuery linkType text el))) in
  let forlessRefs :=
    if negb (nonempty forlessRefs)
    then fst (RefSource.queryRefs (foreignRefs self) (forlessQuery linkType text el))
    else forlessRefs in
  filterObsoletes self forlessRefs.

(** The for-less references that stand against the local matches: looked for
    when the link is for-less and a local match is for something. *)
Definition forlessRivals (self : t) (localRefs : list RefSource.RefWrapper)
    (linkType text : string) (linkFor : option RefSource.ForArg) (el : option h.Element)
    : list RefSource.RefWrapper :=
  if nonempty localRefs && is_None linkFor && any_for localRefs
  then forlessMatches self linkType text el
  else [].

(** The message of [getRef] about several local matches. *)
Definition msg_multiple_local (linkType text : string) : string :=
  "Multiple possible '" +:+ linkType +:+ "' local refs for '" +:+ text +:+ "'." +:+ nl +:+
  "Randomly chose one of them; other instances might get a different random choice.".

(** The local tier of [getRef]: what [getRef] does when [spec is None]. *)
Definition getRef_local (rand : nat) (linkType text : string)
    (status : option string) (statusHint : string) (linkFor : option RefSource.ForArg)
    (explicitFor : bool) (linkForHint : option RefSource.ForArg) (error : bool)
    (el : option h.Element) : M (option RefSource.RefWrapper) :=
  self ← get_self;
  let localRefs := localMatches self linkType text linkFor linkForHint explicitFor el in
  (* If the autolink was for-less, it found a for-full local link,
     but there was a for-less version in a foreign spec,
     emit a warning (unless it was supressed). *)
  let forlessRefs := forlessRivals self localRefs linkType text linkFor el in
  if nonempty forlessRefs then
    reportAmbiguousForlessLink el text forlessRefs localRefs ;;
    mret None
  else
    match localRefs with
    | [] =>
        getRef_otherTiers linkType text None status statusHint linkFor explicitFor
          linkForHint error el
    | [only] => mret (Some only)
    | _ =>
        let chosenRef :=
          if testing self then
            (* Generate a stable answer *)
            head (sorted (fun x => RefSource.url (RefSource.ref x)) str_lt localRefs)
          else
            (* CHAOS MODE (so you're less likely to rely on it) *)
            random_choice rand localRefs in
        when error (linkerror (msg_multiple_local linkType text)) ;;
        mret chosenRef
    end.

(** The text of a link as [getRef] looks it up. *)
Definition normalText (linkType text : string) : string :=
  let text := h.unfixTypography text in
  if str_in linkType config.lowercaseTypes then lower text else text.

(** [status in config.linkStatuses or status is None] *)
Definition knownStatus (status : option string) : bool :=
  match status with
  | Some s => str_in s config.linkStatuses
  | None => true
  end.

(** [getRef(linkType, text, spec, status, statusHint, linkFor, explicitFor,
    linkForHint, error, el)] *)
Definition getRef (rand : nat) (linkType text : string)
    (spec status statusHint : option string) (linkFor : option RefSource.ForArg)
    (explicitFor : bool) (linkForHint : option RefSource.ForArg) (error : bool)
    (el : option h.Element) : M (option RefSource.RefWrapper) :=
  let text := normalText linkType text in
  let spec := option_map lower spec in
  self ← get_self;
  let statusHint := default (defaultStatus self) statusHint in
  if negb (knownStatus status) then
    when error
      (die ("Unknown spec status '" +:+ str_of_option status +:+ "'. Status must be " +:+
            config.englishFromList config.linkStatuses +:+ ".")) ;;
    mret None
  else
    (* Local refs always get precedence, unless you manually specified a spec. *)
    match spec with
    | None =>
        getRef_local rand linkType text status statusHint linkFor explicitFor linkForHint
          error el
    | Some _ =>
        getRef_otherTiers linkType text spec status statusHint linkFor explicitFor
          linkForHint error el
    end.

(** *** Local definitions *)

(** The loop of [addLocalDfns] over [dfnFor.copy()]: saying a value is for a
    descriptor with [@foo/bar] also makes it for the bare descriptor [bar]. *)
Definition addDescriptorFors (dfnFor : list string) : list string :=
  fold_left
    (fun dfnFor term =>
       match match_descriptor term with
       | Some group1 => set_add (strip group1) dfnFor
       | None => dfnFor
       end)
    dfnFor dfnFor.

(** [existingRefs and existingRefs[0].el is not el] *)
Definition other_dfn (existingRefs : list RefSource.RefWrapper) (el : h.Element) : bool :=
  match existingRefs with
  | r :: _ =>
      match RefSource.el (RefSource.ref r) with
      | Some el' => negb (h.same el' el)
      | None => true
      end
  | [] => false
  end.

(** The query of [addLocalDfns] for the definitions of a text for a value. *)
Definition exactQuery (linkType text linkFor : string) : RefSource.Query :=
  {| RefSource.q_linkType := Some linkType; RefSource.q_text := Some text;
     RefSource.q_spec := None; RefSource.q_status := None;
     RefSource.q_statusHint := None; RefSource.q_linkFor := Some (RefSource.ForStr linkFor);
     RefSource.q_linkForHint := None; RefSource.q_explicitFor := false;
     RefSource.q_export := None; RefSource.q_ignoreObsoletes := false;
     RefSource.q_exact := true; RefSource.q_el := None |}.

(** The loop over [dfnFor] that looks for a definition of the same text for
    the same value: the first value, in the order of iteration, for which
    another element holds the definition. *)
Definition conflictingFor (self : t) (linkType linkText : string) (el : h.Element)
    (dfnFor : list string) : option string :=
  find
    (fun singleFor =>
       other_dfn (fst (RefSource.queryRefs (localRefs self)
                         (exactQuery linkType linkText singleFor))) el)
    dfnFor.

(** [for for_ in dfnFor: self.localRefs.fors[for_].append(linkText)] *)
Definition register_fors (fors : Py.Dict (list string)) (dfnFor : list string)
    (linkText : string) : Py.Dict (list string) :=
  fold_left (fun fors for_ => dict_append fors for_ linkText) dfnFor fors.

(** The reference that [addLocalDfns] builds for a definition. *)
Definition localRef (self : t) (linkType url : string) (dfnFor : list string)
    (el : h.Element) : RefSource.Ref :=
  {| RefSource.type := linkType; RefSource.status := "local";
     RefSource.spec := spec self; RefSource.shortname := shortname self;
     RefSource.level := specLevel self; RefSource.url := url;
     RefSource.export := true; RefSource.for_ := dfnFor; RefSource.el := Some el |}.

(** [self.localRefs.refs[linkText].append(ref)] and the loop that files the
    text under the for-values. *)
Definition fileLocalDfn (refs : RefSource.t) (linkText : string) (ref : RefSource.Ref)
    (dfnFor : list string) : RefSource.t :=
  RefSource.set_fors
    (RefSource.set_refs refs (dict_append (RefSource.refs refs) linkText ref))
    (register_fors (RefSource.fors refs) dfnFor linkText).

(** The end of the body of the inner loop of [addLocalDfns], from the loop
    over [dfnFor.copy()] on: the definition is filed in the local tier.
    [dfnFor] is the set of for-values of the definition. *)
Definition registerLocalDfn (el : h.Element) (linkType linkText : string)
    (dfnFor : list string) : M unit :=
  (* convert back into a list now, for easier JSONing *)
  let dfnFor := sorted (fun x => x) str_lt (addDescriptorFors dfnFor) in
  self ← get_self;
  match h.get el "id" with
  | None => raise (TypeError "can only concatenate str (not 'NoneType') to str")
  | Some id =>
      let ref := localRef self linkType ("#" +:+ id) dfnFor el in
      modify (fun self => set_localRefs self (fileLocalDfn (localRefs self) linkText ref dfnFor)) ;;
      when (match_methodish linkText)
        (modify (fun self =>
           set_localRefs self
             (RefSource.addMethodVariants (localRefs self) linkText dfnFor
                (RefSource.shortname ref))))
  end.

(** The body of the inner loop of [addLocalDfns], for one linking text of an
    element. *)
Definition addLocalDfn (el : h.Element) (linkText : string) : M unit :=
  let linkText := h.unfixTypography linkText in
  let linkText := collapse_ws linkText in
  let linkType := h.treeAttr el "data-dfn-type" in
  if negb (match linkType with Some ty => str_in ty config.dfnTypes | None => false end) then
    die ("Unknown local dfn type '" +:+ str_of_option linkType +:+ "':" +:+ nl +:+ "  " +:+
         h.outerHTML (Some el))
  else
    let linkType := default "" linkType in
    let linkText := if str_in linkType config.lowercaseTypes then lower linkText else linkText in
    self ← get_self;
    match h.treeAttr el "data-dfn-for" with
    | None =>
        let existingRefs :=
          fst (RefSource.queryRefs (localRefs self) (exactQuery linkType linkText "/")) in
        if other_dfn existingRefs el then
          die ("Multiple local '" +:+ linkType +:+ "' <dfn>s have the same linking text '" +:+
               linkText +:+ "'.")
        else registerLocalDfn el linkType linkText []
    | Some dfnFor =>
        let dfnFor := set_of_list (config.splitForValues dfnFor) in
        match conflictingFor self linkType linkText el dfnFor with
        | Some singleFor =>
            die ("Multiple local '" +:+ linkType +:+ "' <dfn>s for '" +:+ singleFor +:+
                 "' have the same linking text '" +:+ linkText +:+ "'.")
        | None => registerLocalDfn el linkType linkText dfnFor
        end
    end.

(** [for x in l: body(x)] *)
Fixpoint for_each {A} (l : list A) (body : A -> M unit) : M unit :=
  match l with
  | [] => mret tt
  | x :: l' => body x ;; for_each l' body
  end.

(** [addLocalDfns(dfns)] *)
Definition addLocalDfns (dfns : list h.Element) : M unit :=
  for_each dfns (fun el =>
    if h.hasClass el "no-ref" then mret tt
    else
      linkTexts ←
        match config.linkTextsFromElement el with
        | inr linkTexts => mret linkTexts
        | inl e =>
            die ("The term '" +:+ config.offendingText e +:+
                 "' is in both lt and local-lt of the element " +:+
                 h.outerHTML (Some (config.el e)) +:+ ".") ;;
            mret (config.allTexts e)
        end;
      for_each linkTexts (addLocalDfn el)).

(** The linking text as [addLocalDfns] files it. *)
Definition normalLinkText (linkType linkText : string) : string :=
  let linkText := collapse_ws (h.unfixTypography linkText) in
  if str_in linkType config.lowercaseTypes then lower linkText else linkText.

(** The for-values of the reference that [addLocalDfns] files for an element
    with the attribute [data-dfn-for]. *)
Definition filedFors (attr : string) : list string :=
  sorted (fun x => x) str_lt (addDescriptorFors (set_of_list (config.splitForValues attr))).

End Refs.

(** *** The data of the document *)

(** The metadata of the document, as [setSpecData] reads them. *)
Record Metadata : Type := {
  md_defaultRefStatus : option string;
  md_status : option string;
  md_shortname : option string;
  md_level : option string;
  md_vshortname : option string;
  md_linkDefaults : Py.Dict (list LinkDefault);
}.

Definition set_specData (self : t) (status : string) (name level vname : option string)
    (defaults : Py.Dict (list LinkDefault)) : t :=
  {| dataFile := dataFile self; specs := specs self; defaultSpecs := defaults;
     ignoredSpecs := ignoredSpecs self; replacedSpecs := replacedSpecs self;
     biblios := biblios self; loadedBiblioGroups := loadedBiblioGroups self;
     biblioKeys := biblioKeys self; biblioNumericSuffixes := biblioNumericSuffixes self;
     preferredBiblioNames := preferredBiblioNames self; headings := headings self;
     defaultStatus := status; localRefs := localRefs self;
     anchorBlockRefs := anchorBlockRefs self; foreignRefs := foreignRefs self;
     shortname := name; specLevel := level; spec := vname;
     testing := testing self |}.


(** The loops of [setSpecData] over [md.linkDefaults.items()] and over the
    defaults of a term: each default is appended to [self.defaultSpecs[term]]. *)
Definition addLinkDefaults (defaultSpecs linkDefaults : Py.Dict (list LinkDefault))
    : Py.Dict (list LinkDefault) :=
  fold_left
    (fun d '(term, defaults) =>
       fold_left (fun d dflt => dict_append d term dflt) defaults d)
    linkDefaults defaultSpecs.

(** The defaults that the metadata hold for a term. *)
Definition defaultsFor (term : string) (linkDefaults : Py.Dict (list LinkDefault))
    : list LinkDefault :=
  flat_map (fun '(k, defaults) => if String.eqb k term then defaults else []) linkDefaults.

(** Two reference managers that differ at most in the bibliography records
    and in the groups that count as loaded. *)
Definition sameButBiblios (a b : t) : Prop :=
  b = set_loadedBiblioGroups (set_biblios a (biblios b)) (loadedBiblioGroups b).

(** Two reference managers that differ at most in the local tier. *)
Definition sameButLocalRefs (a b : t) : Prop :=
  b = set_localRefs a (localRefs b).

(** What a lookup in the bibliography may do to the state: change the
    bibliography records, add to the groups that count as loaded, and write
    fatal messages behind those of the log. *)
Definition biblioStep (st st' : State) : Prop :=
  sameButBiblios (fst st) (fst st') /\
  loadedBiblioGroups (fst st) ⊆ loadedBiblioGroups (fst st') /\
  exists msgs, snd st' = snd st ++ msgs /\ forallb is_fatal msgs = true.

(** Two outcomes of a lookup that differ at most in the log. *)
Definition sameButLog {A} (x y : option (Res A * State)) : Prop :=
  match x, y with
  | Some (r1, st1), Some (r2, st2) => r1 = r2 /\ fst st1 = fst st2
  | None, None => True
  | _, _ => False
  end.

(** A list of [str] in ascending order, each item less than the next. *)
Fixpoint ascending (l : list string) : Prop :=
  match l with
  | x :: (y :: _) as l' => str_lt x y = true /\ ascending l'
  | _ => True
  end.

(** What [addLocalDfns] may do to the state: change the local tier and write
    fatal messages behind those of the log. *)
Definition localStep (st st' : State) : Prop :=
  sameButLocalRefs (fst st) (fst st') /\
  exists msgs, snd st' = snd st ++ msgs /\ forallb is_fatal msgs = true.

(** The for-value that [simplifyPossibleRefs] may show for a reference: one
    of its for-values, or [/] when it is for nothing. *)
Definition shownFor (r : RefSource.RefWrapper) (f : string) : Prop :=
  In f (RefSource.for_ (RefSource.ref r)) \/
  (RefSource.for_ (RefSource.ref r) = [] /\ f = "/").

(** A dictionary of [simplifyPossibleRefs] that stands for a reference:
    same text, type, spec and URL. *)
Definition standsFor (p : PossibleRef) (r : RefSource.RefWrapper) : Prop :=
  (p_text p, p_type p, p_spec p) = refkey r /\ p_url p = RefSource.url (RefSource.ref r).

(** The one exception of [addLocalDfns]: that of the concatenation of a
    [str] and the [None] that stands for the [id] an element does not have. *)
Definition noId : Exn := TypeError "can only concatenate str (not 'NoneType') to str".

Definition returnsOrNoId (r : Res unit) : Prop := r = Ret tt \/ r = Raise noId.

(** The pairs of a for-value and a URL that [forVals] holds under a key. *)
Definition heldUnder (d : list (RefKey * list (string * string))) (k : RefKey)
    (v : string * string) : Prop :=
  exists vals, In (k, vals) d /\ In v vals.

(** The step of the first loop of [simplifyPossibleRefs] for a reference. *)
Definition forVals_step (forVals : list (RefKey * list (string * string)))
    (r : RefSource.RefWrapper) : list (RefKey * list (string * string)) :=
  let url := RefSource.url (RefSource.ref r) in
  match RefSource.for_ (RefSource.ref r) with
  | [] => forVals_append forVals (refkey r) ("/", url)
  | fors => fold_left (fun d f => forVals_append d (refkey r) (f, url)) fors forVals
  end.

(** A method that reads the reference manager only: all it does to the
    state is to write messages behind those of the log, and it returns
    unless it raises the [IndexError] of an index out of range. *)
Definition readOnly {A} (c : M A) : Prop :=
  forall st,
    fst (snd (c st)) = fst st /\
    (exists msgs, snd (snd (c st)) = snd st ++ msgs) /\
    ((exists a, fst (c st) = Ret a) \/
     fst (c st) = Raise (IndexError "list index out of range")).

(** The possible references that stringify to a text, in their order. *)
Definition withText (k : string) (possibleRefs : list PossibleRef) : list PossibleRef :=
  List.filter (fun p => String.eqb (refToText p) k) possibleRefs.

(** [vNamesFromSpecNames(specName)].  The loop goes over the keys of
    [self.specs], here in the order in which the map enumerates them. *)
Definition vNamesFromSpecNames (self : t) (specName : string) : list string :=
  List.filter
    (fun vSpecName =>
       startswith vSpecName specName &&
       match_version (string_drop (String.length specName) vSpecName))
    (map fst (map_to_list (specs self))).

Section Document.
Context `{h.Sig} `{config.Sig} `{RefSource.Sig} `{utils.Sig} `{extern.Sig}
  `{retrieve.FileSystem}.

(** The status that [setSpecData] makes the default one. *)
Definition refStatusOf (self : t) (md : Metadata) : string :=
  if truthy_opt (md_defaultRefStatus md) then default "" (md_defaultRefStatus md)
  else if extern.snapshotStatuses (md_status md) then extern.refStatus_snapshot
  else if extern.shortToLongStatus (md_status md) then extern.refStatus_current
  else defaultStatus self.

(** [setSpecData(md)] *)
Definition setSpecData (md : Metadata) : M unit :=
  modify (fun self =>
    set_specData self (refStatusOf self md) (md_shortname md) (md_level md)
      (md_vshortname md) (addLinkDefaults (defaultSpecs self) (md_linkDefaults md))) ;;
  (* Need to get a real versioned shortname,
     with the possibility of overriding the shortname-level pattern. *)
  removeSameSpecRefs.


(** [queryAllRefs] with the keyword arguments of a query. *)
Definition queryAllRefs (self : t) (q : RefSource.Query) : list RefSource.RefWrapper :=
  let r1 := fst (RefSource.queryRefs (localRefs self) q) in
  let r2 := fst (RefSource.queryRefs (anchorBlockRefs self) q) in
  let r3 := fst (RefSource.queryRefs (foreignRefs self) q) in
  let refs := r1 ++ r2 ++ r3 in
  if RefSource.q_ignoreObsoletes q then filterObsoletes self refs else refs.

(** *** Reporting several possible references *)

(** [linkFor] as a truth value. *)
Definition truthy_for (linkFor : option RefSource.ForArg) : bool :=
  match linkFor with
  | Some (RefSource.ForStr s) => truthy s
  | Some (RefSource.ForList l) => nonempty l
  | None => false
  end.

(** [str(linkFor)] *)
Definition str_of_for (linkFor : option RefSource.ForArg) : string :=
  match linkFor with
  | Some (RefSource.ForStr s) => s
  | Some (RefSource.ForList l) => extern.str_of_list l
  | None => "None"
  end.

(** The first loop of [reportMultiplePossibleRefs]: the possible references
    by the text they stringify to. *)
Definition refsByText (possibleRefs : list PossibleRef) : Py.Dict (list PossibleRef) :=
  fold_left (fun allRefs ref => dict_append allRefs (refToText ref) ref) possibleRefs [].

(** The second loop: the references that alone stringify to their text, and
    the groups of the others. *)
Definition uniqueRefs (allRefs : Py.Dict (list PossibleRef)) : list PossibleRef :=
  flat_map (fun '(_, refs) => match refs with [r] => [r] | _ => [] end) allRefs.

Definition mergedRefs (allRefs : Py.Dict (list PossibleRef)) : list (list PossibleRef) :=
  List.filter (fun refs => negb (length refs =? 1)%nat) (map snd allRefs).

(** The message of [reportMultiplePossibleRefs]. *)
Definition msg_multiple (possibleRefs : list PossibleRef) (linkText linkType : string)
    (linkFor : option RefSource.ForArg) (defaultRef : RefSource.RefWrapper) : string :=
  let allRefs := refsByText possibleRefs in
  let error :=
    if truthy_for linkFor
    then "Multiple possible '" +:+ linkText +:+ "' " +:+ linkType +:+ " refs for '" +:+
         str_of_for linkFor +:+ "'."
    else "Multiple possible '" +:+ linkText +:+ "' " +:+ linkType +:+ " refs." in
  let error :=
    error +:+ nl +:+ "Arbitrarily chose " +:+ RefSource.url (RefSource.ref defaultRef) in
  let error :=
    if nonempty (uniqueRefs allRefs)
    then error +:+ nl +:+
         "To auto-select one of the following refs, insert one of these lines into a <pre class=link-defaults> block:" +:+
         nl +:+ join nl (map refToText (uniqueRefs allRefs))
    else error in
  if nonempty (mergedRefs allRefs)
  then fold_left
         (fun error refs =>
            fold_left (fun error ref => error +:+ nl +:+ "  " +:+ p_url ref) refs
              (error +:+ nl +:+ match refs with r :: _ => refToText r | [] => "" end))
         (mergedRefs allRefs)
         (error +:+ nl +:+
          "The following refs show up multiple times in their spec, in a way that Bikeshed can't distinguish between. Either create a manual link, or ask the spec maintainer to add disambiguating attributes (usually a for='' attribute to all of them).")
  else error.

(** [reportMultiplePossibleRefs(possibleRefs, linkText, linkType, linkFor,
    defaultRef, el)] *)
Definition reportMultiplePossibleRefs (possibleRefs : list PossibleRef)
    (linkText linkType : string) (linkFor : option RefSource.ForArg)
    (defaultRef : RefSource.RefWrapper) (el : option h.Element) : M unit :=
  linkerror (msg_multiple possibleRefs linkText linkType linkFor defaultRef).

(** *** [getRef] behind the local tier *)

(** [x or y] on values that are a [str] or [None]. *)
Definition or_else (x y : option string) : option string :=
  if truthy_opt x then x else y.

(** The test that makes the loop over the link defaults pass a default
    over for its for-value: [linkFor] and [dfnFor] are both set, and
    [linkFor] is another string than [dfnFor] or a list that does not hold
    it. *)
Definition forMismatch (linkFor : option RefSource.ForArg) (dfnFor : option string) : bool :=
  truthy_for linkFor && truthy_opt dfnFor &&
  match linkFor, dfnFor with
  | Some (RefSource.ForStr s), Some d => negb (String.eqb s d)
  | Some (RefSource.ForList l), Some d => negb (str_in d l)
  | _, _ => false
  end.

(** A link default that the loop does not pass over. *)
Definition defaultApplies (linkType : string) (linkFor : option RefSource.ForArg)
    (d : LinkDefault) : bool :=
  let '(_, dfnType, _, dfnFor) := d in
  extern.linkTypeIn dfnType linkType && negb (forMismatch linkFor dfnFor).

(** The link default that [getRef] takes into account: the last one, among
    those filed under the first variation of the text that has any, that
    the loop does not pass over. *)
Definition linkDefault (self : t) (linkType text : string)
    (linkFor : option RefSource.ForArg) : option LinkDefault :=
  match List.filter (dict_mem (defaultSpecs self)) (extern.linkTextVariations text linkType) with
  | v :: _ =>
      find (defaultApplies linkType linkFor) (rev (default [] (dict_get (defaultSpecs self) v)))
  | [] => None
  end.

(** The step of [getRef] that takes the defaults into account: the values
    of [spec], [status], [linkFor] and [linkType] behind it. *)
Definition withDefaults (self : t) (linkType text : string) (spec status : option string)
    (linkFor : option RefSource.ForArg)
    : option string * option string * option RefSource.ForArg * string :=
  if negb (truthy_opt spec) || negb (truthy_opt status) || negb (truthy_for linkFor) then
    match linkDefault self linkType text linkFor with
    | Some (dfnSpec, dfnType, dfnStatus, dfnFor) =>
        (or_else spec dfnSpec, or_else status dfnStatus,
         if truthy_for linkFor then linkFor else option_map RefSource.ForStr dfnFor,
         dfnType)
    | None => (spec, status, linkFor, linkType)
    end
  else (spec, status, linkFor, linkType).

(** The query of [getRef] to the anchor blocks. *)
Definition blockQuery (linkType text : string) (spec : option string)
    (linkFor linkForHint : option RefSource.ForArg) (explicitFor : bool)
    (el : option h.Element) : RefSource.Query :=
  {| RefSource.q_linkType := Some linkType; RefSource.q_text := Some text;
     RefSource.q_spec := spec; RefSource.q_status := None;
     RefSource.q_statusHint := None; RefSource.q_linkFor := linkFor;
     RefSource.q_linkForHint := linkForHint;
     RefSource.q_explicitFor := explicitFor; RefSource.q_export := None;
     RefSource.q_ignoreObsoletes := false; RefSource.q_exact := false;
     RefSource.q_el := el |}.

(** The matches of the anchor blocks. *)
Definition blockMatches (self : t) (linkType text : string) (spec : option string)
    (linkFor linkForHint : option RefSource.ForArg) (explicitFor : bool)
    (el : option h.Element) : list RefSource.RefWrapper :=
  fst (RefSource.queryRefs (anchorBlockRefs self)
         (blockQuery linkType text spec linkFor linkForHint explicitFor el)).

(** The exported for-less foreign references that stand against the matches
    of the anchor blocks. *)
Definition blockRivals (self : t) (blockRefs : list RefSource.RefWrapper)
    (linkType text : string) (linkFor : option RefSource.ForArg) (el : option h.Element)
    : list RefSource.RefWrapper :=
  if nonempty blockRefs && is_None linkFor && any_for blockRefs
  then filterObsoletes self
         (fst (RefSource.queryRefs (foreignRefs self) (forlessQuery linkType text el)))
  else [].

(** [export] as [getRef] sets it for the foreign tier. *)
Definition exportFor (spec : option string) : option bool :=
  if is_None spec then Some true else None.

(** The query of [getRef] to the foreign tier. *)
Definition foreignQuery (linkType text : string) (spec status : option string)
    (statusHint : string) (linkFor linkForHint : option RefSource.ForArg)
    (explicitFor : bool) : RefSource.Query :=
  {| RefSource.q_linkType := Some linkType; RefSource.q_text := Some text;
     RefSource.q_spec := spec; RefSource.q_status := status;
     RefSource.q_statusHint := Some statusHint; RefSource.q_linkFor := linkFor;
     RefSource.q_linkForHint := linkForHint;
     RefSource.q_explicitFor := explicitFor; RefSource.q_export := exportFor spec;
     RefSource.q_ignoreObsoletes := true; RefSource.q_exact := false;
     RefSource.q_el := None |}.

(** What the foreign tier answers. *)
Definition foreignMatches (self : t) (linkType text : string) (spec status : option string)
    (statusHint : string) (linkFor linkForHint : option RefSource.ForArg)
    (explicitFor : bool) : list RefSource.RefWrapper * option string :=
  RefSource.queryRefs (foreignRefs self)
    (foreignQuery linkType text spec status statusHint linkFor linkForHint explicitFor).

(** The values of [linkFor] that end in a pair of parentheses.  The code
    iterates over [linkFor]; the items of a [str] are its characters, none
    of which ends in two characters. *)
Definition methodFors (linkFor : option RefSource.ForArg) : list string :=
  match linkFor with
  | Some (RefSource.ForList l) => List.filter (fun lf => endswith lf "()") l
  | _ => []
  end.

(** The condition under which [getRef] looks for the signature of a method:
    the values of [linkFor] to look at. *)
Definition signatureFors (failure : option string) (linkType : string)
    (linkFor : option RefSource.ForArg) : list string :=
  if truthy_opt failure && str_in linkType ["argument"; "idl"] then methodFors linkFor else [].

(** [interfaceName] and [methodName] for a value [lf] of [linkFor]. *)
Definition splitMethodFor (lf : string) : option string * string :=
  match partition_slash lf with
  | Some (interfaceName, methodName) => (Some interfaceName, methodName)
  | None => (None, lf)
  end.

(** [possibleMethods[k].append(x)] on the [defaultdict(list)] whose keys are
    shortnames. *)
Fixpoint methods_append (d : list (option string * list string)) (k : option string)
    (x : string) : list (option string * list string) :=
  match d with
  | [] => [(k, [x])]
  | (k', v) :: d' =>
      if opt_eqb k' k then (k', v ++ [x]) :: d' else (k', v) :: methods_append d' k x
  end.

(** The signatures that hold the argument and, if an interface is given,
    are for that interface, collected by shortname: the full names of the
    signatures of each shortname other than that of the document. *)
Definition possibleMethods (self : t) (text : string) (interfaceName : option string)
    (methodSignatures : Py.Dict RefSource.MethodSig) : list (list string) :=
  map snd
    (fold_left
       (fun possible '(argfullName, metadata) =>
          if str_in text (RefSource.args metadata) &&
             match interfaceName with
             | Some i => str_in i (RefSource.method_for metadata)
             | None => true
             end &&
             negb (opt_eqb (RefSource.method_shortname metadata) (shortname self))
          then methods_append possible (RefSource.method_shortname metadata) argfullName
          else possible)
       methodSignatures []).

(** The query for the argument of one signature. *)
Definition methodQuery (linkType text : string) (spec s : option string) (linkFor : string)
    : RefSource.Query :=
  {| RefSource.q_linkType := Some linkType; RefSource.q_text := Some text;
     RefSource.q_spec := spec; RefSource.q_status := s;
     RefSource.q_statusHint := None;
     RefSource.q_linkFor := Some (RefSource.ForStr linkFor);
     RefSource.q_linkForHint := None; RefSource.q_explicitFor := false;
     RefSource.q_export := None; RefSource.q_ignoreObsoletes := true;
     RefSource.q_exact := false; RefSource.q_el := None |}.

(** The combinations of interface, status and signature, in the order in
    which the three nested loops try them out. *)
Definition signatureQueries (linkType text : string) (spec status : option string)
    (interfaceName : option string) (methods : list string) : list RefSource.Query :=
  flat_map
    (fun p : string -> string =>
       flat_map
         (fun s => map (fun method => methodQuery linkType text spec s (p method)) methods)
         [Some "local"; status])
    [fun method => str_of_option interfaceName +:+ "/" +:+ method; fun method => method].

(** The three nested loops: the queries are made in turn, and the loops are
    left behind the first query that finds something. *)
Fixpoint firstFound (src : RefSource.t) (queries : list RefSource.Query)
    (found : list RefSource.RefWrapper * option string)
    : list RefSource.RefWrapper * option string :=
  match queries with
  | [] => found
  | q :: queries' =>
      let found := RefSource.queryRefs src q in
      if nonempty (fst found) then found else firstFound src queries' found
  end.

Definition msg_overloads (text : string) (linkFor : option RefSource.ForArg) : string :=
  "The argument autolink '" +:+ text +:+ "' for '" +:+ str_of_for linkFor +:+
  "' has too many possible overloads to disambiguate. Please specify the full method signature this argument is for.".

(** The loop of [getRef] over [linkFor], which is left in its first round
    for a value [lf] that ends in a pair of parentheses: the new values of
    [refs] and [failure]. *)
Definition findSignature (self : t) (linkType text : string) (spec status : option string)
    (linkFor : option RefSource.ForArg) (lf : string)
    (found : list RefSource.RefWrapper * option string)
    : M (list RefSource.RefWrapper * option string) :=
  let '(interfaceName, methodName) := splitMethodFor lf in
  match dict_get (RefSource.methods (foreignRefs self)) methodName with
  | None =>
      (* Nope, foo() is just wrong entirely.
         Jump out and fail in a normal way *)
      mret found
  | Some methodSignatures =>
      match possibleMethods self text interfaceName methodSignatures with
      | [] =>
          (* No method signatures with this argument/interface.
             Jump out and fail in a normal way. *)
          mret found
      | first :: others =>
          (* Too many to disambiguate. *)
          when (nonempty others) (linkerror (msg_overloads text linkFor)) ;;
          (* Try out all the combinations of interface/status/signature *)
          mret (firstFound (foreignRefs self)
                  (signatureQueries linkType text spec status interfaceName first) found)
      end
  end.

(** The query for the methods of an interface. *)
Definition functionishQuery (spec status statusHint : option string)
    (interfaceName : option string) (export : option bool) (ignoreObsoletes : bool)
    : RefSource.Query :=
  {| RefSource.q_linkType := Some "functionish"; RefSource.q_text := None;
     RefSource.q_spec := spec; RefSource.q_status := status;
     RefSource.q_statusHint := statusHint;
     RefSource.q_linkFor := option_map RefSource.ForStr interfaceName;
     RefSource.q_linkForHint := None; RefSource.q_explicitFor := false;
     RefSource.q_export := export; RefSource.q_ignoreObsoletes := ignoreObsoletes;
     RefSource.q_exact := false; RefSource.q_el := None |}.

(** The URLs of the candidates whose text starts with the prefix, each once:
    the keys of the dictionary that [methodRefs] holds the values of. *)
Definition targetUrls (candidates : list RefSource.RefWrapper) (methodPrefix : string)
    : list string :=
  set_of_list
    (map (fun c => RefSource.url (RefSource.ref c))
       (List.filter (fun c => startswith (RefSource.text c) methodPrefix) candidates)).

(** [methodRefs], by the URLs of its items: the local methods of the
    interface or, when there are none, those of the other tiers. *)
Definition methodTargets (self : t) (spec status : option string) (statusHint : string)
    (interfaceName : option string) (methodName : string) : list string :=
  let methodPrefix := drop_last methodName in
  let candidates :=
    fst (RefSource.queryRefs (localRefs self)
           (functionishQuery None None None interfaceName None false)) in
  let methodRefs := targetUrls candidates methodPrefix in
  if negb (nonempty methodRefs) then
    (* Look for non-locals, then *)
    let q := functionishQuery spec status (Some statusHint) interfaceName (exportFor spec)
               true in
    let c1 := fst (RefSource.queryRefs (anchorBlockRefs self) q) in
    let c2 := fst (RefSource.queryRefs (foreignRefs self) q) in
    targetUrls (c1 ++ c2) methodPrefix
  else methodRefs.

Definition msg_targets (text : string) (linkFor : option RefSource.ForArg) : string :=
  "Too many possible method targets to disambiguate '" +:+ str_of_for linkFor +:+ "/" +:+
  text +:+
  "'. Please specify the names of the required args, like 'foo(bar, baz)', in the 'for' attribute.".

(** The message of [getRef] about a query that failed at a known stage. *)
Definition msg_failure (failure linkType text : string) (spec status : option string)
    (linkFor : option RefSource.ForArg) (el : option h.Element) : string :=
  let found := "No '" +:+ linkType +:+ "' refs found for '" +:+ text +:+ "'" in
  if String.eqb failure "text" || String.eqb failure "type" then found +:+ "."
  else if String.eqb failure "export" then found +:+ " that are marked for export."
  else if String.eqb failure "spec" then
    found +:+ " with spec '" +:+ str_of_option spec +:+ "'."
  else if String.eqb failure "for" then
    if is_None spec then found +:+ " with for='" +:+ str_of_for linkFor +:+ "'."
    else found +:+ " with for='" +:+ str_of_for linkFor +:+ "' in spec '" +:+
         str_of_option spec +:+ "'."
  else if String.eqb failure "status" then
    if is_None spec
    then found +:+ " compatible with status '" +:+ str_of_option status +:+ "'."
    else found +:+ " compatible with status '" +:+ str_of_option status +:+
         "' in spec '" +:+ str_of_option spec +:+ "'."
  else
    "The only '" +:+ linkType +:+ "' refs for '" +:+ text +:+ "' were in ignored specs:" +:+
    nl +:+ h.outerHTML el.

(** The stages that [getRef] knows a query to fail at. *)
Definition knownFailures : list string :=
  ["text"; "type"; "export"; "spec"; "for"; "status"; "ignored-specs"].

(** A custom property or descriptor, which is not defined anywhere. *)
Definition customProperty (failure linkType text : string) : bool :=
  str_in failure ["text"; "type"] &&
  str_in linkType ["property"; "propdesc"; "descriptor"] && startswith text "--".

(** The branches of [getRef] on a [failure] that is set. *)
Definition reportFailure (zeroRefsError : bool) (failure linkType text : string)
    (spec status : option string) (linkFor : option RefSource.ForArg)
    (el : option h.Element) : M (option RefSource.RefWrapper) :=
  if str_in failure knownFailures then
    if customProperty failure linkType text then
      (* Custom properties/descriptors aren't ever defined anywhere *)
      mret None
    else
      when zeroRefsError
        (linkerror (msg_failure failure linkType text spec status linkFor el)) ;;
      mret None
  else
    die ("Programming error - I'm not catching '" +:+ failure +:+
         "'-type link failures. Please report!") ;;
    mret None.

(** The reference that [getRef] defaults to among several. *)
Definition defaultRef (linkType : string) (first : RefSource.RefWrapper)
    (refs : list RefSource.RefWrapper) : RefSource.RefWrapper :=
  if String.eqb linkType "propdesc" then
    (* If both props and descs are possible, default to prop. *)
    default first
      (find (fun r => String.eqb (RefSource.type (RefSource.ref r)) "property") refs)
  else first.

(** The end of [getRef], for references found without a failure. *)
Definition chooseRef (refs : list RefSource.RefWrapper) (linkType text : string)
    (linkFor : option RefSource.ForArg) (error : bool) (el : option h.Element)
    : M (option RefSource.RefWrapper) :=
  match refs with
  | [only] =>
      (* Success! *)
      mret (Some only)
  | [] => raise (IndexError "list index out of range")
  | first :: _ =>
      (* If we hit this point, there are >1 possible refs to choose from.
         Default to linking to the first one. *)
      let chosen := defaultRef linkType first refs in
      when error
        (reportMultiplePossibleRefs (simplifyPossibleRefs refs false) text linkType linkFor
           chosen el) ;;
      mret (Some chosen)
  end.

(** [getRef] from the branches on [failure] on. *)
Definition settle (zeroRefsError : bool) (found : list RefSource.RefWrapper * option string)
    (linkType text : string) (spec status : option string)
    (linkFor : option RefSource.ForArg) (error : bool) (el : option h.Element)
    : M (option RefSource.RefWrapper) :=
  match snd found with
  | Some (String c f) =>
      reportFailure zeroRefsError (String c f) linkType text spec status linkFor el
  | _ => chooseRef (fst found) linkType text linkFor error el
  end.

(** [getRef] from the query to the foreign tier on. *)
Definition getRef_foreign (zeroRefsError : bool) (linkType text : string)
    (spec status : option string) (statusHint : string)
    (linkFor : option RefSource.ForArg) (explicitFor : bool)
    (linkForHint : option RefSource.ForArg) (error : bool) (el : option h.Element)
    : M (option RefSource.RefWrapper) :=
  self ← get_self;
  (* Get the relevant refs *)
  let found :=
    foreignMatches self linkType text spec status statusHint linkFor linkForHint
      explicitFor in
  match signatureFors (snd found) linkType linkFor with
  | lf :: _ =>
      (* foo()/bar failed, because foo() is technically the wrong signature
         let's see if we can find the right signature, and it's unambiguous *)
      found ← findSignature self linkType text spec status linkFor lf found;
      (* Allow foo(bar) to be for'd to with just foo() if it's completely unambiguous. *)
      let '(interfaceName, methodName) := splitMethodFor lf in
      if zeroRefsError &&
         (2 <=? length (methodTargets self spec status statusHint interfaceName methodName))%nat
      then
        (* More than one possible foo() overload, can't tell which to link to *)
        linkerror (msg_targets text linkFor) ;;
        mret None
      else settle zeroRefsError found linkType text spec status linkFor error el
  | [] => settle zeroRefsError found linkType text spec status linkFor error el
  end.

(** The part of [getRef] behind the local tier. *)
Definition getRef_otherTiers : OtherTiers :=
  fun linkType text spec status statusHint linkFor explicitFor linkForHint error el =>
    let zeroRefsError := error && negb (str_in linkType ["maybe"; "extended-attribute"]) in
    if opt_eqb status (Some "local") then
      (* Already checked local refs, can early-exit now. *)
      mret None
    else
      self ← get_self;
      (* Take defaults into account *)
      let '(spec, status, linkFor, linkType) :=
        withDefaults self linkType text spec status linkFor in
      (* Then anchor-block refs get preference *)
      let blockRefs := blockMatches self linkType text spec linkFor linkForHint explicitFor el in
      let forlessRefs := blockRivals self blockRefs linkType text linkFor el in
      if nonempty forlessRefs then
        reportAmbiguousForlessLink el text forlessRefs blockRefs ;;
        mret None
      else
        match blockRefs with
        | [] =>
            getRef_foreign zeroRefsError linkType text spec status statusHint linkFor
              explicitFor linkForHint error el
        | [only] => mret (Some only)
        | first :: _ =>
            reportMultiplePossibleRefs (simplifyPossibleRefs blockRefs false) text linkType
              linkFor first el ;;
            mret (Some first)
        end.

(** [getRef], all of it. *)
Definition getRef_method (rand : nat) (linkType text : string)
    (spec status statusHint : option string) (linkFor : option RefSource.ForArg)
    (explicitFor : bool) (linkForHint : option RefSource.ForArg) (error : bool)
    (el : option h.Element) : M (option RefSource.RefWrapper) :=
  getRef getRef_otherTiers rand linkType text spec status statusHint linkFor explicitFor
    linkForHint error el.

End Document.

End ReferenceManager.

(** ** Concrete collaborators and documents

    Implementations of the interfaces above and small documents, on which
    the methods can be run. *)

Module Scenario.

Import RefSource.

(** [s.rstrip(LF)]: the string without the line feeds at its end. *)
Fixpoint rstrip_nl (s : string) : string :=
  match s with
  | EmptyString => EmptyString
  | String c s' =>
      match rstrip_nl s' with
      | EmptyString => if is_newline c then EmptyString else String c EmptyString
      | t => String c t
      end
  end.

(** The pieces of a string between commas. *)
Fixpoint split_commas (s : string) : list string :=
  match s with
  | EmptyString => [EmptyString]
  | String c s' =>
      if Ascii.eqb c ","%char then EmptyString :: split_commas s'
      else
        match split_commas s' with
        | p :: ps => String c p :: ps
        | [] => [String c EmptyString]
        end
  end.

#[export] Instance h_sig : h.Sig := {|
  h.hasClass el c := match h.get el "class" with Some v => String.eqb v c | None => false end;
  h.treeAttr := h.get;
  h.outerHTML el :=
    match el with
    | Some e => "<dfn id=" +:+ default "" (h.get e "id") +:+ ">"
    | None => "None"
    end;
  h.unfixTypography text := text;
|}.

#[export] Instance config_sig : config.Sig := {|
  config.scriptPath segs := join "/" ("bikeshed" :: segs);
  config.lowercaseTypes := ["dfn"];
  config.linkStatuses := ["current"; "snapshot"];
  config.dfnTypes := ["dfn"; "property"; "descriptor"; "value"];
  config.englishFromList l := join ", " l;
  config.splitForValues s :=
    filter truthy (map strip (split_commas (collapse_ws s)));
  config.linkTextsFromElement el := inr (match h.get el "lt" with Some lt => [lt] | None => [] end);
|}.

(** A file system without data files. *)
#[export] Instance no_files : retrieve.FileSystem := {|
  retrieve.files _ := None;
|}.

#[export] Instance biblio_sig : biblio.Sig := {|
  biblio.BiblioEntry preferredURL c :=
    {| biblio.entry_linkText := strip (biblio.linkText c);
       biblio.originalLinkText := None;
       biblio.origin := biblio.OfBiblioEntry preferredURL c |};
  biblio.StringBiblioEntry c :=
    {| biblio.entry_linkText := strip (biblio.linkText c);
       biblio.originalLinkText := None;
       biblio.origin := biblio.OfStringBiblioEntry c |};
  biblio.SpecBasedBiblioEntry spec preferredURL :=
    {| biblio.entry_linkText := default "" (dict_get spec "vshortname");
       biblio.originalLinkText := None;
       biblio.origin := biblio.OfSpecBasedBiblioEntry spec preferredURL |};
  (* Without data files there is nothing to load but the empty text. *)
  biblio.loadBiblioDataFile lines storage := storage;
|}.

(** The for-values asked for. *)
Definition for_values (f : ForArg) : list string :=
  match f with ForStr s => [s] | ForList l => l end.

(** Modelled from the spec: the for filter of [RefSource.queryRefs], which
    is not part of the sources.  Section 4.1, stage 4: an entry is kept when
    its for-values are empty or hold one of the values asked for; with
    [explicit_for], only in the latter case. *)
Definition matches_for (explicitFor : bool) (hint : list string) (x : RefWrapper) : bool :=
  existsb (fun f => str_in f hint) (for_ (ref x)) ||
  (negb explicitFor && negb (nonempty (for_ (ref x)))).

(** Modelled from the spec: [RefSource.queryRefs] is not part of the sources.
    Section 4.1 describes it as a pipeline of filters, each of which ends the
    query with its name when it leaves nothing.  These are the stages on the
    text and kind, the spec, the for-values and the export flag, a kind
    matching when it is equal; the stages on the status and the ignored
    specs are left out, as no document below has entries they would drop. *)
Definition queryRefs (src : RefSource.t) (q : Query) : list RefWrapper * option string :=
  let all :=
    match q_text q with
    | Some text =>
        map (fun r => {| text := text; ref := r |}) (default [] (dict_get (refs src) text))
    | None => flat_map (fun '(k, rs) => map (fun r => {| text := k; ref := r |}) rs) (refs src)
    end in
  if negb (nonempty all) then ([], Some "text") else
  let typed :=
    match q_linkType q with
    | Some ty => filter (fun x => String.eqb (type (ref x)) ty) all
    | None => all
    end in
  if negb (nonempty typed) then ([], Some "type") else
  let inSpec :=
    match q_spec q with
    | Some sp =>
        filter (fun x => bool_decide (spec (ref x) = Some sp) ||
                         bool_decide (shortname (ref x) = Some sp)) typed
    | None => typed
    end in
  if negb (nonempty inSpec) then ([], Some "spec") else
  let forFor :=
    match q_linkFor q with
    | Some f => filter (matches_for (q_explicitFor q) (for_values f)) inSpec
    | None => inSpec
    end in
  if negb (nonempty forFor) then ([], Some "for") else
  let exported :=
    match q_export q with
    | Some true => filter (fun x => export (ref x)) forFor
    | _ => forFor
    end in
  if negb (nonempty exported) then ([], Some "export") else (exported, None).

#[export] Instance refsource_sig : RefSource.Sig := {|
  RefSource.queryRefs := queryRefs;
  (* The scenarios define no methods. *)
  RefSource.addMethodVariants src _ _ _ := src;
|}.

Definition strip_candidate (c : biblio.Candidate) : biblio.Candidate :=
  {| biblio.linkText := rstrip_nl (biblio.linkText c);
     biblio.order := biblio.order c;
     biblio.biblioFormat := rstrip_nl (biblio.biblioFormat c);
     biblio.aliasOf := option_map rstrip_nl (biblio.aliasOf c);
     biblio.obsoletedBy := option_map rstrip_nl (biblio.obsoletedBy c);
     biblio.fields := map (fun '(k, v) => (k, rstrip_nl v)) (biblio.fields c) |}.

#[export] Instance utils_sig : utils.Sig := {|
  utils.stripLineBreaks := strip_candidate;
  (* No spec is ignored or replaced in the scenarios. *)
  utils.filterObsoletes refs _ _ _ _ := refs;
|}.

Definition emptySource (name : string) : RefSource.t :=
  {| source := name; refs := []; fors := []; methods := [] |}.

(** A reference manager made for testing, as [__init__] and [setSpecData]
    leave it for the specification [css-foo], before any data is loaded. *)
Definition manager0 : ReferenceManager.t :=
  {| ReferenceManager.dataFile := retrieve.defaultRequester;
     ReferenceManager.specs := ∅;
     ReferenceManager.defaultSpecs := [];
     ReferenceManager.ignoredSpecs := ∅;
     ReferenceManager.replacedSpecs := ∅;
     ReferenceManager.biblios := [];
     ReferenceManager.loadedBiblioGroups := ∅;
     ReferenceManager.biblioKeys := ∅;
     ReferenceManager.biblioNumericSuffixes := ∅;
     ReferenceManager.preferredBiblioNames := ∅;
     ReferenceManager.headings := ∅;
     ReferenceManager.defaultStatus := "current";
     ReferenceManager.localRefs := emptySource "local";
     ReferenceManager.anchorBlockRefs := emptySource "anchor-block";
     ReferenceManager.foreignRefs := emptySource "foreign";
     ReferenceManager.shortname := Some "css-foo";
     ReferenceManager.specLevel := Some "1";
     ReferenceManager.spec := Some "css-foo-1";
     ReferenceManager.testing := true |}.

(** A bibliography record in the dictionary format. *)
Definition record (linkText : string) (obsoletedBy : string) : biblio.Candidate :=
  {| biblio.linkText := linkText +:+ nl;
     biblio.order := 3;
     biblio.biblioFormat := "dict";
     biblio.aliasOf := None;
     biblio.obsoletedBy := Some (obsoletedBy +:+ nl);
     biblio.fields := [("title", "A title" +:+ nl)] |}.

(** An alias record. *)
Definition alias (linkText aliasOf : string) : biblio.Candidate :=
  {| biblio.linkText := linkText;
     biblio.order := 3;
     biblio.biblioFormat := "alias";
     biblio.aliasOf := Some aliasOf;
     biblio.obsoletedBy := None;
     biblio.fields := [] |}.

Definition with_biblios (b : Py.Dict (list biblio.Candidate)) : ReferenceManager.t :=
  ReferenceManager.set_biblios manager0 b.

(** A reference manager with bibliography data. *)
Definition with_bibliography (b : Py.Dict (list biblio.Candidate))
    (suffixes : gmap string (list string)) (specs : gmap string biblio.SpecData)
    : ReferenceManager.t :=
  {| ReferenceManager.dataFile := retrieve.defaultRequester;
     ReferenceManager.specs := specs;
     ReferenceManager.defaultSpecs := [];
     ReferenceManager.ignoredSpecs := ∅;
     ReferenceManager.replacedSpecs := ∅;
     ReferenceManager.biblios := b;
     ReferenceManager.loadedBiblioGroups := ∅;
     ReferenceManager.biblioKeys := ∅;
     ReferenceManager.biblioNumericSuffixes := suffixes;
     ReferenceManager.preferredBiblioNames := ∅;
     ReferenceManager.headings := ∅;
     ReferenceManager.defaultStatus := "current";
     ReferenceManager.localRefs := emptySource "local";
     ReferenceManager.anchorBlockRefs := emptySource "anchor-block";
     ReferenceManager.foreignRefs := emptySource "foreign";
     ReferenceManager.shortname := Some "css-foo";
     ReferenceManager.specLevel := Some "1";
     ReferenceManager.spec := Some "css-foo-1";
     ReferenceManager.testing := true |}.

(** [foo] is obsoleted by [bar], which is there. *)
Definition obsoleted : ReferenceManager.t :=
  with_biblios [("foo", [record "foo" "bar"]); ("bar", [record "bar" ""])].

(** [foo] is obsoleted by [bar], which is not there. *)
Definition dangling : ReferenceManager.t :=
  with_biblios [("foo", [record "foo" "bar"])].

(** The same after the group of [bar] has been looked for. *)
Definition dangling_loaded : ReferenceManager.t :=
  ReferenceManager.set_loadedBiblioGroups dangling {["ba"]}.

(** Two aliases of each other. *)
Definition alias_cycle : ReferenceManager.t :=
  with_biblios [("a", [alias "a" "b"]); ("b", [alias "b" "a"])].

(** Two records obsoleted by each other. *)
Definition obsolete_cycle : ReferenceManager.t :=
  with_biblios [("a", [record "a" "b"]); ("b", [record "b" "a"])].

(** Only [foo] is there, without numeric suffixes. *)
Definition unversioned : ReferenceManager.t :=
  with_bibliography [("foo", [record "foo" ""])] ∅ ∅.

(** [foo] and [foo-2] are there, [foo-1] is not; there is a specification
    [foo-1]. *)
Definition versioned : ReferenceManager.t :=
  with_bibliography [("foo", [record "foo" ""]); ("foo-2", [record "foo-2" ""])]
    {["foo" := ["foo-2"]]} {["foo-1" := [("vshortname", "foo-1")]]}.

(** The same after the group of [foo-1] has been looked for. *)
Definition loaded_fo (m : ReferenceManager.t) : ReferenceManager.t :=
  ReferenceManager.set_loadedBiblioGroups m {["fo"]}.

(** Only the dated variant [foo-20200101] is there. *)
Definition dated_only : ReferenceManager.t :=
  with_biblios [("foo-20200101", [record "foo-20200101" ""])].

(** A foreign reference. *)
Definition foreignRef (shortname url : string) (for_ : list string) : Ref :=
  {| type := "dfn"; status := "current"; spec := Some "css-bar-1";
     shortname := Some shortname; level := Some "1"; url := url; export := true;
     for_ := for_; el := None |}.

(** The foreign tier holds a reference whose shortname, as the data file has
    it, ends in a line feed, and one of another specification. *)
Definition with_foreign : ReferenceManager.t :=
  ReferenceManager.set_foreignRefs manager0
    {| source := "foreign";
       refs := [("foo", [foreignRef ("css-foo" +:+ nl) "https://example.org/css-foo/#foo" [];
                         foreignRef "css-bar" "https://example.org/css-bar/#foo" []])];
       fors := []; methods := [] |}.

(** A definition of a value for a descriptor. *)
Definition descriptorDfn (dfnFor : string) : h.Element :=
  {| h.ident := 1;
     h.attrib := [("id", "valdef-src"); ("data-dfn-type", "value");
                  ("data-dfn-for", dfnFor); ("lt", "auto")] |}.

(** The for-lists of the references filed under [auto] when the definition
    [descriptorDfn dfnFor] is added to the empty document. *)
Definition forsFiled (dfnFor : string) : list (list string) :=
  map RefSource.for_
    (default []
       (dict_get
          (RefSource.refs
             (ReferenceManager.localRefs
                (fst (snd (ReferenceManager.addLocalDfn (descriptorDfn dfnFor) "auto"
                             (manager0, []))))))
          "auto")).

(** A local reference. *)
Definition localDfn (url : string) (for_ : list string) : Ref :=
  {| type := "dfn"; status := "local"; spec := Some "css-foo-1";
     shortname := Some "css-foo"; level := Some "1"; url := url; export := true;
     for_ := for_; el := None |}.

(** A document that defines [foo] twice, for nothing and for [bar], while a
    foreign specification exports a for-less [foo]. *)
Definition mixed_locals : ReferenceManager.t :=
  ReferenceManager.set_foreignRefs
    (ReferenceManager.set_localRefs manager0
       {| source := "local";
          refs := [("foo", [localDfn "#foo" []; localDfn "#bar-foo" ["bar"]])];
          fors := [("bar", ["foo"])]; methods := [] |})
    {| source := "foreign";
       refs := [("foo", [foreignRef "css-bar" "https://example.org/css-bar/#foo" []])];
       fors := []; methods := [] |}.

(** A document that defines a for-less [foo] twice. *)
Definition twice_local : ReferenceManager.t :=
  ReferenceManager.set_localRefs manager0
    {| source := "local";
       refs := [("foo", [localDfn "#foo-b" []; localDfn "#foo-a" []])];
       fors := []; methods := [] |}.

(** The other tiers are not reached in the documents above, whose links
    have local matches. *)
Definition noOtherTiers : ReferenceManager.OtherTiers :=
  fun _ _ _ _ _ _ _ _ _ _ => mret None.

#[export] Instance extern_sig : extern.Sig := {|
  extern.snapshotStatuses s :=
    match s with Some s => str_in s ["WD"; "CR"; "REC"] | None => false end;
  extern.shortToLongStatus s :=
    match s with Some s => str_in s ["ED"; "WD"; "CR"; "REC"] | None => false end;
  extern.refStatus_snapshot := "snapshot";
  extern.refStatus_current := "current";
  extern.linkTypeIn linkTypes target := String.eqb linkTypes target;
  extern.linkTextVariations text _ := [text];
  extern.str_of_list l := "[" +:+ join ", " (map (fun s => "'" +:+ s +:+ "'") l) +:+ "]";
  (* A decoder that knows [null] and takes any other text that is not
     empty for a string. *)
  extern.json_load text :=
    if String.eqb text "null" then Some JNull
    else if truthy text then Some (JString text) else None;
  extern.splitStatus st := (None, st);
|}.

(** Input sources given by their paths; the one file there is is the
    generic header of the boilerplate folder. *)
#[export] Instance inputsource_sig : InputSource.Sig := {|
  InputSource.t := string;
  InputSource.ofPath path := path;
  InputSource.relative src name := Some (src +:+ "/" +:+ name);
  InputSource.cheaplyExists _ _ := false;
  InputSource.read path :=
    if String.eqb path "bikeshed/spec-data/boilerplate/header.include"
    then Ret "<header>"
    else Raise (OSError ("No such file or directory: '" +:+ path +:+ "'"));
|}.

(** The metadata of an editor's draft of [css-foo], with a link default. *)
Definition md_css_foo : ReferenceManager.Metadata :=
  {| ReferenceManager.md_defaultRefStatus := None;
     ReferenceManager.md_status := Some "ED";
     ReferenceManager.md_shortname := Some "css-foo";
     ReferenceManager.md_level := Some "1";
     ReferenceManager.md_vshortname := Some "css-foo-1";
     ReferenceManager.md_linkDefaults := [("foo", [(Some "css-bar-1", "dfn", None, None)])] |}.

(** [baz] is an alias of [foo], which is obsoleted by [bar]. *)
Definition aliased : ReferenceManager.t :=
  with_biblios [("baz", [alias "baz" "foo"]); ("foo", [record "foo" "bar"]);
                ("bar", [record "bar" ""])].

(** A reference manager with references in the anchor blocks and in the
    foreign tier, and none in the document. *)
Definition with_tiers (blocks foreign : Py.Dict (list Ref)) : ReferenceManager.t :=
  {| ReferenceManager.dataFile := retrieve.defaultRequester;
     ReferenceManager.specs := ∅;
     ReferenceManager.defaultSpecs := [];
     ReferenceManager.ignoredSpecs := ∅;
     ReferenceManager.replacedSpecs := ∅;
     ReferenceManager.biblios := [];
     ReferenceManager.loadedBiblioGroups := ∅;
     ReferenceManager.biblioKeys := ∅;
     ReferenceManager.biblioNumericSuffixes := ∅;
     ReferenceManager.preferredBiblioNames := ∅;
     ReferenceManager.headings := ∅;
     ReferenceManager.defaultStatus := "current";
     ReferenceManager.localRefs := emptySource "local";
     ReferenceManager.anchorBlockRefs :=
       {| source := "anchor-block"; refs := blocks; fors := []; methods := [] |};
     ReferenceManager.foreignRefs :=
       {| source := "foreign"; refs := foreign; fors := []; methods := [] |};
     ReferenceManager.shortname := Some "css-foo";
     ReferenceManager.specLevel := Some "1";
     ReferenceManager.spec := Some "css-foo-1";
     ReferenceManager.testing := true |}.

(** A reference of an anchor block. *)
Definition blockRef (url : string) : Ref :=
  {| type := "dfn"; status := "anchor-block"; spec := Some "css-baz-1";
     shortname := Some "css-baz"; level := Some "1"; url := url; export := true;
     for_ := []; el := None |}.

(** An anchor block and a foreign specification both define [foo]. *)
Definition block_and_foreign : ReferenceManager.t :=
  with_tiers [("foo", [blockRef "https://example.org/css-baz/#foo"])]
    [("foo", [foreignRef "css-bar" "https://example.org/css-bar/#foo" []])].

(** Two foreign specifications define [foo]. *)
Definition two_foreign : ReferenceManager.t :=
  with_tiers []
    [("foo", [foreignRef "css-bar" "https://example.org/css-bar/#foo" [];
              foreignRef "css-qux" "https://example.org/css-qux/#foo" []])].

(** A method of an interface, as the foreign tier files it. *)
Definition methodRef (url : string) : Ref :=
  {| type := "functionish"; status := "current"; spec := Some "dom-1";
     shortname := Some "dom"; level := Some "1"; url := url; export := true;
     for_ := ["Iface"]; el := None |}.

(** The interface [Iface] has two methods [foo], with different arguments;
    the argument [bar] itself has no definition. *)
Definition overloaded : ReferenceManager.t :=
  with_tiers []
    [("foo(bar)", [methodRef "https://example.org/dom/#dom-iface-foo"]);
     ("foo(baz)", [methodRef "https://example.org/dom/#dom-iface-foo-baz"])].

(** A document of the group CSSWG that is an editor's draft, read from the
    folder [spec], with no boilerplate of its own. *)
Definition doc_css_foo : retrieve.Doc :=
  {| retrieve.doc_dataFile := retrieve.defaultRequester;
     retrieve.md_group := Some "CSSWG";
     retrieve.md_status := Some "ED";
     retrieve.md_rawStatus := None;
     retrieve.md_localBoilerplate := fun _ => false;
     retrieve.inputSource := "spec" |}.

End Scenario.

(* ===================================================================== *)
(** * Part II.  Properties                                                *)
(* ===================================================================== *)

(** ** Facts about the Python helpers *)

Section SortedFacts.
Context {A K : Type} (key : A -> K) (lt : K -> K -> bool).
Hypothesis lt_asym : forall a b, lt a b = true -> lt b a = false.
Hypothesis lt_negtrans : forall a b c, lt a b = false -> lt b c = false -> lt a c = false.

Lemma in_insert_sorted (x y : A) (s : list A) :
  In y (insert_sorted key lt x s) <-> y = x \/ In y s.
Proof.
  induction s as [|z s IH]; simpl.
  - intuition.
  - destruct (lt (key z) (key x)); simpl; rewrite ?IH; intuition.
Qed.

Lemma in_sorted (y : A) (l : list A) : In y (sorted key lt l) <-> In y l.
Proof.
  induction l as [|x l IH]; simpl; [tauto|].
  rewrite in_insert_sorted, IH. intuition.
Qed.

(** The head of a sorted list is the first of the elements of the input
    whose key is the least. *)
Lemma sorted_head_first_min (l : list A) :
  l <> [] ->
  exists l1 m l2,
    l = l1 ++ m :: l2 /\
    head (sorted key lt l) = Some m /\
    (forall y, In y l1 -> lt (key m) (key y) = true) /\
    (forall y, In y l2 -> lt (key y) (key m) = false).
Proof.
  induction l as [|x l IH]; [congruence|]. intros _.
  destruct l as [|x' l'].
  - exists [], x, []. simpl. repeat split; intros y [].
  - destruct IH as (l1 & m & l2 & Hl & Hhd & Hbefore & Hafter); [discriminate|].
    change (sorted key lt (x :: x' :: l'))
      with (insert_sorted key lt x (sorted key lt (x' :: l'))).
    destruct (sorted key lt (x' :: l')) as [|m' s] eqn:Hs; [discriminate Hhd|].
    simpl in Hhd. injection Hhd as ->. simpl.
    destruct (lt (key m) (key x)) eqn:Hmx.
    + exists (x :: l1), m, l2. rewrite Hl. repeat split; auto.
      intros y [<-|Hy]; auto.
    + exists [], x, (x' :: l'). repeat split; [intros y []|].
      intros y Hy. rewrite Hl in Hy. apply in_app_or in Hy.
      destruct Hy as [Hy|[<-|Hy]]; eauto.
Qed.

End SortedFacts.

Lemma Zltb_asym (a b : Z) : Z.ltb a b = true -> Z.ltb b a = false.
Proof. lia. Qed.

Lemma Zltb_negtrans (a b c : Z) :
  Z.ltb a b = false -> Z.ltb b c = false -> Z.ltb a c = false.
Proof. lia. Qed.

Lemma str_lt_spec (a b : string) :
  str_lt a b = true <-> String_as_OT.lt a b.
Proof.
  unfold str_lt, String.ltb. rewrite <- String_as_OT.cmp_lt. unfold String_as_OT.cmp.
  destruct (String.compare a b); intuition congruence.
Qed.

Lemma str_lt_asym (a b : string) : str_lt a b = true -> str_lt b a = false.
Proof.
  unfold str_lt, String.ltb. rewrite (String.compare_antisym a b).
  destruct (String.compare b a); simpl; congruence.
Qed.

Lemma str_lt_negtrans (a b c : string) :
  str_lt a b = false -> str_lt b c = false -> str_lt a c = false.
Proof.
  intros Hab Hbc.
  destruct (str_lt a c) eqn:Hac; [|reflexivity].
  apply str_lt_spec in Hac.
  assert (Hcases : forall x y, str_lt x y = false -> x = y \/ String_as_OT.lt y x).
  { intros x y Hxy. unfold str_lt, String.ltb in Hxy.
    destruct (String.compare x y) eqn:Hc; [| discriminate |].
    - left. now apply String.compare_eq_iff.
    - right. apply String_as_OT.cmp_lt. unfold String_as_OT.cmp.
      rewrite String.compare_antisym, Hc. reflexivity. }
  destruct (Hcases _ _ Hab) as [->|Hba], (Hcases _ _ Hbc) as [->|Hcb].
  - exfalso. now apply (String_as_OT.lt_not_eq _ _ Hac).
  - exfalso. apply (String_as_OT.lt_not_eq c c); [|reflexivity].
    eapply String_as_OT.lt_trans; eauto.
  - exfalso. apply (String_as_OT.lt_not_eq c c); [|reflexivity].
    eapply String_as_OT.lt_trans; eauto.
  - exfalso. apply (String_as_OT.lt_not_eq a a); [|reflexivity].
    eapply String_as_OT.lt_trans; [exact Hac|].
    eapply String_as_OT.lt_trans; eauto.
Qed.

Lemma str_in_In (x : string) (l : list string) : str_in x l = true <-> In x l.
Proof.
  unfold str_in. rewrite existsb_exists. split.
  - intros (y & Hy & ->%String.eqb_eq). exact Hy.
  - intros Hx. exists x. split; [exact Hx|apply String.eqb_refl].
Qed.

Lemma in_set_add (x y : string) (s : list string) :
  In x (set_add y s) <-> x = y \/ In x s.
Proof.
  unfold set_add. destruct (str_in y s) eqn:Hy.
  - apply str_in_In in Hy. intuition congruence.
  - rewrite in_app_iff. simpl. intuition.
Qed.

Lemma in_set_of_list (x : string) (l : list string) : In x l -> In x (set_of_list l).
Proof.
  unfold set_of_list.
  assert (Hgen : forall acc, In x acc \/ In x l -> In x (fold_left (fun s y => set_add y s) l acc)).
  { induction l as [|y l IH]; intros acc; simpl; [intuition|].
    intros Hx. apply IH. rewrite in_set_add. intuition. }
  intros Hx. apply Hgen. now right.
Qed.

Lemma list_ascii_of_string_app (a b : string) :
  list_ascii_of_string (a +:+ b) = list_ascii_of_string a ++ list_ascii_of_string b.
Proof. induction a as [|c a IH]; simpl; [reflexivity|]. now rewrite IH. Qed.

Lemma span_app (p : ascii -> bool) (l1 : list ascii) (c : ascii) (l2 : list ascii) :
  forallb p l1 = true -> p c = false -> span p (l1 ++ c :: l2) = (l1, c :: l2).
Proof.
  induction l1 as [|d l1 IH]; simpl; intros Hall Hc.
  - now rewrite Hc.
  - apply andb_prop in Hall as [-> Hall]. now rewrite (IH Hall Hc).
Qed.

(** The pattern of [addLocalDfns] on a term that is an at sign, a name of
    characters of the class, a slash and a value: group 1 is the value up to
    its first line feed. *)
Lemma match_descriptor_form (name value : string) :
  name <> "" ->
  forallb is_descriptor_name_char (list_ascii_of_string name) = true ->
  match_descriptor ("@" +:+ name +:+ "/" +:+ value)
  = Some (first_line_of value).
Proof.
  intros Hname Hclass. unfold match_descriptor, first_line_of.
  change ("@" +:+ name +:+ "/" +:+ value) with (String "@"%char (name +:+ String "/"%char value)).
  cbn [list_ascii_of_string]. rewrite list_ascii_of_string_app.
  cbn [list_ascii_of_string].
  change (Ascii.eqb "@" "@") with true. cbv iota.
  rewrite (span_app _ _ _ _ Hclass) by reflexivity.
  destruct name as [|c name]; [congruence|]. reflexivity.
Qed.

Lemma forallb_rev {A} (p : A -> bool) (l : list A) : forallb p (rev l) = forallb p l.
Proof.
  apply eq_true_iff_eq. rewrite !forallb_forall.
  split; intros Hall x Hx; apply Hall; [apply in_rev in Hx|apply in_rev]; exact Hx.
Qed.

Lemma isdigit_not_newline (c : ascii) : isdigit c = true -> is_newline c = false.
Proof. destruct c as [[] [] [] [] [] [] [] []]; try reflexivity; discriminate. Qed.

Lemma rev_nonempty {A} (l : list A) : nonempty (rev l) = nonempty l.
Proof.
  destruct l as [|x l]; [reflexivity|]. simpl.
  destruct (rev l); reflexivity.
Qed.

Lemma string_app_assoc (a b c : string) : (a +:+ b) +:+ c = a +:+ (b +:+ c).
Proof.
  induction a as [|x a IH]; [reflexivity|].
  change (String x ((a +:+ b) +:+ c) = String x (a +:+ (b +:+ c))). now f_equal.
Qed.

(** A key that ends in digits is not cut by the end-of-line anchor. *)
Lemma before_final_newline_digits (a d : string) :
  d <> "" -> forallb isdigit (list_ascii_of_string d) = true ->
  before_final_newline (a +:+ d) = a +:+ d.
Proof.
  intros Hd Hdigits. unfold before_final_newline.
  rewrite list_ascii_of_string_app, rev_app_distr.
  destruct (rev (list_ascii_of_string d)) as [|c r] eqn:Hrev.
  - destruct d; [congruence|]. apply (f_equal (@length ascii)) in Hrev.
    rewrite length_rev in Hrev. discriminate Hrev.
  - simpl.
    assert (Hc : isdigit c = true).
    { rewrite <- forallb_rev, Hrev in Hdigits. simpl in Hdigits.
      now apply andb_prop in Hdigits as [-> _]. }
    apply isdigit_not_newline in Hc. now rewrite Hc.
Qed.

(** The pattern of [getBiblioRef] on a key made of a base, a hyphen and
    digits: group 1 is the base. *)
Lemma match_numeric_suffix_form (base digits : string) :
  base <> "" ->
  forallb (fun x => negb (is_newline x)) (list_ascii_of_string base) = true ->
  digits <> "" ->
  forallb isdigit (list_ascii_of_string digits) = true ->
  match_numeric_suffix (base +:+ "-" +:+ digits) = Some base.
Proof.
  intros Hbase Hline Hdigits Hall. unfold match_numeric_suffix.
  change (base +:+ "-" +:+ digits) with (base +:+ String "-"%char digits).
  assert (Hkey : before_final_newline (base +:+ String "-"%char digits)
                 = base +:+ String "-"%char digits).
  { change (String "-"%char digits) with ("-" +:+ digits).
    rewrite <- (string_app_assoc base "-" digits).
    exact (before_final_newline_digits (base +:+ "-") digits Hdigits Hall). }
  rewrite Hkey, list_ascii_of_string_app. cbn [list_ascii_of_string].
  rewrite rev_app_distr. cbn [rev]. rewrite <- app_assoc. cbn [app].
  rewrite span_app; [|now rewrite forallb_rev|reflexivity].
  destruct (rev (list_ascii_of_string digits)) as [|c r] eqn:Hrev.
  { destruct digits; [congruence|]. apply (f_equal (@length ascii)) in Hrev.
    rewrite length_rev in Hrev. discriminate Hrev. }
  change (Ascii.eqb "-" "-") with true. cbn [andb].
  rewrite rev_nonempty, forallb_rev, Hline, rev_involutive, string_of_list_ascii_of_string.
  destruct base; [congruence|reflexivity].
Qed.

Lemma dict_get_append {V} (d : Py.Dict (list V)) (k k' : string) (x : V) :
  dict_get (dict_append d k x) k'
  = if String.eqb k k' then Some (default [] (dict_get d k') ++ [x]) else dict_get d k'.
Proof.
  induction d as [|[k0 v] d IH]; simpl.
  - destruct (String.eqb k k'); reflexivity.
  - destruct (String.eqb k0 k) eqn:Hk0; simpl.
    + apply String.eqb_eq in Hk0 as ->. destruct (String.eqb k k'); reflexivity.
    + destruct (String.eqb k0 k') eqn:Hk0'; [|exact IH].
      apply String.eqb_eq in Hk0' as ->.
      rewrite String.eqb_sym, Hk0. reflexivity.
Qed.

(** ** [retrieve.py] *)

Section RetrieveProperties.
Import retrieve.
Context `{config.Sig} `{FileSystem}.

(** Induction along the fallback chain of a requester. *)
Lemma requester_chain_ind (P : DataFileRequester -> Prop) :
  (forall t, P (Requester t None)) ->
  (forall t fb, P fb -> P (Requester t (Some fb))) ->
  forall r, P r.
Proof.
  intros Hnone Hsome.
  fix IH 1. intros [t [fb|]].
  - apply Hsome, IH.
  - apply Hnone.
Qed.

Lemma buildPath_default (self : DataFileRequester) (segs : list string)
    (type_kw : option string) :
  _buildPath self segs (Some (match type_kw with None => type self | Some t => t end))
  = _buildPath self segs type_kw.
Proof. destruct type_kw; reflexivity. Qed.

Lemma fetch_okayToFail_returns (self : DataFileRequester) :
  forall segs str type_kw, raises (fetch self segs str true type_kw) = false.
Proof.
  induction self as [t | t fb IH] using requester_chain_ind; intros segs str type_kw; simpl;
    unfold open; destruct (files _); simpl; try (destruct str; reflexivity).
  specialize (IH segs str None).
  destruct (fetch fb segs str true None) as [v|[]]; try reflexivity; discriminate IH.
Qed.

Lemma fetch_all_missing (self : DataFileRequester) :
  forall segs str okayToFail type_kw,
    all_missing self segs type_kw = true ->
    fetch self segs str okayToFail type_kw
    = _fail (_buildPath self segs type_kw) str okayToFail.
Proof.
  induction self as [t | t fb IH] using requester_chain_ind;
    intros segs str okayToFail type_kw Hmiss;
    cbn [fetch all_missing] in *; unfold open;
    rewrite buildPath_default;
    destruct (files (_buildPath _ segs type_kw)); try discriminate; try reflexivity.
  rewrite (IH _ _ _ _ Hmiss). unfold _fail.
  destruct okayToFail; [destruct str|]; reflexivity.
Qed.

(** C8.  With [okayToFail] set, [fetch] never raises; when the file is
    missing for the requester and for every requester of its fallback chain,
    the result is empty (the empty string in [str] mode, an empty stream
    otherwise), and without [okayToFail] the call raises an [OSError] whose
    message names the location of the file. *)
Theorem fetch_okayToFail (self : DataFileRequester) (segs : list string) (str : bool)
    (type_kw : option string) :
  raises (fetch self segs str true type_kw) = false /\
  (all_missing self segs type_kw = true ->
   fetch self segs str true type_kw = Ret (empty_result str) /\
   fetch self segs str false type_kw
   = Raise (OSError ("Couldn't find file '" +:+ _buildPath self segs type_kw +:+ "'"))).
Proof.
  split; [apply fetch_okayToFail_returns|].
  intros Hmiss. rewrite !(fetch_all_missing _ _ _ _ _ Hmiss).
  split; [destruct str|]; reflexivity.
Qed.

End RetrieveProperties.

Section RetrieveScenario.
Import Scenario.

(** The default requester, asked for a bibliography group when no data file
    is there. *)
Lemma fetch_okayToFail_witness :
  raises (retrieve.fetch retrieve.defaultRequester ["biblio"; "biblio-fo.data"] false true None)
  = false /\
  retrieve.fetch retrieve.defaultRequester ["biblio"; "biblio-fo.data"] false true None
  = Ret (retrieve.Stream "") /\
  retrieve.fetch retrieve.defaultRequester ["biblio"; "biblio-fo.data"] true false None
  = Raise (OSError "Couldn't find file 'bikeshed/spec-data/biblio/biblio-fo.data'").
Proof.
  pose proof (fetch_okayToFail retrieve.defaultRequester ["biblio"; "biblio-fo.data"]
                false None) as [H1 H2].
  pose proof (fetch_okayToFail retrieve.defaultRequester ["biblio"; "biblio-fo.data"]
                true None) as [_ H3].
  split; [exact H1|]. split.
  - apply H2. reflexivity.
  - apply H3. reflexivity.
Defined.

End RetrieveScenario.

(** ** [removeSameSpecRefs] *)

Section RemoveSameSpecRefs.
Import ReferenceManager.

Lemma removeSameSpecRefs_refs_ok (sn : option string) (refs : list RefSource.Ref) :
  forallb shortnameReadable refs = true ->
  removeSameSpecRefs_refs sn refs = (Ret tt, map (clearExport sn) refs).
Proof.
  induction refs as [|r refs IH]; [reflexivity|].
  simpl. intros [Hr Hrest]%andb_prop. rewrite (IH Hrest).
  unfold clearExport, sameSpecRef, shortnameReadable in *.
  destruct (String.eqb (RefSource.status r) "local"); simpl in *; [reflexivity|].
  destruct (RefSource.shortname r) as [s|]; [|discriminate].
  destruct sn as [mine|]; reflexivity.
Qed.

Lemma removeSameSpecRefs_items_ok (sn : option string) (items : Py.Dict (list RefSource.Ref)) :
  forallb (fun kv => forallb shortnameReadable (snd kv)) items = true ->
  removeSameSpecRefs_items sn items
  = (Ret tt, map (fun kv => (fst kv, map (clearExport sn) (snd kv))) items).
Proof.
  induction items as [|[k refs] items IH]; [reflexivity|].
  simpl. intros [Hr Hrest]%andb_prop.
  rewrite (removeSameSpecRefs_refs_ok _ _ Hr), (IH Hrest). reflexivity.
Qed.

(** What [clearExport] changes: the export flag, and that only to [false]
    and only on a reference that meets the condition. *)
Lemma clearExport_frame (sn : option string) (r : RefSource.Ref) :
  clearExport sn r = RefSource.set_export r (RefSource.export r && negb (sameSpecRef sn r)) /\
  RefSource.export (clearExport sn r) = RefSource.export r && negb (sameSpecRef sn r).
Proof.
  unfold clearExport. destruct (sameSpecRef sn r), r as [? ? ? ? ? ? [] ? ?]; split; reflexivity.
Qed.

(** A reference as [removeSameSpecRefs] may leave it: as it was, or with its
    export flag cleared, the latter only for a reference that meets the
    condition. *)
Lemma removeSameSpecRefs_refs_changes (sn : option string) (refs : list RefSource.Ref) :
  Forall2 (exportCleared sn) refs (snd (removeSameSpecRefs_refs sn refs)).
Proof.
  assert (Hsame : forall l : list RefSource.Ref, Forall2 (exportCleared sn) l l)
    by (induction l; constructor; [now left|assumption]).
  induction refs as [|r refs IH]; [constructor|].
  cbn [removeSameSpecRefs_refs].
  destruct (String.eqb (RefSource.status r) "local") eqn:Hst; cbn [negb].
  - destruct (removeSameSpecRefs_refs sn refs) as [res out]. cbn [snd] in *.
    constructor; [now left|exact IH].
  - destruct (RefSource.shortname r) as [s|] eqn:Hsn; [|apply Hsame].
    destruct (removeSameSpecRefs_refs sn refs) as [res out]. cbn [snd] in *.
    constructor; [|exact IH].
    destruct sn as [mine|]; [|now left].
    destruct (String.eqb (rstrip s) mine) eqn:Hmine; [|now left].
    right. split; [|reflexivity]. unfold sameSpecRef. now rewrite Hst, Hsn, Hmine.
Qed.

Lemma removeSameSpecRefs_items_changes (sn : option string)
    (items : Py.Dict (list RefSource.Ref)) :
  Forall2 (fun kv kv' => fst kv' = fst kv /\ Forall2 (exportCleared sn) (snd kv) (snd kv'))
    items (snd (removeSameSpecRefs_items sn items)).
Proof.
  assert (Hrefs : forall l : list RefSource.Ref, Forall2 (exportCleared sn) l l)
    by (induction l; constructor; [now left|assumption]).
  assert (Hsame : forall l : Py.Dict (list RefSource.Ref),
            Forall2 (fun kv kv' => fst kv' = fst kv /\
                                   Forall2 (exportCleared sn) (snd kv) (snd kv')) l l)
    by (induction l; constructor; [split; [reflexivity|apply Hrefs]|assumption]).
  induction items as [|[k refs] items IH]; [constructor|].
  cbn [removeSameSpecRefs_items].
  pose proof (removeSameSpecRefs_refs_changes sn refs) as Hchanges.
  destruct (removeSameSpecRefs_refs sn refs) as [[u|e] refs']; cbn [snd] in Hchanges.
  - destruct (removeSameSpecRefs_items sn items) as [res out]. cbn [snd] in *.
    constructor; [split; [reflexivity|exact Hchanges]|exact IH].
  - cbn [snd]. constructor; [split; [reflexivity|exact Hchanges]|apply Hsame].
Qed.

(** C6.  [removeSameSpecRefs] changes export flags and nothing else.
    Whatever the references are, a call leaves the log and every slot but
    the references of the foreign tier as they are; the foreign tier keeps
    its texts and, under each text, its references in their order, each of
    them as it was or with its export flag cleared and no other field
    changed; and a flag is cleared only on a reference whose status is not
    local and whose shortname is the shortname of the document.  (The
    shortname of a reference is compared as [rstrip] leaves it: in the data
    files it ends in a line feed.)  When every reference that is not local
    has a shortname, as every entry of the data has, the call returns and
    the flag is cleared on exactly those references: each reference [r] has
    become [clearExport] of it, which is [r] with the flag cleared if [r]
    meets the condition and [r] itself otherwise. *)
Theorem removeSameSpecRefs_clears_export (self : t) (log : messages.Log) :
  (exists refs',
     snd (removeSameSpecRefs (self, log))
     = (set_foreignRefs self (RefSource.set_refs (foreignRefs self) refs'), log) /\
     Forall2
       (fun kv kv' =>
          fst kv' = fst kv /\
          Forall2 (exportCleared (shortname self)) (snd kv) (snd kv'))
       (RefSource.refs (foreignRefs self)) refs') /\
  (forallb (fun kv => forallb shortnameReadable (snd kv)) (RefSource.refs (foreignRefs self))
   = true ->
   removeSameSpecRefs (self, log)
   = (Ret tt,
      (set_foreignRefs self
         (RefSource.set_refs (foreignRefs self)
            (map (fun kv => (fst kv, map (clearExport (shortname self)) (snd kv)))
               (RefSource.refs (foreignRefs self)))),
       log)) /\
   forall r,
     clearExport (shortname self) r
     = RefSource.set_export r (RefSource.export r && negb (sameSpecRef (shortname self) r))).
Proof.
  split.
  - pose proof (removeSameSpecRefs_items_changes (shortname self)
                  (RefSource.refs (foreignRefs self))) as Hchanges.
    unfold removeSameSpecRefs. cbn [fst snd].
    destruct (removeSameSpecRefs_items (shortname self) (RefSource.refs (foreignRefs self)))
      as [res refs']. cbn [snd] in *.
    exists refs'. split; [reflexivity|exact Hchanges].
  - intros Hok. split; [|intros r; apply clearExport_frame].
    unfold removeSameSpecRefs. simpl.
    rewrite (removeSameSpecRefs_items_ok _ _ Hok). reflexivity.
Qed.

End RemoveSameSpecRefs.

(** ** [addLocalDfns] *)

Section AddLocalDfns.
Import ReferenceManager.
Context `{h.Sig} `{config.Sig} `{RefSource.Sig} `{utils.Sig}.

Lemma addDescriptorFors_fold (terms acc : list string) (x : string) :
  In x acc \/ (exists term group1,
                 In term terms /\ match_descriptor term = Some group1 /\ x = strip group1) ->
  In x (fold_left
          (fun dfnFor term =>
             match match_descriptor term with
             | Some group1 => set_add (strip group1) dfnFor
             | None => dfnFor
             end) terms acc).
Proof.
  revert acc. induction terms as [|t terms IH]; intros acc; simpl.
  - intros [Hx|(term & g & [] & _)]. exact Hx.
  - intros Hx. apply IH.
    destruct Hx as [Hx|(term & g & [<-|Hterm] & Hm & ->)].
    + left. destruct (match_descriptor t); [apply in_set_add|]; auto.
    + left. rewrite Hm. apply in_set_add. now left.
    + right. eauto.
Qed.

(** The loop over [dfnFor.copy()] keeps the for-values and adds, for every
    for-value that the pattern matches, group 1 of the match, stripped. *)
Lemma addDescriptorFors_spec (dfnFor : list string) (term group1 : string) :
  In term dfnFor ->
  In term (addDescriptorFors dfnFor) /\
  (match_descriptor term = Some group1 -> In (strip group1) (addDescriptorFors dfnFor)).
Proof.
  intros Hterm. unfold addDescriptorFors. split.
  - apply addDescriptorFors_fold. now left.
  - intros Hm. apply addDescriptorFors_fold. right. eauto.
Qed.

Lemma register_fors_spec (dfnFor : list string) (linkText for_ : string) :
  forall fors,
    In for_ dfnFor \/ In linkText (default [] (dict_get fors for_)) ->
    In linkText (default [] (dict_get (register_fors fors dfnFor linkText) for_)).
Proof.
  unfold register_fors. induction dfnFor as [|f dfnFor IH]; intros fors; simpl.
  - intros [[]|Hin]. exact Hin.
  - intros Hin. apply IH. rewrite dict_get_append.
    destruct (String.eqb f for_) eqn:Hf; simpl.
    + right. apply in_app_iff. right. now left.
    + destruct Hin as [[->|Hin]|Hin]; auto.
      rewrite String.eqb_refl in Hf. discriminate.
Qed.

(** Filing a definition puts the reference last under its text and the text
    under each of its for-values. *)
Lemma fileLocalDfn_spec (refs : RefSource.t) (linkText : string) (ref : RefSource.Ref)
    (dfnFor : list string) (for_ : string) :
  In for_ dfnFor ->
  dict_get (RefSource.refs (fileLocalDfn refs linkText ref dfnFor)) linkText
  = Some (default [] (dict_get (RefSource.refs refs) linkText) ++ [ref]) /\
  In linkText (default [] (dict_get (RefSource.fors (fileLocalDfn refs linkText ref dfnFor)) for_)).
Proof.
  intros Hin. unfold fileLocalDfn. simpl. split.
  - rewrite dict_get_append, String.eqb_refl. reflexivity.
  - apply register_fors_spec. now left.
Qed.

(** C10.  Let an element have a known definition type, an [id] and
    for-values of which none is taken by another element for the same text.
    For every for-value made of an at sign, a name (letters, digits, hyphens
    and underscores, at least one), a slash and a value, [addLocalDfns]
    files the definition with a for-list that holds, besides the for-value
    itself, the bare value (the value up to a line feed, if it has one, and
    without white space around it), and files the linking text under that
    bare value.  (What is filed is then handed to [addMethodVariants] when
    the text looks like a method.) *)
Theorem addLocalDfn_descriptor_for (el : h.Element) (linkText0 linkType attr id name value : string)
    (self : t) (log : messages.Log) :
  h.treeAttr el "data-dfn-type" = Some linkType ->
  str_in linkType config.dfnTypes = true ->
  h.treeAttr el "data-dfn-for" = Some attr ->
  conflictingFor self linkType (normalLinkText linkType linkText0) el
    (set_of_list (config.splitForValues attr)) = None ->
  h.get el "id" = Some id ->
  In ("@" +:+ name +:+ "/" +:+ value) (config.splitForValues attr) ->
  name <> "" ->
  forallb is_descriptor_name_char (list_ascii_of_string name) = true ->
  let linkText := normalLinkText linkType linkText0 in
  let bare := strip (first_line_of value) in
  let ref := localRef self linkType ("#" +:+ id) (filedFors attr) el in
  let filed := fileLocalDfn (localRefs self) linkText ref (filedFors attr) in
  In ("@" +:+ name +:+ "/" +:+ value) (RefSource.for_ ref) /\
  In bare (RefSource.for_ ref) /\
  dict_get (RefSource.refs filed) linkText
  = Some (default [] (dict_get (RefSource.refs (localRefs self)) linkText) ++ [ref]) /\
  In linkText (default [] (dict_get (RefSource.fors filed) bare)) /\
  addLocalDfn el linkText0 (self, log)
  = (Ret tt,
     (set_localRefs self
        (if match_methodish linkText
         then RefSource.addMethodVariants filed linkText (filedFors attr) (shortname self)
         else filed),
      log)).
Proof.
  intros Hty Hknown Hfor Hfree Hid Hterm Hname Hclass linkText bare ref filed.
  pose proof (match_descriptor_form name value Hname Hclass) as Hmatch.
  pose proof (in_set_of_list _ _ Hterm) as Hset.
  destruct (addDescriptorFors_spec _ _ (first_line_of value) Hset) as [Hkeep Hadd].
  specialize (Hadd Hmatch).
  assert (Hbare : In bare (filedFors attr)) by (apply in_sorted; exact Hadd).
  assert (Hself : In ("@" +:+ name +:+ "/" +:+ value) (filedFors attr))
    by (apply in_sorted; exact Hkeep).
  destruct (fileLocalDfn_spec (localRefs self) linkText ref (filedFors attr) bare Hbare)
    as [Hrefs Hfors].
  repeat split; try assumption.
  unfold addLocalDfn. rewrite Hty.
  change (default "" (Some linkType)) with linkType. rewrite Hknown. cbn [negb].
  fold (normalLinkText linkType linkText0). fold linkText.
  unfold mbind, M_bind, bind, get_self. cbn [fst snd]. rewrite Hfor.
  fold linkText in Hfree. rewrite Hfree.
  unfold registerLocalDfn, mbind, M_bind, bind, get_self. cbn [fst snd]. rewrite Hid.
  fold (filedFors attr). fold ref.
  unfold modify, when. cbn [fst snd].
  destruct (match_methodish linkText); reflexivity.
Qed.

End AddLocalDfns.

(** ** The bibliography *)

Section BiblioProperties.
Import ReferenceManager messages.
Context `{config.Sig} `{retrieve.FileSystem} `{biblio.Sig} `{utils.Sig}.

(** *** The lookup *)

(** [bibliosFromKey] returns, and writes no message. *)
Lemma bibliosFromKey_returns (key : string) (st : State) :
  exists candidates st1,
    bibliosFromKey key st = (Ret candidates, st1) /\ snd st1 = snd st /\
    candidates = default [] (dict_get (biblios (fst st1)) key).
Proof.
  unfold bibliosFromKey, mbind, M_bind, bind, get_self, when, lift, modify, mret, M_ret, ret.
  destruct st as [self log]. cbn [fst snd].
  destruct (dict_mem (biblios self) key); cbn [negb fst snd]; [eauto|].
  destruct (bool_decide (first_two key ∈ loadedBiblioGroups self)); cbn [negb fst snd];
    [eauto|].
  pose proof (fetch_okayToFail_returns (dataFile self)
                ["biblio"; "biblio-" +:+ first_two key +:+ ".data"] false None) as Hret.
  destruct (retrieve.fetch _ _ false true None) as [lines|e]; [|discriminate Hret].
  cbn [fst snd]. eauto.
Qed.

Lemma useCanonicalName_some (b : biblio.Entry) (st : State) :
  useCanonicalName (Some b) st = (Ret (Some (canonicalName (fst st) b)), st).
Proof. reflexivity. Qed.

(** Leaving the loop by [break] writes no message. *)
Lemma lookupCandidates_break_log (text key : string) (status : option string)
    (generateFakeRef quiet : bool) (st st1 : State) (candidates : list biblio.Candidate) :
  lookupCandidates text key status generateFakeRef quiet st = (Ret (Break candidates), st1) ->
  snd st1 = snd st.
Proof.
  unfold lookupCandidates, mbind, M_bind, bind.
  destruct (bibliosFromKey_returns key st) as (cands & st0 & -> & Hlog & _).
  destruct (nonempty cands); [intros [= _ <-]; exact Hlog|].
  unfold get_self. cbn [fst snd].
  assert (Hfailed : forall wrong,
            lookupFailed text key status generateFakeRef quiet wrong st0
            = (Ret (Break candidates), st1) -> snd st1 = snd st).
  { intros wrong. unfold lookupFailed, mbind, M_bind, bind, get_self. cbn [fst snd].
    destruct (if generateFakeRef then specs (fst st0) !! key else None); [discriminate|].
    destruct wrong as [ns|]; [destruct quiet|]; discriminate. }
  destruct (match_numeric_suffix key) as [g|]; [|apply Hfailed].
  destruct (dict_mem (biblios (fst st0)) g); [|apply Hfailed].
  destruct (biblioNumericSuffixes (fst st0) !! g); [apply Hfailed|].
  intros [= _ <-]. exact Hlog.
Qed.

(** *** Termination *)

Lemma resolveCandidates_total
    (recur : string -> State -> option (Res (option biblio.Entry) * State))
    (text : string) (status : option string) (allowObsolete quiet : bool)
    (candidates : list biblio.Candidate) (st1 : State) :
  (forall target st, exists r st', recur target st = Some (r, st')) ->
  exists r st', resolveCandidates recur text status allowObsolete quiet candidates st1
                = Some (r, st').
Proof.
  intros Hrecur. unfold resolveCandidates.
  destruct (_bestCandidateBiblio candidates) as [candidate|e]; [|eauto].
  destruct (String.eqb (biblio.biblioFormat candidate) "string");
    [rewrite useCanonicalName_some; eauto|].
  destruct (String.eqb (biblio.biblioFormat candidate) "alias").
  - destruct (biblio.aliasOf candidate) as [target|]; [|eauto].
    destruct (Hrecur target st1) as ([[bib|]|e] & st2 & ->);
      [rewrite useCanonicalName_some| |]; eauto.
  - destruct (truthy _); [|rewrite useCanonicalName_some; eauto].
    destruct allowObsolete; [rewrite useCanonicalName_some; eauto|].
    destruct (Hrecur (default "" (biblio.obsoletedBy candidate)) st1) as ([bib|e] & st2 & ->);
      eauto.
    match goal with |- exists r st', Some ?x = _ => destruct x as [r st'] end. eauto.
Qed.

Lemma resolveCandidates_ext
    (recur1 recur2 : string -> State -> option (Res (option biblio.Entry) * State))
    (text : string) (status : option string) (allowObsolete quiet : bool)
    (candidates : list biblio.Candidate) (st1 : State) :
  (forall target st, recur1 target st = recur2 target st) ->
  resolveCandidates recur1 text status allowObsolete quiet candidates st1
  = resolveCandidates recur2 text status allowObsolete quiet candidates st1.
Proof.
  intros Hext. unfold resolveCandidates.
  destruct (_bestCandidateBiblio candidates) as [candidate|e]; [|reflexivity].
  rewrite !Hext. destruct (biblio.aliasOf candidate); rewrite ?Hext; reflexivity.
Qed.

(** With more fuel than there are levels left below depth 100, a call
    returns or raises: the fuel does not run out. *)
Lemma getBiblioRef_fuel_total (fuel : nat) :
  forall text status generateFakeRef allowObsolete el quiet depth st,
    101 - depth < fuel ->
    exists r st',
      getBiblioRef_fuel fuel text status generateFakeRef allowObsolete el quiet depth st
      = Some (r, st').
Proof.
  induction fuel as [|fuel IH]; intros text status g a el q depth st Hfuel; [lia|].
  cbn [getBiblioRef_fuel].
  destruct (100 <? depth)%nat eqn:Hdepth.
  - match goal with |- exists r st', Some ?x = _ => destruct x as [r st'] end. eauto.
  - apply Nat.ltb_ge in Hdepth.
    destruct (lookupCandidates text (lower text) status g q st) as [[[cands|value]|e] st1];
      eauto.
    apply resolveCandidates_total. intros target st2. apply IH. lia.
Qed.

(** The result does not depend on the fuel, once there is enough of it. *)
Lemma getBiblioRef_fuel_enough (fuel1 : nat) :
  forall fuel2 text status generateFakeRef allowObsolete el quiet depth st,
    101 - depth < fuel1 -> 101 - depth < fuel2 ->
    getBiblioRef_fuel fuel1 text status generateFakeRef allowObsolete el quiet depth st
    = getBiblioRef_fuel fuel2 text status generateFakeRef allowObsolete el quiet depth st.
Proof.
  induction fuel1 as [|fuel1 IH]; intros fuel2 text status g a el q depth st Hf1 Hf2; [lia|].
  destruct fuel2 as [|fuel2]; [lia|].
  cbn [getBiblioRef_fuel].
  destruct (100 <? depth)%nat eqn:Hdepth; [reflexivity|].
  apply Nat.ltb_ge in Hdepth.
  destruct (lookupCandidates text (lower text) status g q st) as [[[cands|value]|e] st1];
    try reflexivity.
  apply resolveCandidates_ext. intros target st2. apply IH; lia.
Qed.

(** [getBiblioRef] at a depth of at most 100 is its body, with the recursive
    calls being [getBiblioRef] at the next depth. *)
Lemma getBiblioRef_unfold (text : string) (status : option string)
    (generateFakeRef allowObsolete : bool) (el : option h.Element) (quiet : bool)
    (depth : nat) (st : State) :
  depth <= 100 ->
  getBiblioRef text status generateFakeRef allowObsolete el quiet depth st
  = match lookupCandidates text (lower text) status generateFakeRef quiet st with
    | (Raise e, st1) => Some (Raise e, st1)
    | (Ret (Return value), st1) => Some (Ret value, st1)
    | (Ret (Break candidates), st1) =>
        resolveCandidates
          (fun target => getBiblioRef target status false false el true (depth + 1))
          text status allowObsolete quiet candidates st1
    end.
Proof.
  intros Hdepth. unfold getBiblioRef at 1. cbn [getBiblioRef_fuel].
  assert (Hlt : (100 <? depth)%nat = false) by (apply Nat.ltb_ge; exact Hdepth).
  rewrite Hlt.
  destruct (lookupCandidates text (lower text) status generateFakeRef quiet st)
    as [[[cands|value]|e] st1]; try reflexivity.
  apply resolveCandidates_ext. intros target st2.
  unfold getBiblioRef. apply getBiblioRef_fuel_enough; lia.
Qed.

(** C2.  [getBiblioRef] terminates on every input: the call returns or
    raises, whatever fuel above the number of levels left is given to the
    recursion; the recursive calls of a call at a depth of at most 100 are
    calls at the next depth; and a call at a depth above 100 writes the
    fatal message about the recursion and returns [None] at once, without
    looking anything up. *)
Theorem getBiblioRef_terminates (text : string) (status : option string)
    (generateFakeRef allowObsolete : bool) (el : option h.Element) (quiet : bool)
    (depth : nat) (st : State) :
  (exists r st',
     getBiblioRef text status generateFakeRef allowObsolete el quiet depth st = Some (r, st') /\
     forall fuel,
       101 - depth < fuel ->
       getBiblioRef_fuel fuel text status generateFakeRef allowObsolete el quiet depth st
       = Some (r, st')) /\
  (depth <= 100 ->
   getBiblioRef text status generateFakeRef allowObsolete el quiet depth st
   = match lookupCandidates text (lower text) status generateFakeRef quiet st with
     | (Raise e, st1) => Some (Raise e, st1)
     | (Ret (Return value), st1) => Some (Ret value, st1)
     | (Ret (Break candidates), st1) =>
         resolveCandidates
           (fun target => getBiblioRef target status false false el true (depth + 1))
           text status allowObsolete quiet candidates st1
     end) /\
  (100 < depth ->
   getBiblioRef text status generateFakeRef allowObsolete el quiet depth st
   = Some (Ret None, (fst st, snd st ++ [(Fatal, msg_recursing text)]))).
Proof.
  split; [|split].
  - destruct (getBiblioRef_fuel_total (S (101 - depth)) text status generateFakeRef
                allowObsolete el quiet depth st) as (r & st' & Hrun); [lia|].
    exists r, st'. split; [exact Hrun|].
    intros fuel Hfuel. rewrite <- Hrun. apply getBiblioRef_fuel_enough; lia.
  - apply getBiblioRef_unfold.
  - intros Hdepth. unfold getBiblioRef. cbn [getBiblioRef_fuel].
    assert (Hlt : (100 <? depth)%nat = true) by (apply Nat.ltb_lt; exact Hdepth).
    rewrite Hlt. reflexivity.
Qed.

(** *** Obsolete entries *)

Lemma resolveCandidates_obsolete
    (recur : string -> State -> option (Res (option biblio.Entry) * State))
    (text : string) (status : option string) (allowObsolete quiet : bool)
    (candidates : list biblio.Candidate) (candidate : biblio.Candidate) (st1 : State) :
  _bestCandidateBiblio candidates = Ret candidate ->
  obsoleteCandidate candidate ->
  resolveCandidates recur text status allowObsolete quiet candidates st1
  = if allowObsolete then
      Some (useCanonicalName (Some (biblio.BiblioEntry status candidate)) st1)
    else
      match recur (default "" (biblio.obsoletedBy candidate)) st1 with
      | None => None
      | Some (Raise e, st2) => Some (Raise e, st2)
      | Some (Ret bib, st2) =>
          Some ((when (negb quiet)
                   (match bib with
                    | Some b =>
                        ReferenceManager.die
                          (msg_obsolete (biblio.linkText candidate) (biblio.entry_linkText b))
                    | None =>
                        raise (AttributeError "'NoneType' object has no attribute 'linkText'")
                    end) ;;
                 useCanonicalName bib) st2)
      end.
Proof.
  intros Hbest (Hstring & Halias & Hobsolete). unfold resolveCandidates.
  rewrite Hbest, Hstring, Halias, Hobsolete. reflexivity.
Qed.

(** C9.  Let the best candidate of a key be obsolete and let its replacement
    resolve to [None].  Then [getBiblioRef], called without [allowObsolete]
    and without [quiet], raises: it reads the [linkText] of the [None] that
    the recursive call returned when it puts the message together. *)
Theorem getBiblioRef_obsolete_null_raises (text : string) (status : option string)
    (generateFakeRef : bool) (el : option h.Element) (depth : nat) (st st1 st2 : State)
    (candidates : list biblio.Candidate) (candidate : biblio.Candidate) :
  depth <= 100 ->
  lookupCandidates text (lower text) status generateFakeRef false st
  = (Ret (Break candidates), st1) ->
  _bestCandidateBiblio candidates = Ret candidate ->
  obsoleteCandidate candidate ->
  getBiblioRef (default "" (biblio.obsoletedBy candidate)) status false false el true
    (depth + 1) st1 = Some (Ret None, st2) ->
  getBiblioRef text status generateFakeRef false el false depth st
  = Some (Raise (AttributeError "'NoneType' object has no attribute 'linkText'"), st2).
Proof.
  intros Hdepth Hlookup Hbest Hobsolete Hnull.
  rewrite (getBiblioRef_unfold _ _ _ _ _ _ _ _ Hdepth), Hlookup.
  rewrite (resolveCandidates_obsolete _ _ _ _ _ _ _ _ Hbest Hobsolete), Hnull.
  reflexivity.
Qed.

(** C3, as amended.  Let the best candidate of a key be obsolete.  With
    [allowObsolete], [getBiblioRef] returns the entry of the candidate itself
    (under its canonical name) and writes no message.  Without it, when the
    replacement resolves to an entry, [getBiblioRef] returns that entry
    (its canonical name looked up once more) and, unless [quiet], writes the
    message about the obsolete reference, which is a fatal one. *)
Theorem getBiblioRef_obsolete (text : string) (status : option string)
    (generateFakeRef allowObsolete : bool) (el : option h.Element) (quiet : bool)
    (depth : nat) (st st1 : State)
    (candidates : list biblio.Candidate) (candidate : biblio.Candidate) :
  depth <= 100 ->
  lookupCandidates text (lower text) status generateFakeRef quiet st
  = (Ret (Break candidates), st1) ->
  _bestCandidateBiblio candidates = Ret candidate ->
  obsoleteCandidate candidate ->
  (allowObsolete = true ->
   getBiblioRef text status generateFakeRef allowObsolete el quiet depth st
   = Some (Ret (Some (canonicalName (fst st1) (biblio.BiblioEntry status candidate))),
           (fst st1, snd st))) /\
  (allowObsolete = false ->
   forall replacement st2,
     getBiblioRef (default "" (biblio.obsoletedBy candidate)) status false false el true
       (depth + 1) st1 = Some (Ret (Some replacement), st2) ->
     getBiblioRef text status generateFakeRef allowObsolete el quiet depth st
     = Some (Ret (Some (canonicalName (fst st2) replacement)),
             (fst st2,
              snd st2 ++
              (if quiet then []
               else [(Fatal, msg_obsolete (biblio.linkText candidate)
                               (biblio.entry_linkText replacement))])))).
Proof.
  intros Hdepth Hlookup Hbest Hobsolete.
  pose proof (lookupCandidates_break_log _ _ _ _ _ _ _ _ Hlookup) as Hlog.
  split; intros ->.
  - rewrite (getBiblioRef_unfold _ _ _ _ _ _ _ _ Hdepth), Hlookup.
    rewrite (resolveCandidates_obsolete _ _ _ _ _ _ _ _ Hbest Hobsolete).
    rewrite useCanonicalName_some, <- Hlog. destruct st1; reflexivity.
  - intros replacement st2 Hrep.
    rewrite (getBiblioRef_unfold _ _ _ _ _ _ _ _ Hdepth), Hlookup.
    rewrite (resolveCandidates_obsolete _ _ _ _ _ _ _ _ Hbest Hobsolete), Hrep.
    destruct quiet, st2 as [self2 log2]; cbn.
    + rewrite app_nil_r. reflexivity.
    + reflexivity.
Qed.

(** *** Keys with a numeric suffix *)

(** C4, as amended.  Let the key asked for be a base, a hyphen and digits,
    let it have no record of its own, and let the base (which is not empty
    and holds no line feed) have one.  If no numeric suffixes are registered
    for the base, [getBiblioRef] goes on with the records of the base and the
    lookup writes no message.  If some are registered, and no entry is made
    up from the data of a specification of that name ([generateFakeRef]),
    [getBiblioRef] returns [None], after the fatal message about the wrong
    suffix unless [quiet]. *)
Theorem getBiblioRef_numeric_suffix (text base digits : string) (status : option string)
    (generateFakeRef allowObsolete : bool) (el : option h.Element) (quiet : bool)
    (depth : nat) (st st1 : State) :
  depth <= 100 ->
  lower text = base +:+ "-" +:+ digits ->
  base <> "" ->
  forallb (fun x => negb (is_newline x)) (list_ascii_of_string base) = true ->
  digits <> "" ->
  forallb isdigit (list_ascii_of_string digits) = true ->
  bibliosFromKey (lower text) st = (Ret [], st1) ->
  dict_mem (biblios (fst st1)) base = true ->
  (biblioNumericSuffixes (fst st1) !! base = None ->
   snd st1 = snd st /\
   getBiblioRef text status generateFakeRef allowObsolete el quiet depth st
   = resolveCandidates
       (fun target => getBiblioRef target status false false el true (depth + 1))
       text status allowObsolete quiet
       (default [] (dict_get (biblios (fst st1)) base)) st1) /\
  (forall numericSuffixes,
     biblioNumericSuffixes (fst st1) !! base = Some numericSuffixes ->
     (if generateFakeRef then specs (fst st1) !! lower text else None) = None ->
     getBiblioRef text status generateFakeRef allowObsolete el quiet depth st
     = Some (Ret None,
             (fst st1,
              snd st ++
              (if quiet then [] else [(Fatal, msg_wrong_suffix text numericSuffixes)])))).
Proof.
  intros Hdepth Hkey Hbase Hline Hdigits Hall Hnone Hmem.
  pose proof (match_numeric_suffix_form base digits Hbase Hline Hdigits Hall) as Hmatch.
  destruct (bibliosFromKey_returns (lower text) st) as (c & st0 & Hrun & Hlog & _).
  rewrite Hnone in Hrun. injection Hrun as _ <-.
  assert (Hlookup : forall g q,
            lookupCandidates text (lower text) status g q st
            = match biblioNumericSuffixes (fst st1) !! base with
              | Some numericSuffixes =>
                  lookupFailed text (lower text) status g q (Some numericSuffixes) st1
              | None => (Ret (Break (default [] (dict_get (biblios (fst st1)) base))), st1)
              end).
  { intros g q. unfold lookupCandidates, mbind, M_bind, bind. rewrite Hnone.
    cbn [nonempty]. unfold get_self. cbn [fst snd].
    rewrite Hkey, Hmatch, Hmem.
    destruct (biblioNumericSuffixes (fst st1) !! base); reflexivity. }
  split.
  - intros Hfree. split; [exact Hlog|].
    rewrite (getBiblioRef_unfold _ _ _ _ _ _ _ _ Hdepth), Hlookup, Hfree. reflexivity.
  - intros numericSuffixes Hsuffixes Hfake.
    rewrite (getBiblioRef_unfold _ _ _ _ _ _ _ _ Hdepth), Hlookup, Hsuffixes.
    unfold lookupFailed, mbind, M_bind, bind, get_self. cbn [fst snd]. rewrite Hfake.
    destruct quiet, st1 as [self1 log1]; cbn in *; subst log1.
    + rewrite app_nil_r. reflexivity.
    + reflexivity.
Qed.

(** *** The latest dated variant *)

Lemma str_lt_irrefl (a : string) : str_lt a a = false.
Proof.
  destruct (str_lt a a) eqn:Haa; [|reflexivity].
  now rewrite (str_lt_asym _ _ Haa) in Haa.
Qed.

(** The best candidate is the first of the candidates of the lowest order. *)
Lemma bestCandidate_lowest_order (candidates : list biblio.Candidate) :
  candidates <> [] ->
  exists before best after,
    candidates = before ++ best :: after /\
    (forall c, In c before -> (biblio.order best < biblio.order c)%Z) /\
    (forall c, In c after -> (biblio.order best <= biblio.order c)%Z) /\
    _bestCandidateBiblio candidates = Ret (utils.stripLineBreaks best).
Proof.
  intros Hne.
  destruct (sorted_head_first_min biblio.order Z.ltb Zltb_asym Zltb_negtrans candidates Hne)
    as (l1 & m & l2 & Hl & Hhd & Hbefore & Hafter).
  exists l1, m, l2. repeat split.
  - exact Hl.
  - intros c Hc. apply Hbefore in Hc. lia.
  - intros c Hc. apply Hafter in Hc. lia.
  - unfold _bestCandidateBiblio.
    destruct (sorted biblio.order Z.ltb candidates); [discriminate|].
    simpl in Hhd. now injection Hhd as ->.
Qed.

Lemma str_lt_trans (a b c : string) :
  str_lt a b = true -> str_lt b c = true -> str_lt a c = true.
Proof.
  rewrite !str_lt_spec. apply String_as_OT.lt_trans.
Qed.

(** [b <= a] and [a < c] give [b < c]. *)
Lemma str_le_lt_trans (a b c : string) :
  str_lt a b = false -> str_lt a c = true -> str_lt b c = true.
Proof.
  intros Hab Hac. destruct (str_lt b c) eqn:Hbc; [reflexivity|].
  now rewrite (str_lt_negtrans _ _ _ Hab Hbc) in Hac.
Qed.

Lemma allDated_cons (key k : string) (bs : list biblio.Candidate)
    (items : Py.Dict (list biblio.Candidate)) (P : string -> Prop) :
  (forall date, datedVariant key k date -> P date) ->
  allDated key items P -> allDated key ((k, bs) :: items) P.
Proof.
  intros Hk Hitems k' bs' date [[= <- <-]|Hin] Hd; [now apply Hk|eapply Hitems; eauto].
Qed.

(** What the loop of [getLatestBiblioRef] ends with, when it is entered with
    [latest]: nothing when there was nothing and no key is a dated variant;
    otherwise either what it was entered with, no dated variant having a
    greater date, or the records of the first dated variant whose date is
    greater than the one it was entered with and to which no other date is
    greater. *)
Lemma latestDated_spec (key : string) (items : Py.Dict (list biblio.Candidate)) :
  forall latest,
    match latestDated key items latest with
    | None => latest = None /\ allDated key items (fun _ => False)
    | Some (date, refs) =>
        (forall d0 r0, latest = Some (d0, r0) -> str_lt date d0 = false) /\
        ((latest = Some (date, refs) /\
          allDated key items (fun date' => str_lt date date' = false)) \/
         (exists before k after,
            items = before ++ (k, refs) :: after /\
            datedVariant key k date /\
            allDated key before (fun date' => str_lt date' date = true) /\
            allDated key after (fun date' => str_lt date date' = false) /\
            (forall d0 r0, latest = Some (d0, r0) -> str_lt d0 date = true)))
    end.
Proof.
  induction items as [|[k bs] items IH]; intros latest; cbn [latestDated].
  - destruct latest as [[d r]|].
    + split; [intros d0 r0 [= -> ->]; apply str_lt_irrefl|].
      left. split; [reflexivity|intros ? ? ? []].
    + split; [reflexivity|intros ? ? ? []].
  - (* An item that is no dated variant is passed over. *)
    assert (Hpass : (forall date, ~ datedVariant key k date) ->
              match latestDated key items latest with
              | None => latest = None /\ allDated key ((k, bs) :: items) (fun _ => False)
              | Some (date, refs) =>
                  (forall d0 r0, latest = Some (d0, r0) -> str_lt date d0 = false) /\
                  ((latest = Some (date, refs) /\
                    allDated key ((k, bs) :: items) (fun date' => str_lt date date' = false)) \/
                   (exists before k0 after,
                      (k, bs) :: items = before ++ (k0, refs) :: after /\
                      datedVariant key k0 date /\
                      allDated key before (fun date' => str_lt date' date = true) /\
                      allDated key after (fun date' => str_lt date date' = false) /\
                      (forall d0 r0, latest = Some (d0, r0) -> str_lt d0 date = true)))
              end).
    { intros Hno. specialize (IH latest).
      destruct (latestDated key items latest) as [[d r]|].
      - destruct IH as (Hprev & [(Hl & Hall)|(before & k0 & after & Hsplit & Hd & Hb & Ha & Hgt)]).
        + split; [exact Hprev|]. left. split; [exact Hl|].
          apply allDated_cons; [|exact Hall]. intros date Hdate. now apply Hno in Hdate.
        + split; [exact Hprev|]. right. exists ((k, bs) :: before), k0, after.
          rewrite Hsplit. repeat split; try assumption; try apply Hd.
          apply allDated_cons; [|exact Hb]. intros date Hdate. now apply Hno in Hdate.
      - destruct IH as (Hl & Hall). split; [exact Hl|].
        apply allDated_cons; [|exact Hall]. intros date Hdate. now apply Hno in Hdate. }
    destruct (startswith k key) eqn:Hstart; cbn [negb];
      [|apply Hpass; intros date [Hs _]; congruence].
    destruct (match_date_suffix k) as [date|] eqn:Hdate;
      [|apply Hpass; intros date [_ Hd]; congruence].
    clear Hpass.
    assert (Hk : forall P : string -> Prop, P date -> forall date', datedVariant key k date' -> P date').
    { intros P HP date' [_ Hd]. rewrite Hdate in Hd. now injection Hd as <-. }
    (* The item is taken when nothing was there or its date is greater. *)
    assert (Htake : (forall d0 r0, latest = Some (d0, r0) -> str_lt d0 date = true) ->
              match latestDated key items (Some (date, bs)) with
              | None => False
              | Some (d, refs) =>
                  (forall d0 r0, latest = Some (d0, r0) -> str_lt d d0 = false) /\
                  exists before k0 after,
                    (k, bs) :: items = before ++ (k0, refs) :: after /\
                    datedVariant key k0 d /\
                    allDated key before (fun date' => str_lt date' d = true) /\
                    allDated key after (fun date' => str_lt d date' = false) /\
                    (forall d0 r0, latest = Some (d0, r0) -> str_lt d0 d = true)
              end).
    { intros Hgreater. specialize (IH (Some (date, bs))).
      destruct (latestDated key items (Some (date, bs))) as [[d r]|];
        [|destruct IH as [Hl _]; discriminate Hl].
      destruct IH as (Hprev & [(Hl & Hall)|(before & k0 & after & Hsplit & Hd & Hb & Ha & Hgt)]).
      - injection Hl as <- <-. split.
        + intros d0 r0 Hlatest. apply str_lt_asym. eapply Hgreater; eauto.
        + exists [], k, items. repeat split; try assumption.
          intros ? ? ? [].
      - pose proof (Hgt _ _ eq_refl) as Hlt. split.
        + intros d0 r0 Hlatest. apply str_lt_asym.
          eapply str_lt_trans; [eapply Hgreater; eauto|exact Hlt].
        + exists ((k, bs) :: before), k0, after. rewrite Hsplit.
          repeat split; try assumption; try apply Hd.
          * apply allDated_cons; [|exact Hb]. now apply Hk.
          * intros d0 r0 Hlatest. eapply str_lt_trans; [eapply Hgreater; eauto|exact Hlt]. }
    destruct latest as [[ld lr]|].
    + destruct (str_lt ld date) eqn:Hlt.
      * assert (Hgreater : forall d0 r0, Some (ld, lr) = Some (d0, r0) -> str_lt d0 date = true)
          by (intros d0 r0 [= <- <-]; exact Hlt).
        specialize (Htake Hgreater).
        destruct (latestDated key items (Some (date, bs))) as [[d r]|]; [|contradiction].
        destruct Htake as (Hprev & Hfrom). split; [exact Hprev|right; exact Hfrom].
      * clear Htake. specialize (IH (Some (ld, lr))).
        destruct (latestDated key items (Some (ld, lr))) as [[d r]|];
          [|destruct IH as [Hl _]; discriminate Hl].
        destruct IH as (Hprev & [(Hl & Hall)|(before & k0 & after & Hsplit & Hd & Hb & Ha & Hgt)]).
        -- split; [exact Hprev|]. left. split; [exact Hl|].
           injection Hl as <- <-. apply allDated_cons; [|exact Hall]. now apply Hk.
        -- split; [exact Hprev|]. right. exists ((k, bs) :: before), k0, after.
           rewrite Hsplit. repeat split; try assumption; try apply Hd.
           apply allDated_cons; [|exact Hb]. apply Hk.
           eapply str_le_lt_trans; [exact Hlt|]. eapply Hgt; eauto.
    + assert (Hgreater : forall d0 r0, @None (string * list biblio.Candidate) = Some (d0, r0) ->
                str_lt d0 date = true) by (intros d0 r0 [=]).
      specialize (Htake Hgreater).
      destruct (latestDated key items (Some (date, bs))) as [[d r]|]; [|contradiction].
      destruct Htake as (Hprev & Hfrom). split; [exact Hprev|right; exact Hfrom].
Qed.

(** C7, as amended.  When the key itself has no record, [getLatestBiblioRef]
    returns [None].  When it has one: if no key of the bibliography starts
    with the key and ends in eight digits, the result is [None]; otherwise
    the result is the entry built from the best candidate (the first of the
    lowest order) of the records of the first key, in the order of the
    dictionary, that starts with the key, ends in eight digits and has a
    date to which none of the others is greater. *)
Theorem getLatestBiblioRef_latest (key : string) (st : State) :
  exists candidates st1,
    bibliosFromKey key st = (Ret candidates, st1) /\
    (candidates = [] -> getLatestBiblioRef key st = (Ret None, st1)) /\
    (candidates <> [] ->
     (allDated key (biblios (fst st1)) (fun _ => False) /\
      getLatestBiblioRef key st = (Ret None, st1)) \/
     (exists before k refs after date,
        biblios (fst st1) = before ++ (k, refs) :: after /\
        datedVariant key k date /\
        allDated key before (fun date' => str_lt date' date = true) /\
        allDated key after (fun date' => str_lt date date' = false) /\
        getLatestBiblioRef key st
        = (match _bestCandidateBiblio refs with
           | Ret candidate => Ret (Some (biblio.BiblioEntry None candidate))
           | Raise e => Raise e
           end, st1) /\
        (refs <> [] ->
         exists earlier best later,
           refs = earlier ++ best :: later /\
           (forall c, In c earlier -> (biblio.order best < biblio.order c)%Z) /\
           (forall c, In c later -> (biblio.order best <= biblio.order c)%Z) /\
           _bestCandidateBiblio refs = Ret (utils.stripLineBreaks best)))).
Proof.
  destruct (bibliosFromKey_returns key st) as (candidates & st1 & Hrun & _ & _).
  exists candidates, st1. split; [exact Hrun|].
  unfold getLatestBiblioRef, mbind, M_bind, bind. rewrite Hrun. split.
  - intros ->. reflexivity.
  - intros Hne. destruct candidates as [|c cs]; [congruence|].
    cbn [nonempty negb]. unfold get_self. cbn [fst snd].
    pose proof (latestDated_spec key (biblios (fst st1)) None) as Hspec.
    destruct (latestDated key (biblios (fst st1)) None) as [[date refs]|].
    + right.
      destruct Hspec as (_ & [(Hl & _)|(before & k & after & Hsplit & Hd & Hb & Ha & _)]);
        [discriminate|].
      exists before, k, refs, after, date. repeat split; try assumption; try apply Hd.
      * unfold lift. destruct (_bestCandidateBiblio refs); reflexivity.
      * apply bestCandidate_lowest_order.
    + left. destruct Hspec as [_ Hnone]. split; [exact Hnone|reflexivity].
Qed.

End BiblioProperties.

(** ** [getRef]: the local tier *)

Section GetRefProperties.
Import ReferenceManager messages.
Context `{h.Sig} `{config.Sig} `{RefSource.Sig} `{utils.Sig}.
Variable otherTiers : OtherTiers.

Lemma random_choice_in {A} (rand : nat) (l : list A) :
  l <> [] -> exists x, random_choice rand l = Some x /\ In x l.
Proof.
  intros Hne. unfold random_choice.
  assert (Hlt : rand mod length l < length l).
  { apply Nat.mod_upper_bound. destruct l; [congruence|discriminate]. }
  destruct (nth_error l (rand mod length l)) as [x|] eqn:Hnth.
  - exists x. split; [reflexivity|]. eapply nth_error_In; eauto.
  - apply nth_error_None in Hnth. lia.
Qed.

(** [getRef] on a link without a spec and with a known status is its local
    tier, on the normal form of the text. *)
Lemma getRef_specless (rand : nat) (linkType text : string) (status statusHint : option string)
    (linkFor : option RefSource.ForArg) (explicitFor : bool)
    (linkForHint : option RefSource.ForArg) (error : bool) (el : option h.Element)
    (st : State) :
  knownStatus status = true ->
  getRef otherTiers rand linkType text None status statusHint linkFor explicitFor linkForHint
    error el st
  = getRef_local otherTiers rand linkType (normalText linkType text) status
      (default (defaultStatus (fst st)) statusHint) linkFor explicitFor linkForHint error el st.
Proof.
  intros Hknown. unfold getRef, mbind, M_bind, bind, get_self. cbn [fst snd option_map].
  rewrite Hknown. reflexivity.
Qed.

(** C1, as amended.  Take a link without a spec and with a known status that
    has matches in the local tier.  If the link is for-less, one of the local
    matches has for-values, and there is an exported for-less match in the
    anchor blocks or the foreign tier, [getRef] writes the link error about
    the ambiguous for-less link and returns [None].  Otherwise [getRef]
    returns one of the local matches (the match itself if there is one
    only), whatever the other tiers hold. *)
Theorem getRef_local_precedence (rand : nat) (linkType text : string)
    (status statusHint : option string) (linkFor : option RefSource.ForArg)
    (explicitFor : bool) (linkForHint : option RefSource.ForArg) (error : bool)
    (el : option h.Element) (self : t) (log : Log) :
  knownStatus status = true ->
  let text' := normalText linkType text in
  let locals := localMatches self linkType text' linkFor linkForHint explicitFor el in
  let forless := forlessMatches self linkType text' el in
  locals <> [] ->
  (linkFor = None -> any_for locals = true -> forless <> [] ->
   getRef otherTiers rand linkType text None status statusHint linkFor explicitFor
     linkForHint error el (self, log)
   = (Ret None, (self, log ++ [(LinkError, msg_ambiguous_forless text' forless locals)]))) /\
  (linkFor <> None \/ any_for locals = false \/ forless = [] ->
   exists r log',
     In r locals /\
     (forall only, locals = [only] -> r = only /\ log' = log) /\
     getRef otherTiers rand linkType text None status statusHint linkFor explicitFor
       linkForHint error el (self, log)
     = (Ret (Some r), (self, log'))).
Proof.
  intros Hknown text' locals forless Hlocals.
  rewrite (getRef_specless _ _ _ _ _ _ _ _ _ _ _ Hknown).
  unfold getRef_local, mbind, M_bind, bind, get_self. cbn [fst snd].
  fold text'. fold locals. unfold forlessRivals. fold forless.
  assert (Hne : nonempty locals = true) by (destruct locals; [congruence|reflexivity]).
  rewrite Hne. cbn [andb].
  split.
  - intros -> Hany Hforless. cbn [is_None andb]. rewrite Hany.
    destruct forless as [|f fs] eqn:Hf; [congruence|]. reflexivity.
  - intros Hfree.
    assert (Hrivals : nonempty (if is_None linkFor && any_for locals then forless else [])
                      = false).
    { destruct Hfree as [Hfor|[Hany|Hforless]].
      - destruct linkFor; [reflexivity|congruence].
      - rewrite Hany, andb_false_r. reflexivity.
      - rewrite Hforless. destruct (is_None linkFor && any_for locals); reflexivity. }
    rewrite Hrivals.
    destruct locals as [|r1 [|r2 rest]] eqn:Hl; [congruence| |].
    + exists r1, log. split; [now left|]. split; [|reflexivity].
      intros only [= <-]. split; reflexivity.
    + assert (Hchoice : exists r,
                (if testing self
                 then head (sorted (fun x => RefSource.url (RefSource.ref x)) str_lt
                              (r1 :: r2 :: rest))
                 else random_choice rand (r1 :: r2 :: rest)) = Some r /\
                In r (r1 :: r2 :: rest)).
      { destruct (testing self).
        - destruct (sorted_head_first_min (fun x => RefSource.url (RefSource.ref x)) str_lt
                      str_lt_asym str_lt_negtrans (r1 :: r2 :: rest))
            as (l1 & m & l2 & Hsplit & Hhd & _); [discriminate|].
          exists m. split; [exact Hhd|]. rewrite Hsplit. apply in_app_iff. right. now left.
        - apply random_choice_in. discriminate. }
      destruct Hchoice as (r & -> & Hin).
      exists r, (if error then log ++ [(LinkError, msg_multiple_local linkType text')] else log).
      split; [exact Hin|]. split; [intros only [=]|].
      destruct error; reflexivity.
Qed.

(** C5, as amended.  In testing mode, take a link without a spec and with
    a known status that has more than one match in the local tier, and let
    the check for an ambiguous for-less link not fire.  Then [getRef]
    returns the first of the matches with the least URL, whatever number the
    random generator would draw, and writes the link error about the
    multiple local references when [error] is set. *)
Theorem getRef_testing_smallest_url (linkType text : string)
    (status statusHint : option string) (linkFor : option RefSource.ForArg)
    (explicitFor : bool) (linkForHint : option RefSource.ForArg) (error : bool)
    (el : option h.Element) (self : t) (log : Log) :
  testing self = true ->
  knownStatus status = true ->
  let text' := normalText linkType text in
  let locals := localMatches self linkType text' linkFor linkForHint explicitFor el in
  1 < length locals ->
  linkFor <> None \/ any_for locals = false \/ forlessMatches self linkType text' el = [] ->
  exists before chosen after,
    locals = before ++ chosen :: after /\
    (forall x, In x before ->
       str_lt (RefSource.url (RefSource.ref chosen)) (RefSource.url (RefSource.ref x)) = true) /\
    (forall x, In x after ->
       str_lt (RefSource.url (RefSource.ref x)) (RefSource.url (RefSource.ref chosen)) = false) /\
    forall rand,
      getRef otherTiers rand linkType text None status statusHint linkFor explicitFor
        linkForHint error el (self, log)
      = (Ret (Some chosen),
         (self,
          log ++ (if error then [(LinkError, msg_multiple_local linkType text')] else []))).
Proof.
  intros Htesting Hknown text' locals Hmany Hfree.
  destruct (sorted_head_first_min (fun x => RefSource.url (RefSource.ref x)) str_lt
              str_lt_asym str_lt_negtrans locals)
    as (before & chosen & after & Hsplit & Hhd & Hbefore & Hafter).
  { destruct locals; [simpl in Hmany; lia|discriminate]. }
  exists before, chosen, after. repeat split; try assumption.
  intros rand.
  rewrite (getRef_specless _ _ _ _ _ _ _ _ _ _ _ Hknown).
  unfold getRef_local, mbind, M_bind, bind, get_self. cbn [fst snd].
  fold text'. fold locals. unfold forlessRivals.
  assert (Hrivals : nonempty (if nonempty locals && is_None linkFor && any_for locals
                              then forlessMatches self linkType text' el else []) = false).
  { destruct Hfree as [Hfor|[Hany|Hforless]].
    - destruct linkFor; [|congruence]. cbn [is_None]. now rewrite andb_false_r.
    - rewrite Hany, andb_false_r. reflexivity.
    - rewrite Hforless. destruct (nonempty locals && is_None linkFor && any_for locals);
        reflexivity. }
  rewrite Hrivals, Htesting, Hhd.
  destruct locals as [|r1 [|r2 rest]]; [simpl in Hmany; lia|simpl in Hmany; lia|].
  destruct error; cbn; [reflexivity|now rewrite app_nil_r].
Qed.

End GetRefProperties.

(** ** The properties on the documents of [Scenario] *)

Section Scenarios.
Import ReferenceManager messages Scenario.

(** *** [removeSameSpecRefs] *)

Lemma removeSameSpecRefs_clears_export_witness :
  removeSameSpecRefs (with_foreign, [])
  = (Ret tt,
     (set_foreignRefs with_foreign
        (RefSource.set_refs (foreignRefs with_foreign)
           (map (fun kv => (fst kv, map (clearExport (shortname with_foreign)) (snd kv)))
              (RefSource.refs (foreignRefs with_foreign)))),
      [])).
Proof. apply (proj1 (proj2 (removeSameSpecRefs_clears_export with_foreign []) eq_refl)). Defined.

(** The shortname of a foreign reference ends in a line feed, as the data
    files have it; it is compared without the line feed, and the flag of
    the reference of the document itself is cleared. *)
Example removeSameSpecRefs_on_data :
  RefSource.refs (foreignRefs with_foreign)
  = [("foo", [foreignRef ("css-foo" +:+ nl) "https://example.org/css-foo/#foo" [];
              foreignRef "css-bar" "https://example.org/css-bar/#foo" []])] /\
  RefSource.shortname (foreignRef ("css-foo" +:+ nl) "https://example.org/css-foo/#foo" [])
  <> shortname with_foreign /\
  fst (removeSameSpecRefs (with_foreign, [])) = Ret tt /\
  RefSource.refs (foreignRefs (fst (snd (removeSameSpecRefs (with_foreign, [])))))
  = [("foo", [RefSource.set_export
                (foreignRef ("css-foo" +:+ nl) "https://example.org/css-foo/#foo" []) false;
              foreignRef "css-bar" "https://example.org/css-bar/#foo" []])].
Proof. repeat split. discriminate. Qed.

(** *** [addLocalDfns] *)

Lemma addLocalDfn_descriptor_for_witness :
  In "src" (filedFors "@font-face/src") /\
  addLocalDfn (descriptorDfn "@font-face/src") "auto" (manager0, [])
  = (Ret tt,
     (set_localRefs manager0
        (fileLocalDfn (localRefs manager0) "auto"
           (localRef manager0 "value" "#valdef-src" (filedFors "@font-face/src")
              (descriptorDfn "@font-face/src"))
           (filedFors "@font-face/src")),
      [])).
Proof.
  destruct (addLocalDfn_descriptor_for (descriptorDfn "@font-face/src") "auto" "value"
              "@font-face/src" "valdef-src" "font-face" "src" manager0 [])
    as (_ & Hbare & _ & _ & Hrun); try reflexivity.
  - left. reflexivity.
  - discriminate.
  - split; [exact Hbare|exact Hrun].
Defined.

(** The bare value is filed without white space around it: for the
    for-value made of [@font-face/] and the value [ src], with a space in
    front, the for-list holds [src].  A for-value such as [@foo.bar/baz],
    whose name holds a full stop, is no name with a value, and nothing is
    added for it. *)
Example addLocalDfn_descriptor_for_bare :
  (config.splitForValues "@font-face/ src" = ["@font-face/" +:+ " src"] /\
   fst (addLocalDfn (descriptorDfn "@font-face/ src") "auto" (manager0, [])) = Ret tt /\
   forsFiled "@font-face/ src" = [["@font-face/ src"; "src"]] /\
   ~ In " src" ["@font-face/ src"; "src"]) /\
  (config.splitForValues "@foo.bar/baz" = ["@foo.bar/" +:+ "baz"] /\
   fst (addLocalDfn (descriptorDfn "@foo.bar/baz") "auto" (manager0, [])) = Ret tt /\
   forsFiled "@foo.bar/baz" = [["@foo.bar/baz"]] /\
   ~ In "baz" ["@foo.bar/baz"]).
Proof.
  repeat split.
  - intros [Hin|[Hin|[]]]; discriminate Hin.
  - intros [Hin|[]]; discriminate Hin.
Qed.

(** *** [getRef] *)

Lemma getRef_local_precedence_witness :
  getRef noOtherTiers 0 "dfn" "Foo" None None None None false None true None (mixed_locals, [])
  = (Ret None,
     (mixed_locals,
      [] ++ [(LinkError,
              msg_ambiguous_forless (normalText "dfn" "Foo")
                (forlessMatches mixed_locals "dfn" (normalText "dfn" "Foo") None)
                (localMatches mixed_locals "dfn" (normalText "dfn" "Foo") None None false
                   None))])) /\
  exists r log',
    In r (localMatches twice_local "dfn" (normalText "dfn" "Foo") None None false None) /\
    (forall only,
       localMatches twice_local "dfn" (normalText "dfn" "Foo") None None false None = [only] ->
       r = only /\ log' = []) /\
    getRef noOtherTiers 0 "dfn" "Foo" None None None None false None true None (twice_local, [])
    = (Ret (Some r), (twice_local, log')).
Proof.
  split.
  - apply (getRef_local_precedence noOtherTiers 0 "dfn" "Foo" None None None false None true
             None mixed_locals []); try reflexivity; discriminate.
  - apply (getRef_local_precedence noOtherTiers 0 "dfn" "Foo" None None None false None true
             None twice_local []); try reflexivity; [discriminate|].
    right. left. reflexivity.
Defined.

(** C1, the claim as it stands, fails: the link is for-less, one of its two
    local matches is for-less too, and yet [getRef] returns [None] with the
    error about the ambiguous for-less link instead of a local match.  One
    local match with for-values is enough for the check.  (And a link with
    an unknown status is turned down before the local tier is looked at.) *)
Lemma getRef_local_precedence_counterexample :
  getRef noOtherTiers 0 "dfn" "foo" None (Some "bogus") None None false None true None
    (twice_local, [])
  = (Ret None,
     (twice_local, [(Fatal, "Unknown spec status 'bogus'. Status must be current, snapshot.")])) /\
  map (fun x => RefSource.for_ (RefSource.ref x))
    (localMatches mixed_locals "dfn" "foo" None None false None) = [[]; ["bar"]] /\
  getRef noOtherTiers 0 "dfn" "foo" None None None None false None true None (mixed_locals, [])
  = (Ret None,
     (mixed_locals,
      [(LinkError,
        msg_ambiguous_forless "foo"
          [{| RefSource.text := "foo";
              RefSource.ref := foreignRef "css-bar" "https://example.org/css-bar/#foo" [] |}]
          [{| RefSource.text := "foo"; RefSource.ref := localDfn "#foo" [] |};
           {| RefSource.text := "foo"; RefSource.ref := localDfn "#bar-foo" ["bar"] |}])])).
Proof. repeat split. Qed.

Lemma getRef_testing_smallest_url_witness :
  exists before chosen after,
    localMatches twice_local "dfn" (normalText "dfn" "foo") None None false None
    = before ++ chosen :: after /\
    (forall x, In x before ->
       str_lt (RefSource.url (RefSource.ref chosen)) (RefSource.url (RefSource.ref x)) = true) /\
    (forall x, In x after ->
       str_lt (RefSource.url (RefSource.ref x)) (RefSource.url (RefSource.ref chosen)) = false) /\
    forall rand,
      getRef noOtherTiers rand "dfn" "foo" None None None None false None true None
        (twice_local, [])
      = (Ret (Some chosen),
         (twice_local,
          [] ++ (if true then [(LinkError, msg_multiple_local "dfn" (normalText "dfn" "foo"))]
                 else []))).
Proof.
  apply (getRef_testing_smallest_url noOtherTiers "dfn" "foo" None None None false None true None
           twice_local []); try reflexivity.
  - simpl. lia.
  - right. left. reflexivity.
Defined.

(** C5, the claim as it stands, fails twice: with [error] unset no error is
    written though there are two local matches, and when the check for an
    ambiguous for-less link fires the result is [None], not the match with
    the least URL. *)
Lemma getRef_testing_smallest_url_counterexample :
  (testing twice_local = true /\
   length (localMatches twice_local "dfn" "foo" None None false None) = 2 /\
   getRef noOtherTiers 0 "dfn" "foo" None None None None false None false None (twice_local, [])
   = (Ret (Some {| RefSource.text := "foo"; RefSource.ref := localDfn "#foo-a" [] |}),
      (twice_local, []))) /\
  (testing mixed_locals = true /\
   length (localMatches mixed_locals "dfn" "foo" None None false None) = 2 /\
   fst (getRef noOtherTiers 0 "dfn" "foo" None None None None false None true None
          (mixed_locals, [])) = Ret None).
Proof. repeat split. Qed.

(** *** The bibliography *)

(** A chain of aliases that runs in a circle ends with [None], after the
    fatal messages. *)
Example alias_cycle_returns_none :
  option_map fst (getBiblioRef "a" None false false None false 0 (alias_cycle, []))
  = Some (Ret None).
Proof. vm_compute. reflexivity. Qed.

(** A chain of obsoleted records that runs in a circle ends too: the call
    at depth 101 returns [None], whose [linkText] the call above it reads. *)
Example obsolete_cycle_raises :
  option_map fst (getBiblioRef "a" None false false None false 0 (obsolete_cycle, []))
  = Some (Raise (AttributeError "'NoneType' object has no attribute 'linkText'")).
Proof. vm_compute. reflexivity. Qed.

Lemma getBiblioRef_terminates_witness :
  getBiblioRef "a" None false false None true 101 (alias_cycle, [])
  = Some (Ret None, (alias_cycle, [] ++ [(Fatal, msg_recursing "a")])).
Proof.
  apply (getBiblioRef_terminates "a" None false false None true 101 (alias_cycle, [])).
  lia.
Defined.

(** The failure is reached from the public interface: [foo] is obsoleted by
    [bar], and there is no [bar]. *)
Lemma getBiblioRef_obsolete_null_raises_witness :
  getBiblioRef "foo" None false false None false 0 (dangling, [])
  = Some (Raise (AttributeError "'NoneType' object has no attribute 'linkText'"),
          (dangling_loaded, [])).
Proof.
  apply (getBiblioRef_obsolete_null_raises "foo" None false None 0 (dangling, [])
           (dangling, []) (dangling_loaded, []) [record "foo" "bar"]
           (strip_candidate (record "foo" "bar"))).
  - lia.
  - reflexivity.
  - reflexivity.
  - repeat split.
  - vm_compute. reflexivity.
Defined.

Lemma getBiblioRef_obsolete_witness :
  getBiblioRef "foo" None false true None false 0 (obsoleted, [])
  = Some (Ret (Some (canonicalName obsoleted
                       (biblio.BiblioEntry None (strip_candidate (record "foo" "bar"))))),
          (obsoleted, [])) /\
  getBiblioRef "foo" None false false None false 0 (obsoleted, [])
  = Some (Ret (Some (canonicalName obsoleted
                       (biblio.BiblioEntry None (strip_candidate (record "bar" ""))))),
          (obsoleted,
           [] ++ [(Fatal, msg_obsolete "foo"
                            (biblio.entry_linkText
                               (biblio.BiblioEntry None (strip_candidate (record "bar" "")))))])).
Proof.
  assert (Hobsolete : obsoleteCandidate (strip_candidate (record "foo" "bar")))
    by (repeat split).
  assert (Hbest : _bestCandidateBiblio [record "foo" "bar"]
                  = Ret (strip_candidate (record "foo" "bar"))) by reflexivity.
  assert (Hlookup : forall quiet,
            lookupCandidates "foo" (lower "foo") None false quiet (obsoleted, [])
            = (Ret (Break [record "foo" "bar"]), (obsoleted, []))) by reflexivity.
  split.
  - destruct (getBiblioRef_obsolete "foo" None false true None false 0 (obsoleted, [])
                (obsoleted, []) [record "foo" "bar"] (strip_candidate (record "foo" "bar"))
                (Nat.le_0_l 100) (Hlookup false) Hbest Hobsolete) as [Hallow _].
    exact (Hallow eq_refl).
  - destruct (getBiblioRef_obsolete "foo" None false false None false 0 (obsoleted, [])
                (obsoleted, []) [record "foo" "bar"] (strip_candidate (record "foo" "bar"))
                (Nat.le_0_l 100) (Hlookup false) Hbest Hobsolete) as [_ Hfollow].
    apply (Hfollow eq_refl (biblio.BiblioEntry None (strip_candidate (record "bar" "")))
             (obsoleted, [])).
    vm_compute. reflexivity.
Defined.

(** C3, the claim as it stands, fails: the only message written when [foo]
    resolves to its replacement [bar] is a fatal one, not an advisory. *)
Lemma getBiblioRef_obsolete_counterexample :
  getBiblioRef "foo" None false false None false 0 (obsoleted, [])
  = Some (Ret (Some (biblio.BiblioEntry None (strip_candidate (record "bar" "")))),
          (obsoleted,
           [(Fatal,
             "Obsolete biblio ref: [foo] is replaced by [bar]. Either update the reference, or use [foo obsolete] if this is an intentionally-obsolete reference.")])) /\
  forallb is_fatal
    [(Fatal,
      "Obsolete biblio ref: [foo] is replaced by [bar]. Either update the reference, or use [foo obsolete] if this is an intentionally-obsolete reference.")]
  = true.
Proof. split; vm_compute; reflexivity. Qed.

Lemma getBiblioRef_numeric_suffix_witness :
  (snd (loaded_fo unversioned, [] : Log) = [] /\
   getBiblioRef "foo-1" None false false None false 0 (unversioned, [])
   = resolveCandidates
       (fun target => getBiblioRef target None false false None true (0 + 1))
       "foo-1" None false false
       (default [] (dict_get (biblios (fst (loaded_fo unversioned, [] : Log))) "foo"))
       (loaded_fo unversioned, [])) /\
  getBiblioRef "foo-1" None false false None false 0 (versioned, [])
  = Some (Ret None,
          (loaded_fo versioned, [] ++ [(Fatal, msg_wrong_suffix "foo-1" ["foo-2"])])).
Proof.
  split.
  - apply (getBiblioRef_numeric_suffix "foo-1" "foo" "1" None false false None false 0
             (unversioned, []) (loaded_fo unversioned, [])); try reflexivity;
      try discriminate. lia.
  - apply (getBiblioRef_numeric_suffix "foo-1" "foo" "1" None false false None false 0
             (versioned, []) (loaded_fo versioned, [])); try reflexivity;
      try discriminate. lia.
Defined.

(** What the first half comes to: the entry of [foo] is returned for
    [foo-1], and no message is written. *)
Example unversioned_substituted :
  getBiblioRef "foo-1" None false false None false 0 (unversioned, [])
  = Some (Ret (Some (biblio.BiblioEntry None (strip_candidate (record "foo" "")))),
          (loaded_fo unversioned, [])).
Proof. vm_compute. reflexivity. Qed.

(** C4, the claim as it stands, fails twice: [foo] has the numeric suffix
    [foo-2] and [foo-1] is asked for, but with [quiet] no failure is
    reported, and with [generateFakeRef] the result is not [None] but an
    entry made up from the specification [foo-1]. *)
Lemma getBiblioRef_numeric_suffix_counterexample :
  getBiblioRef "foo-1" None false false None true 0 (versioned, [])
  = Some (Ret None, (loaded_fo versioned, [])) /\
  getBiblioRef "foo-1" None true false None false 0 (versioned, [])
  = Some (Ret (Some (biblio.SpecBasedBiblioEntry [("vshortname", "foo-1")] None)),
          (loaded_fo versioned, [])).
Proof. split; vm_compute; reflexivity. Qed.

(** C7, the claim as it stands, fails: [foo-20200101] is a dated variant of
    [foo], and yet [getLatestBiblioRef] returns [None] for [foo], because
    [foo] itself has no record. *)
Lemma getLatestBiblioRef_counterexample :
  In ("foo-20200101", [record "foo-20200101" ""]) (biblios dated_only) /\
  datedVariant "foo" "foo-20200101" "20200101" /\
  getLatestBiblioRef "foo" (dated_only, []) = (Ret None, (loaded_fo dated_only, [])).
Proof.
  split; [left; reflexivity|]. split; [split|]; vm_compute; reflexivity.
Qed.

(** With a record for [foo], the latest of the dated variants is found. *)
Example latest_of_two :
  fst (getLatestBiblioRef "foo"
         (with_biblios [("foo", [record "foo" ""]);
                        ("foo-20200101", [record "foo-20200101" ""]);
                        ("foo-20210101", [record "foo-20210101" ""])], []))
  = Ret (Some (biblio.BiblioEntry None (strip_candidate (record "foo-20210101" "")))).
Proof. vm_compute. reflexivity. Qed.

End Scenarios.

(** ** The fallback chain of [fetch] *)

Section RetrieveChain.
Import retrieve.
Context `{config.Sig} `{FileSystem}.

(** X1.  [fetch] hands back the text of the first file there is along the
    fallback chain: the file at the path of the requester (the one [path]
    names) if it is there, whatever the requesters behind it hold, and
    otherwise the first file found by the requesters it falls back on, each
    looking at the path of its own type.  When there is none, the call ends
    as [_fail] does for the path of the requester itself, not for a path of
    its fallbacks. *)
Theorem fetch_first_found (self : DataFileRequester) (segs : list string)
    (str okayToFail : bool) (type_kw : option string) :
  fetch self segs str okayToFail type_kw
  = match first_found self segs type_kw with
    | Some content => Ret (fetched str content)
    | None => _fail (path self segs type_kw) str okayToFail
    end.
Proof.
  revert type_kw.
  induction self as [t | t fb IH] using requester_chain_ind; intros type_kw;
    cbn [fetch first_found]; unfold open, path;
    destruct (files (_buildPath _ segs (Some _))); try (destruct str; reflexivity).
  rewrite (IH None).
  destruct (first_found fb segs None); [reflexivity|].
  unfold _fail. destruct okayToFail; [destruct str|]; reflexivity.
Qed.

End RetrieveChain.

(** ** [removeSameSpecRefs], run again *)

Section RemoveSameSpecRefsAgain.
Import ReferenceManager.

Lemma removeSameSpecRefs_refs_again (sn : option string) (refs : list RefSource.Ref) :
  removeSameSpecRefs_refs sn (snd (removeSameSpecRefs_refs sn refs))
  = removeSameSpecRefs_refs sn refs.
Proof.
  induction refs as [|r refs IH]; [reflexivity|].
  cbn [removeSameSpecRefs_refs].
  destruct (String.eqb (RefSource.status r) "local") eqn:Hst; cbn [negb].
  - destruct (removeSameSpecRefs_refs sn refs) as [res out] eqn:Hrec.
    cbn [snd removeSameSpecRefs_refs] in *. rewrite Hst. cbn [negb]. rewrite IH. reflexivity.
  - destruct (RefSource.shortname r) as [s|] eqn:Hsn.
    + destruct (removeSameSpecRefs_refs sn refs) as [res out] eqn:Hrec.
      cbn [snd removeSameSpecRefs_refs] in *.
      destruct sn as [mine|]; [destruct (String.eqb (rstrip s) mine) eqn:Hmine|];
        cbn [RefSource.set_export RefSource.status RefSource.shortname];
        rewrite ?Hst, ?Hsn; cbn [negb]; rewrite ?Hmine, IH; reflexivity.
    + cbn [snd removeSameSpecRefs_refs]. rewrite Hst, Hsn. reflexivity.
Qed.

Lemma removeSameSpecRefs_items_again (sn : option string)
    (items : Py.Dict (list RefSource.Ref)) :
  removeSameSpecRefs_items sn (snd (removeSameSpecRefs_items sn items))
  = removeSameSpecRefs_items sn items.
Proof.
  induction items as [|[k refs] items IH]; [reflexivity|].
  cbn [removeSameSpecRefs_items].
  pose proof (removeSameSpecRefs_refs_again sn refs) as Hrefs.
  destruct (removeSameSpecRefs_refs sn refs) as [[[]|e] refs'] eqn:Hrec; cbn [snd] in Hrefs.
  - destruct (removeSameSpecRefs_items sn items) as [res out] eqn:Hitems.
    cbn [snd removeSameSpecRefs_items] in *. rewrite Hrefs, IH. reflexivity.
  - cbn [snd removeSameSpecRefs_items]. rewrite Hrefs. reflexivity.
Qed.

(** X2.  [removeSameSpecRefs] is idempotent: run on the state a first run
    has left, it ends as the first run did and leaves that state as it is.
    This holds also for a run that raises at a reference without a
    shortname. *)
Theorem removeSameSpecRefs_idempotent (st : State) :
  removeSameSpecRefs (snd (removeSameSpecRefs st)) = removeSameSpecRefs st.
Proof.
  destruct st as [self log]. unfold removeSameSpecRefs. cbn [fst snd].
  pose proof (removeSameSpecRefs_items_again (shortname self)
                (RefSource.refs (foreignRefs self))) as Hagain.
  destruct (removeSameSpecRefs_items (shortname self) (RefSource.refs (foreignRefs self)))
    as [res refs'] eqn:Hrun.
  cbn [fst snd set_foreignRefs shortname foreignRefs RefSource.set_refs RefSource.refs] in *.
  rewrite Hagain. reflexivity.
Qed.

End RemoveSameSpecRefsAgain.

(** ** [setSpecData] *)

Section SetSpecData.
Import ReferenceManager.
Context `{extern.Sig}.

Lemma removeSameSpecRefs_refs_readable (sn : option string) (refs : list RefSource.Ref) :
  raises (fst (removeSameSpecRefs_refs sn refs)) = false ->
  forallb shortnameReadable refs = true.
Proof.
  induction refs as [|r refs IH]; [reflexivity|].
  cbn [removeSameSpecRefs_refs forallb]. unfold shortnameReadable at 1.
  destruct (String.eqb (RefSource.status r) "local"); cbn [negb orb].
  - destruct (removeSameSpecRefs_refs sn refs) as [res out']. exact IH.
  - destruct (RefSource.shortname r); [|discriminate].
    destruct (removeSameSpecRefs_refs sn refs) as [res out']. exact IH.
Qed.

Lemma removeSameSpecRefs_items_readable (sn : option string)
    (items : Py.Dict (list RefSource.Ref)) :
  raises (fst (removeSameSpecRefs_items sn items)) = false ->
  forallb (fun kv => forallb shortnameReadable (snd kv)) items = true.
Proof.
  induction items as [|[k refs] items IH]; [reflexivity|].
  cbn [removeSameSpecRefs_items forallb snd].
  pose proof (removeSameSpecRefs_refs_readable sn refs) as Hrefs.
  destruct (removeSameSpecRefs_refs sn refs) as [[v|e] refs']; [|discriminate].
  rewrite (Hrefs eq_refl).
  destruct (removeSameSpecRefs_items sn items) as [res out']. exact IH.
Qed.

Lemma sameSpecRef_clearExport (sn : option string) (r : RefSource.Ref) :
  sameSpecRef sn (clearExport sn r) = sameSpecRef sn r.
Proof. unfold clearExport. destruct (sameSpecRef sn r) eqn:Hr; [|exact Hr]. exact Hr. Qed.

(** X3.  When [setSpecData] returns, the reference manager has the
    shortname, the level and the versioned shortname of the metadata, the
    log is as it was, and no foreign reference that is not local and whose
    shortname, without the white space at its end, is the new shortname of
    the document is still marked for export: the references of an earlier
    copy of the document itself are out of the way of the links. *)
Theorem setSpecData_hides_same_spec (md : Metadata) (st st' : State) :
  setSpecData md st = (Ret tt, st') ->
  shortname (fst st') = md_shortname md /\
  specLevel (fst st') = md_level md /\
  spec (fst st') = md_vshortname md /\
  snd st' = snd st /\
  forall k refs r,
    In (k, refs) (RefSource.refs (foreignRefs (fst st'))) -> In r refs ->
    sameSpecRef (md_shortname md) r = true -> RefSource.export r = false.
Proof.
  destruct st as [self log].
  unfold setSpecData, mbind, M_bind, bind, modify, removeSameSpecRefs.
  cbn [fst snd set_specData shortname foreignRefs].
  destruct (removeSameSpecRefs_items (md_shortname md) (RefSource.refs (foreignRefs self)))
    as [res out] eqn:Hrun.
  intros [= -> <-]. cbn [fst snd set_foreignRefs set_specData shortname specLevel spec
                           foreignRefs RefSource.set_refs RefSource.refs].
  repeat split.
  intros k refs r Hk Hr Hsame.
  assert (Hok := removeSameSpecRefs_items_readable (md_shortname md)
                  (RefSource.refs (foreignRefs self))).
  rewrite Hrun in Hok. specialize (Hok eq_refl).
  rewrite (removeSameSpecRefs_items_ok _ _ Hok) in Hrun. injection Hrun as <-.
  apply in_map_iff in Hk as ([k0 refs0] & [= <- <-] & _).
  apply in_map_iff in Hr as (r0 & <- & _).
  rewrite sameSpecRef_clearExport in Hsame.
  rewrite (proj2 (clearExport_frame _ r0)), Hsame. apply andb_false_r.
Qed.

Lemma dict_get_extend {V} (term k : string) (xs : list V) :
  forall d : Py.Dict (list V),
    default [] (dict_get (fold_left (fun d x => dict_append d k x) xs d) term)
    = default [] (dict_get d term) ++ (if String.eqb k term then xs else []).
Proof.
  induction xs as [|x xs IH]; intros d; cbn [fold_left].
  - destruct (String.eqb k term); now rewrite app_nil_r.
  - rewrite IH, dict_get_append.
    destruct (String.eqb k term); cbn [default]; [|reflexivity].
    unfold Datatypes.id. now rewrite <- app_assoc.
Qed.

Lemma addLinkDefaults_get (term : string) (linkDefaults : Py.Dict (list LinkDefault)) :
  forall d,
    default [] (dict_get (addLinkDefaults d linkDefaults) term)
    = default [] (dict_get d term) ++ defaultsFor term linkDefaults.
Proof.
  unfold addLinkDefaults, defaultsFor.
  induction linkDefaults as [|[k defaults] lds IH]; intros d; cbn [fold_left flat_map].
  - now rewrite app_nil_r.
  - rewrite IH, dict_get_extend, <- app_assoc. reflexivity.
Qed.

(** X4.  [setSpecData] only adds to the link defaults: behind it, whether
    it returns or raises, the defaults filed under a term are those that
    were filed before, in their order, followed by those that the metadata
    hold for the term, in theirs. *)
Theorem setSpecData_appends_defaults (md : Metadata) (st : State) (term : string) :
  default [] (dict_get (defaultSpecs (fst (snd (setSpecData md st)))) term)
  = default [] (dict_get (defaultSpecs (fst st)) term) ++
    defaultsFor term (md_linkDefaults md).
Proof.
  destruct st as [self log].
  unfold setSpecData, mbind, M_bind, bind, modify, removeSameSpecRefs.
  cbn [fst snd set_specData shortname foreignRefs].
  destruct (removeSameSpecRefs_items (md_shortname md) (RefSource.refs (foreignRefs self)))
    as [res out].
  cbn [fst snd set_foreignRefs set_specData defaultSpecs].
  apply addLinkDefaults_get.
Qed.

End SetSpecData.

(** ** [bibliosFromKey], [fetchHeadings] and [vNamesFromSpecNames] *)

Section Loading.
Import ReferenceManager messages.
Context `{config.Sig} `{retrieve.FileSystem} `{biblio.Sig} `{utils.Sig} `{extern.Sig}.

(** X5.  [bibliosFromKey] is idempotent: a second call for the same key
    returns the records that the first call returned and leaves the state
    as the first call left it. *)
Theorem bibliosFromKey_idempotent (key : string) (st : State) :
  bibliosFromKey key (snd (bibliosFromKey key st)) = bibliosFromKey key st.
Proof.
  unfold bibliosFromKey, mbind, M_bind, bind, get_self, when, lift, modify, mret, M_ret, ret.
  destruct st as [self log]. cbn [fst snd].
  destruct (dict_mem (biblios self) key) eqn:Hmem; cbn [negb fst snd].
  { rewrite Hmem. reflexivity. }
  assert (Hunion : forall g (s : gset string), {[g]} ∪ ({[g]} ∪ s) = {[g]} ∪ s).
  { intros g s. apply set_eq. intros x. rewrite !elem_of_union. tauto. }
  assert (Hin : forall g (s : gset string), g ∈ {[g]} ∪ s).
  { intros g s. apply elem_of_union_l, elem_of_singleton. reflexivity. }
  destruct (bool_decide (first_two key ∈ loadedBiblioGroups self)) eqn:Hgroup;
    cbn [negb fst snd set_loadedBiblioGroups biblios loadedBiblioGroups].
  { rewrite Hmem. cbn [negb fst snd].
    rewrite bool_decide_eq_true_2 by apply Hin.
    cbn [negb fst snd set_loadedBiblioGroups biblios loadedBiblioGroups].
    rewrite Hunion. reflexivity. }
  pose proof (fetch_okayToFail_returns (dataFile self)
                ["biblio"; "biblio-" +:+ first_two key +:+ ".data"] false None) as Hret.
  destruct (retrieve.fetch _ _ false true None) as [lines|e]; [|discriminate Hret].
  cbn [fst snd set_loadedBiblioGroups set_biblios biblios loadedBiblioGroups dataFile].
  destruct (dict_mem (biblio.loadBiblioDataFile _ (biblios self)) key) eqn:Hmem';
    cbn [negb fst snd]; [reflexivity|].
  rewrite bool_decide_eq_true_2 by apply Hin.
  cbn [negb fst snd set_loadedBiblioGroups biblios loadedBiblioGroups].
  rewrite Hunion. reflexivity.
Qed.


Lemma startswith_drop (s p : string) :
  startswith s p = true <-> s = p +:+ string_drop (String.length p) s.
Proof.
  unfold startswith. revert s. induction p as [|c p IH]; intros s.
  - destruct s; simpl; intuition.
  - destruct s as [|d s]; cbn [String.prefix String.length string_drop String.append].
    + split; discriminate.
    + destruct (Ascii.ascii_dec c d) as [->|Hne].
      * rewrite IH.
        change (String d p +:+ string_drop (String.length p) s)
          with (String d (p +:+ string_drop (String.length p) s)).
        split; [intros Hs; f_equal; exact Hs|intros [= Heq]; exact Heq].
      * change (String c p +:+ string_drop (String.length p) s)
          with (String c (p +:+ string_drop (String.length p) s)).
        split; [discriminate|intros [= Heq]; congruence].
Qed.

Lemma string_drop_app (p rest : string) : string_drop (String.length p) (p +:+ rest) = rest.
Proof. induction p as [|c p IH]; [reflexivity|exact IH]. Qed.

(** X8.  [vNamesFromSpecNames] returns the names of the specifications
    known that are made of the given name and a rest which starts with a
    digit, or with a hyphen and a digit; it returns no other name, and so
    never the unversioned name itself. *)
Theorem vNamesFromSpecNames_spec (self : t) (specName vSpecName : string) :
  In vSpecName (vNamesFromSpecNames self specName) <->
  is_Some (specs self !! vSpecName) /\
  exists rest, vSpecName = specName +:+ rest /\ match_version rest = true.
Proof.
  unfold vNamesFromSpecNames. rewrite filter_In, in_map_iff, andb_true_iff. split.
  - intros [([k v] & <- & Hin%list_elem_of_In%elem_of_map_to_list) [Hpre Hver]].
    cbn [fst] in *. split; [eauto|].
    exists (string_drop (String.length specName) k). split; [|exact Hver].
    now apply startswith_drop.
  - intros [[v Hv] (rest & -> & Hver)]. split.
    + exists (specName +:+ rest, v). split; [reflexivity|].
      now apply list_elem_of_In, elem_of_map_to_list.
    + rewrite string_drop_app. split; [|exact Hver].
      apply startswith_drop. now rewrite string_drop_app.
Qed.

End Loading.

(** ** What a lookup in the bibliography changes *)

Section BiblioFrame.
Import ReferenceManager messages.
Context `{config.Sig} `{retrieve.FileSystem} `{biblio.Sig} `{utils.Sig}.

Lemma sameButBiblios_refl (a : t) : sameButBiblios a a.
Proof. destruct a. reflexivity. Qed.

Lemma sameButBiblios_trans (a b c : t) :
  sameButBiblios a b -> sameButBiblios b c -> sameButBiblios a c.
Proof. unfold sameButBiblios. intros -> ->. reflexivity. Qed.

Lemma biblioStep_refl (st : State) : biblioStep st st.
Proof.
  split; [apply sameButBiblios_refl|]. split; [reflexivity|].
  exists []. now rewrite app_nil_r.
Qed.

Lemma biblioStep_trans (a b c : State) : biblioStep a b -> biblioStep b c -> biblioStep a c.
Proof.
  intros (Hs1 & Hg1 & m1 & Hl1 & Hf1) (Hs2 & Hg2 & m2 & Hl2 & Hf2).
  split; [eapply sameButBiblios_trans; eauto|]. split; [etransitivity; eauto|].
  exists (m1 ++ m2). rewrite Hl2, Hl1, <- app_assoc. split; [reflexivity|].
  rewrite forallb_app, Hf1, Hf2. reflexivity.
Qed.

Lemma biblioStep_die (msg : string) (st : State) : biblioStep st (snd (ReferenceManager.die msg st)).
Proof.
  split; [apply sameButBiblios_refl|]. split; [reflexivity|].
  exists [(Fatal, msg)]. split; reflexivity.
Qed.

(** [bibliosFromKey] changes nothing but the bibliography records and the
    set of loaded groups, which does not shrink, and it writes no message. *)
Lemma bibliosFromKey_effect (key : string) (st : State) :
  sameButBiblios (fst st) (fst (snd (bibliosFromKey key st))) /\
  snd (snd (bibliosFromKey key st)) = snd st /\
  loadedBiblioGroups (fst st) ⊆ loadedBiblioGroups (fst (snd (bibliosFromKey key st))).
Proof.
  unfold bibliosFromKey, mbind, M_bind, bind, get_self, when, lift, modify, mret, M_ret, ret,
    sameButBiblios.
  destruct st as [self log]. cbn [fst snd].
  destruct (dict_mem (biblios self) key) eqn:Hmem; cbn [negb fst snd].
  { split; [destruct self; reflexivity|]. split; reflexivity. }
  destruct (bool_decide (first_two key ∈ loadedBiblioGroups self)) eqn:Hgroup;
    cbn [negb fst snd set_loadedBiblioGroups biblios loadedBiblioGroups].
  { split; [destruct self; reflexivity|]. split; [reflexivity|apply union_subseteq_r]. }
  pose proof (fetch_okayToFail_returns (dataFile self)
                ["biblio"; "biblio-" +:+ first_two key +:+ ".data"] false None) as Hret.
  destruct (retrieve.fetch _ _ false true None) as [lines|e]; [|discriminate Hret].
  cbn [fst snd set_loadedBiblioGroups set_biblios biblios loadedBiblioGroups].
  split; [destruct self; reflexivity|]. split; [reflexivity|apply union_subseteq_r].
Qed.

Lemma bibliosFromKey_step (key : string) (st : State) :
  biblioStep st (snd (bibliosFromKey key st)).
Proof.
  destruct (bibliosFromKey_effect key st) as (Hs & Hl & Hg).
  split; [exact Hs|]. split; [exact Hg|]. exists []. now rewrite Hl, app_nil_r.
Qed.

Lemma lookupFailed_step (text key : string) (status : option string)
    (generateFakeRef quiet : bool) (wrong : option (list string)) (st : State) :
  biblioStep st (snd (lookupFailed text key status generateFakeRef quiet wrong st)).
Proof.
  unfold lookupFailed, mbind, M_bind, bind, get_self. cbn [fst snd].
  destruct (if generateFakeRef then specs (fst st) !! key else None);
    [apply biblioStep_refl|].
  destruct wrong as [ns|]; [destruct quiet|]; cbn [when negb];
    try apply biblioStep_refl.
  apply (biblioStep_die (msg_wrong_suffix text ns) st).
Qed.

Lemma lookupCandidates_step (text key : string) (status : option string)
    (generateFakeRef quiet : bool) (st : State) :
  biblioStep st (snd (lookupCandidates text key status generateFakeRef quiet st)).
Proof.
  unfold lookupCandidates, mbind, M_bind, bind.
  pose proof (bibliosFromKey_step key st) as Hstep.
  destruct (bibliosFromKey_returns key st) as (cands & st0 & Heq & _ & _).
  rewrite Heq in *. cbn [snd] in Hstep.
  destruct (nonempty cands); [exact Hstep|].
  unfold get_self. cbn [fst snd].
  assert (Hfailed : forall wrong,
            biblioStep st (snd (lookupFailed text key status generateFakeRef quiet wrong st0)))
    by (intros wrong; eapply biblioStep_trans; [exact Hstep|apply lookupFailed_step]).
  destruct (match_numeric_suffix key) as [g|]; [|apply Hfailed].
  destruct (dict_mem (biblios (fst st0)) g); [|apply Hfailed].
  destruct (biblioNumericSuffixes (fst st0) !! g); [apply Hfailed|exact Hstep].
Qed.

Lemma resolveCandidates_step
    (recur : string -> State -> option (Res (option biblio.Entry) * State))
    (text : string) (status : option string) (allowObsolete quiet : bool)
    (candidates : list biblio.Candidate) (st1 : State) r st' :
  (forall target s x s', recur target s = Some (x, s') -> biblioStep s s') ->
  resolveCandidates recur text status allowObsolete quiet candidates st1 = Some (r, st') ->
  biblioStep st1 st'.
Proof.
  intros Hrecur. unfold resolveCandidates.
  destruct (_bestCandidateBiblio candidates) as [candidate|e];
    [|intros [= _ <-]; apply biblioStep_refl].
  destruct (String.eqb (biblio.biblioFormat candidate) "string");
    [rewrite useCanonicalName_some; intros [= _ <-]; apply biblioStep_refl|].
  destruct (String.eqb (biblio.biblioFormat candidate) "alias").
  - destruct (biblio.aliasOf candidate) as [target|];
      [|intros [= _ <-]; apply biblioStep_refl].
    destruct (recur target st1) as [[[[bib|]|e] st2]|] eqn:Hrec; [| | |discriminate].
    + rewrite useCanonicalName_some. intros [= _ <-]. eapply Hrecur, Hrec.
    + intros [= _ <-]. eapply biblioStep_trans; [eapply Hrecur, Hrec|].
      apply (biblioStep_die (msg_alias text target) st2).
    + intros [= _ <-]. eapply Hrecur, Hrec.
  - destruct (truthy _);
      [|rewrite useCanonicalName_some; intros [= _ <-]; apply biblioStep_refl].
    destruct allowObsolete;
      [rewrite useCanonicalName_some; intros [= _ <-]; apply biblioStep_refl|].
    destruct (recur (default "" (biblio.obsoletedBy candidate)) st1)
      as [[[bib|e] st2]|] eqn:Hrec; [| |discriminate].
    + pose proof (Hrecur _ _ _ _ Hrec) as Hstep.
      destruct quiet; cbn [when negb]; unfold mbind, M_bind, bind; cbn [ret].
      * destruct bib as [b|]; intros [= _ <-]; exact Hstep.
      * destruct bib as [b|]; intros [= _ <-]; [|exact Hstep].
        eapply biblioStep_trans; [exact Hstep|].
        apply (biblioStep_die (msg_obsolete (biblio.linkText candidate)
                                 (biblio.entry_linkText b)) st2).
    + intros [= _ <-]. eapply Hrecur, Hrec.
Qed.

Lemma getBiblioRef_fuel_step (fuel : nat) :
  forall text status generateFakeRef allowObsolete el quiet depth st r st',
    getBiblioRef_fuel fuel text status generateFakeRef allowObsolete el quiet depth st
    = Some (r, st') ->
    biblioStep st st'.
Proof.
  induction fuel as [|fuel IH]; intros text status g a el q depth st r st'; [discriminate|].
  cbn [getBiblioRef_fuel].
  destruct (100 <? depth)%nat.
  - intros [= _ <-]. apply (biblioStep_die (msg_recursing text) st).
  - pose proof (lookupCandidates_step text (lower text) status g q st) as Hstep.
    destruct (lookupCandidates text (lower text) status g q st) as [[[cands|value]|e] st1];
      cbn [snd] in Hstep; try (intros [= _ <-]; exact Hstep).
    intros Hres. eapply biblioStep_trans; [exact Hstep|].
    eapply resolveCandidates_step; [|exact Hres].
    intros target s x s' Hrec. eapply IH, Hrec.
Qed.

(** X9.  Whatever [getBiblioRef] returns or raises, it has changed nothing
    of the reference manager but the bibliography records and the set of
    loaded groups, of which it has dropped none, and what it has written
    stands behind the messages that were in the log and is fatal: the
    method writes neither link errors nor warnings. *)
Theorem getBiblioRef_frame (text : string) (status : option string)
    (generateFakeRef allowObsolete : bool) (el : option h.Element) (quiet : bool)
    (depth : nat) (st st' : State) (r : Res (option biblio.Entry)) :
  getBiblioRef text status generateFakeRef allowObsolete el quiet depth st = Some (r, st') ->
  sameButBiblios (fst st) (fst st') /\
  loadedBiblioGroups (fst st) ⊆ loadedBiblioGroups (fst st') /\
  exists msgs, snd st' = snd st ++ msgs /\ forallb is_fatal msgs = true.
Proof. apply getBiblioRef_fuel_step. Qed.

(** X6.  [bibliosFromKey] changes nothing but the bibliography records and
    the set of loaded groups, writes no message, and forgets no loaded
    group.  A data file is read once at most for a group: when the key has
    records already, or its group counts as loaded, the records stay as they
    are, whatever the files hold. *)
Theorem bibliosFromKey_frame (key : string) (st : State) :
  sameButBiblios (fst st) (fst (snd (bibliosFromKey key st))) /\
  snd (snd (bibliosFromKey key st)) = snd st /\
  loadedBiblioGroups (fst st) ⊆ loadedBiblioGroups (fst (snd (bibliosFromKey key st))) /\
  (dict_mem (biblios (fst st)) key = true \/ first_two key ∈ loadedBiblioGroups (fst st) ->
   biblios (fst (snd (bibliosFromKey key st))) = biblios (fst st)).
Proof.
  destruct (bibliosFromKey_effect key st) as (Hs & Hl & Hg).
  repeat (split; [assumption|]).
  unfold bibliosFromKey, mbind, M_bind, bind, get_self, when, lift, modify, mret, M_ret, ret.
  destruct st as [self log]. cbn [fst snd].
  destruct (dict_mem (biblios self) key) eqn:Hmem; cbn [negb fst snd]; [reflexivity|].
  destruct (bool_decide (first_two key ∈ loadedBiblioGroups self)) eqn:Hgroup;
    cbn [negb fst snd set_loadedBiblioGroups biblios]; [reflexivity|].
  apply bool_decide_eq_false in Hgroup.
  intros [Hin|Hin]; [discriminate|contradiction].
Qed.

(** *** Keys without records *)

(** X10.  A reference that the bibliography does not know is no error of
    [getBiblioRef].  When, once the group of the key is loaded, there are no
    records for the key and none for the key without its numeric suffix, the
    method writes no message and returns [None]; or, if a made-up reference
    is asked for and the key names a known specification, the entry made
    from the data of that specification, with the status as its preferred
    URL and without a canonical name being looked up. *)
Theorem getBiblioRef_unknown (text : string) (status : option string)
    (generateFakeRef allowObsolete : bool) (el : option h.Element) (quiet : bool)
    (depth : nat) (st : State) :
  depth <= 100 ->
  default [] (dict_get (biblios (fst (snd (bibliosFromKey (lower text) st)))) (lower text))
  = [] ->
  match match_numeric_suffix (lower text) with
  | Some unversionedKey =>
      dict_mem (biblios (fst (snd (bibliosFromKey (lower text) st)))) unversionedKey = false
  | None => True
  end ->
  getBiblioRef text status generateFakeRef allowObsolete el quiet depth st
  = Some (Ret (if generateFakeRef
               then option_map (fun spec => biblio.SpecBasedBiblioEntry spec status)
                      (specs (fst st) !! lower text)
               else None),
          snd (bibliosFromKey (lower text) st)).
Proof.
  intros Hdepth Hnone Hunversioned.
  unfold getBiblioRef. cbn [getBiblioRef_fuel].
  rewrite (proj2 (Nat.ltb_ge 100 depth)) by lia.
  assert (Hspecs : specs (fst (snd (bibliosFromKey (lower text) st))) = specs (fst st)).
  { destruct (bibliosFromKey_effect (lower text) st) as (Hs & _ & _).
    unfold sameButBiblios in Hs. rewrite Hs. reflexivity. }
  unfold lookupCandidates, mbind, M_bind, bind.
  destruct (bibliosFromKey_returns (lower text) st) as (cands & st0 & Heq & _ & ->).
  rewrite Heq in *. cbn [snd] in *. rewrite Hnone. cbn [nonempty].
  unfold get_self. cbn [fst snd].
  assert (Hfailed :
            lookupFailed text (lower text) status generateFakeRef quiet None st0
            = (Ret (Return (if generateFakeRef
                            then option_map (fun spec => biblio.SpecBasedBiblioEntry spec status)
                                   (specs (fst st) !! lower text)
                            else None)), st0)).
  { unfold lookupFailed, mbind, M_bind, bind, get_self. cbn [fst snd]. rewrite Hspecs.
    destruct generateFakeRef; [|reflexivity].
    destruct (specs (fst st) !! lower text); reflexivity. }
  destruct (match_numeric_suffix (lower text)) as [g|]; [rewrite Hunversioned|];
    rewrite Hfailed; reflexivity.
Qed.

End BiblioFrame.

(** ** The letters and the flags that a lookup does not look at *)

Section BiblioIndependence.
Import ReferenceManager messages.
Context `{config.Sig} `{retrieve.FileSystem} `{biblio.Sig} `{utils.Sig}.

(** What [bibliosFromKey] returns and does to the reference manager does
    not depend on the log. *)
Lemma bibliosFromKey_log (key : string) (self : t) (log1 log2 : Log) :
  exists candidates self',
    bibliosFromKey key (self, log1) = (Ret candidates, (self', log1)) /\
    bibliosFromKey key (self, log2) = (Ret candidates, (self', log2)).
Proof.
  unfold bibliosFromKey, mbind, M_bind, bind, get_self, when, lift, modify, mret, M_ret, ret.
  cbn [fst snd].
  destruct (dict_mem (biblios self) key); cbn [negb fst snd]; [eauto|].
  destruct (bool_decide (first_two key ∈ loadedBiblioGroups self)); cbn [negb fst snd];
    [eauto|].
  pose proof (fetch_okayToFail_returns (dataFile self)
                ["biblio"; "biblio-" +:+ first_two key +:+ ".data"] false None) as Hret.
  destruct (retrieve.fetch _ _ false true None) as [lines|e]; [|discriminate Hret].
  cbn [fst snd]. eauto.
Qed.

Lemma lookupFailed_sameButLog (text1 text2 key : string) (status : option string)
    (generateFakeRef quiet : bool) (wrong : option (list string)) (self : t)
    (log1 log2 : Log) :
  exists r log1' log2',
    lookupFailed text1 key status generateFakeRef quiet wrong (self, log1)
    = (Ret (Return r), (self, log1')) /\
    lookupFailed text2 key status generateFakeRef quiet wrong (self, log2)
    = (Ret (Return r), (self, log2')).
Proof.
  unfold lookupFailed, mbind, M_bind, bind, get_self. cbn [fst snd].
  destruct (if generateFakeRef then specs self !! key else None); [cbn; eauto|].
  destruct wrong as [ns|]; [destruct quiet|]; cbn; eauto.
Qed.

Lemma lookupCandidates_sameButLog (text1 text2 key : string) (status : option string)
    (generateFakeRef quiet : bool) (self : t) (log1 log2 : Log) :
  exists r self' log1' log2',
    lookupCandidates text1 key status generateFakeRef quiet (self, log1)
    = (Ret r, (self', log1')) /\
    lookupCandidates text2 key status generateFakeRef quiet (self, log2)
    = (Ret r, (self', log2')).
Proof.
  unfold lookupCandidates, mbind, M_bind, bind.
  destruct (bibliosFromKey_log key self log1 log2) as (cands & self' & -> & ->).
  destruct (nonempty cands); [cbn; eauto 6|].
  unfold get_self. cbn [fst snd].
  assert (Hfailed : forall wrong,
    exists r self'' log1' log2',
      lookupFailed text1 key status generateFakeRef quiet wrong (self', log1)
      = (Ret r, (self'', log1')) /\
      lookupFailed text2 key status generateFakeRef quiet wrong (self', log2)
      = (Ret r, (self'', log2'))).
  { intros wrong.
    destruct (lookupFailed_sameButLog text1 text2 key status generateFakeRef quiet wrong
                self' log1 log2) as (r & l1 & l2 & -> & ->). eauto 6. }
  destruct (match_numeric_suffix key) as [g|]; [|apply Hfailed].
  destruct (dict_mem (biblios self') g); [|apply Hfailed].
  destruct (biblioNumericSuffixes self' !! g); [apply Hfailed|cbn; eauto 6].
Qed.

Local Ltac same_but_log :=
  rewrite ?useCanonicalName_some;
  unfold sameButLog, useCanonicalName, when, mbind, M_bind, bind, mret, M_ret, ret,
    get_self, ReferenceManager.die, raise;
  cbn [fst snd negb]; auto.

Lemma resolveCandidates_sameButLog
    (recur1 recur2 : string -> State -> option (Res (option biblio.Entry) * State))
    (text1 text2 : string) (status : option string) (allowObsolete quiet : bool)
    (candidates : list biblio.Candidate) (self : t) (log1 log2 : Log) :
  (forall target self log1 log2,
     sameButLog (recur1 target (self, log1)) (recur2 target (self, log2))) ->
  sameButLog
    (resolveCandidates recur1 text1 status allowObsolete quiet candidates (self, log1))
    (resolveCandidates recur2 text2 status allowObsolete quiet candidates (self, log2)).
Proof.
  intros Hrecur. unfold resolveCandidates.
  destruct (_bestCandidateBiblio candidates) as [candidate|e]; [|same_but_log].
  destruct (String.eqb (biblio.biblioFormat candidate) "string"); [same_but_log|].
  destruct (String.eqb (biblio.biblioFormat candidate) "alias").
  - destruct (biblio.aliasOf candidate) as [target|]; [|same_but_log].
    specialize (Hrecur target self log1 log2).
    destruct (recur1 target (self, log1)) as [[r1 [s1 l1]]|],
             (recur2 target (self, log2)) as [[r2 [s2 l2]]|]; cbn in Hrecur; try tauto.
    destruct Hrecur as [<- <-]. destruct r1 as [[bib|]|e]; same_but_log.
  - destruct (truthy _); [|same_but_log].
    destruct allowObsolete; [same_but_log|].
    specialize (Hrecur (default "" (biblio.obsoletedBy candidate)) self log1 log2).
    destruct (recur1 _ (self, log1)) as [[r1 [s1 l1]]|],
             (recur2 _ (self, log2)) as [[r2 [s2 l2]]|]; cbn in Hrecur; try tauto.
    destruct Hrecur as [<- <-]. destruct r1 as [[bib|]|e], quiet; same_but_log.
Qed.

Lemma getBiblioRef_fuel_sameButLog (fuel : nat) :
  forall text1 text2 status generateFakeRef allowObsolete el quiet depth self log1 log2,
    lower text1 = lower text2 ->
    sameButLog
      (getBiblioRef_fuel fuel text1 status generateFakeRef allowObsolete el quiet depth
         (self, log1))
      (getBiblioRef_fuel fuel text2 status generateFakeRef allowObsolete el quiet depth
         (self, log2)).
Proof.
  induction fuel as [|fuel IH];
    intros text1 text2 status g a el q depth self log1 log2 Hlower; [exact I|].
  cbn [getBiblioRef_fuel]. rewrite <- Hlower.
  destruct (100 <? depth)%nat; [same_but_log|].
  destruct (lookupCandidates_sameButLog text1 text2 (lower text1) status g q self log1 log2)
    as (r & self' & l1 & l2 & -> & ->).
  destruct r as [cands|value]; [|same_but_log].
  apply resolveCandidates_sameButLog.
  intros target s l1' l2'. apply IH. reflexivity.
Qed.

(** X11.  [getBiblioRef] takes no notice of the case of the letters of a
    name: for two names with the same lower-case form it returns or raises
    the same and leaves the reference manager in the same state.  (The
    messages quote the name as it was given.) *)
Theorem getBiblioRef_case_insensitive (text1 text2 : string) (status : option string)
    (generateFakeRef allowObsolete : bool) (el : option h.Element) (quiet : bool)
    (depth : nat) (self : t) (log : Log) :
  lower text1 = lower text2 ->
  exists r self' log1 log2,
    getBiblioRef text1 status generateFakeRef allowObsolete el quiet depth (self, log)
    = Some (r, (self', log1)) /\
    getBiblioRef text2 status generateFakeRef allowObsolete el quiet depth (self, log)
    = Some (r, (self', log2)).
Proof.
  intros Hlower. unfold getBiblioRef.
  pose proof (getBiblioRef_fuel_sameButLog (S (101 - depth)) text1 text2 status
                generateFakeRef allowObsolete el quiet depth self log log Hlower) as Hsame.
  destruct (getBiblioRef_fuel_total (S (101 - depth)) text1 status generateFakeRef
              allowObsolete el quiet depth (self, log)) as (r1 & [s1 l1] & Heq1); [lia|].
  destruct (getBiblioRef_fuel_total (S (101 - depth)) text2 status generateFakeRef
              allowObsolete el quiet depth (self, log)) as (r2 & [s2 l2] & Heq2); [lia|].
  rewrite Heq1, Heq2 in *. cbn in Hsame. destruct Hsame as [<- <-]. eauto 6.
Qed.

(** Leaving the loop by [break] does not depend on [generateFakeRef] and
    [quiet]. *)
Lemma lookupCandidates_break_flags (text key : string) (status : option string)
    (g q g' q' : bool) (st st1 : State) (candidates : list biblio.Candidate) :
  lookupCandidates text key status g q st = (Ret (Break candidates), st1) ->
  lookupCandidates text key status g' q' st = (Ret (Break candidates), st1).
Proof.
  unfold lookupCandidates, mbind, M_bind, bind.
  destruct (bibliosFromKey_returns key st) as (cands & st0 & -> & _ & _).
  destruct (nonempty cands); [auto|].
  unfold get_self. cbn [fst snd].
  assert (Hfailed : forall wrong P,
            lookupFailed text key status g q wrong st0 = (Ret (Break candidates), st1) -> P).
  { intros wrong P. unfold lookupFailed, mbind, M_bind, bind, get_self. cbn [fst snd].
    destruct (if g then specs (fst st0) !! key else None); [discriminate|].
    destruct wrong as [ns|]; [destruct q|]; discriminate. }
  destruct (match_numeric_suffix key) as [u|]; [|apply Hfailed].
  destruct (dict_mem (biblios (fst st0)) u); [|apply Hfailed].
  destruct (biblioNumericSuffixes (fst st0) !! u); [apply Hfailed|auto].
Qed.

(** X12.  Behind an alias, the flags of the call do not count.  When the
    best record found for a name is an alias, [getBiblioRef] ends the same
    way whatever [generateFakeRef], [allowObsolete] and [quiet] are: the
    alias is followed with the flags unset and quietly, and an alias of
    something that does not exist is reported even to a caller that asked
    for quiet. *)
Theorem getBiblioRef_alias_ignores_flags (text : string) (status : option string)
    (g a q g' a' q' : bool) (el : option h.Element) (depth : nat) (st st1 : State)
    (candidates : list biblio.Candidate) (candidate : biblio.Candidate) :
  depth <= 100 ->
  lookupCandidates text (lower text) status g q st = (Ret (Break candidates), st1) ->
  _bestCandidateBiblio candidates = Ret candidate ->
  biblio.biblioFormat candidate = "alias" ->
  getBiblioRef text status g' a' el q' depth st = getBiblioRef text status g a el q depth st.
Proof.
  intros Hdepth Hbreak Hbest Halias.
  unfold getBiblioRef. cbn [getBiblioRef_fuel].
  rewrite (proj2 (Nat.ltb_ge 100 depth)) by lia.
  rewrite Hbreak, (lookupCandidates_break_flags _ _ _ _ _ g' q' _ _ _ Hbreak).
  unfold resolveCandidates. rewrite Hbest, Halias. reflexivity.
Qed.

End BiblioIndependence.

(** ** The references that [addLocalDfns] files *)

Section LocalDfnFacts.
Import ReferenceManager messages.
Context `{h.Sig} `{config.Sig} `{RefSource.Sig} `{utils.Sig}.

Lemma str_lt_total (x y : string) : str_lt x y = false -> x <> y -> str_lt y x = true.
Proof.
  unfold str_lt, String.ltb. intros Hxy Hne.
  rewrite (String.compare_antisym y x).
  destruct (String.compare x y) eqn:Hc; [|discriminate|reflexivity].
  apply String.compare_eq_iff in Hc. contradiction.
Qed.

Lemma ascending_cons (y : string) (l : list string) :
  ascending (y :: l) <->
  match l with h :: _ => str_lt y h = true | [] => True end /\ ascending l.
Proof. destruct l; simpl; tauto. Qed.

Lemma insert_sorted_ascending (x : string) (s : list string) :
  ascending s -> ~ In x s -> ascending (insert_sorted (fun x => x) str_lt x s).
Proof.
  induction s as [|y s IH]; [simpl; trivial|].
  intros Hs Hx. cbn [insert_sorted].
  destruct (str_lt y x) eqn:Hyx.
  - apply ascending_cons in Hs as [Hhead Hs].
    apply ascending_cons. split; [|apply IH; [exact Hs|intros Hin; apply Hx; now right]].
    destruct s as [|z s]; cbn [insert_sorted]; [exact Hyx|].
    destruct (str_lt z x); assumption.
  - apply ascending_cons. split; [|exact Hs].
    apply str_lt_total; [exact Hyx|]. intros ->. apply Hx. now left.
Qed.

Lemma sorted_ascending (l : list string) :
  NoDup l -> ascending (sorted (fun x => x) str_lt l).
Proof.
  induction 1 as [|x l Hx Hl IH]; [exact I|].
  cbn [sorted]. apply insert_sorted_ascending; [exact IH|].
  rewrite in_sorted. intros Hin. apply Hx, list_elem_of_In, Hin.
Qed.

Lemma set_add_NoDup (x : string) (s : list string) : NoDup s -> NoDup (set_add x s).
Proof.
  intros Hs. unfold set_add. destruct (str_in x s) eqn:Hx; [exact Hs|].
  apply NoDup_app. split; [exact Hs|]. split; [|apply NoDup_singleton].
  intros y Hy. rewrite list_elem_of_In. intros [<-|[]].
  apply list_elem_of_In, str_in_In in Hy. congruence.
Qed.

Lemma set_of_list_spec (l : list string) :
  NoDup (set_of_list l) /\ forall x, In x (set_of_list l) <-> In x l.
Proof.
  unfold set_of_list.
  assert (Hgen : forall acc, NoDup acc ->
            NoDup (fold_left (fun s y => set_add y s) l acc) /\
            forall x, In x (fold_left (fun s y => set_add y s) l acc) <-> In x acc \/ In x l).
  { induction l as [|y l IH]; intros acc Hacc; cbn [fold_left].
    - split; [exact Hacc|]. intros x. simpl. tauto.
    - destruct (IH (set_add y acc) (set_add_NoDup y acc Hacc)) as [Hnd Hin].
      split; [exact Hnd|]. intros x. rewrite Hin, in_set_add. simpl. intuition. }
  destruct (Hgen [] (NoDup_nil_2)) as [Hnd Hin]. split; [exact Hnd|].
  intros x. rewrite Hin. simpl. tauto.
Qed.

Lemma addDescriptorFors_fold_iff (terms : list string) :
  forall acc,
    NoDup acc ->
    NoDup (fold_left
             (fun dfnFor term =>
                match match_descriptor term with
                | Some group1 => set_add (strip group1) dfnFor
                | None => dfnFor
                end) terms acc) /\
    forall x,
      In x (fold_left
              (fun dfnFor term =>
                 match match_descriptor term with
                 | Some group1 => set_add (strip group1) dfnFor
                 | None => dfnFor
                 end) terms acc) <->
      In x acc \/
      exists term group1,
        In term terms /\ match_descriptor term = Some group1 /\ x = strip group1.
Proof.
  induction terms as [|t terms IH]; intros acc Hacc; cbn [fold_left].
  - split; [exact Hacc|]. intros x. split; [now left|].
    intros [Hx|(term & g & [] & _)]. exact Hx.
  - destruct (match_descriptor t) as [g|] eqn:Hm.
    + destruct (IH (set_add (strip g) acc) (set_add_NoDup _ _ Hacc)) as [Hnd Hin].
      split; [exact Hnd|]. intros x. rewrite Hin, in_set_add. split.
      * intros [[->|Hx]|(term & g' & Hterm & Hm' & ->)]; [|now left|].
        -- right. exists t, g. split; [now left|]. split; [exact Hm|reflexivity].
        -- right. exists term, g'. split; [now right|]. split; [exact Hm'|reflexivity].
      * intros [Hx|(term & g' & [<-|Hterm] & Hm' & ->)]; [left; now right| |].
        -- left. left. congruence.
        -- right. exists term, g'. split; [exact Hterm|]. split; [exact Hm'|reflexivity].
    + destruct (IH acc Hacc) as [Hnd Hin]. split; [exact Hnd|].
      intros x. rewrite Hin. split.
      * intros [Hx|(term & g' & Hterm & Hm' & ->)]; [now left|].
        right. exists term, g'. split; [now right|]. split; [exact Hm'|reflexivity].
      * intros [Hx|(term & g' & [<-|Hterm] & Hm' & ->)]; [now left|congruence|].
        right. exists term, g'. split; [exact Hterm|]. split; [exact Hm'|reflexivity].
Qed.

(** X13.  The for-values that [addLocalDfns] files with a definition are
    in ascending order without repetition, whatever the order and the
    repetitions in the attribute, and they are exactly the values of the
    attribute and, for each value that the pattern for a descriptor matches,
    group 1 of the match without the white space around it. *)
Theorem filedFors_ascending (attr : string) :
  ascending (filedFors attr) /\
  forall x,
    In x (filedFors attr) <->
    In x (config.splitForValues attr) \/
    exists term group1,
      In term (config.splitForValues attr) /\ match_descriptor term = Some group1 /\
      x = strip group1.
Proof.
  unfold filedFors.
  destruct (set_of_list_spec (config.splitForValues attr)) as [Hnd Hin].
  destruct (addDescriptorFors_fold_iff (set_of_list (config.splitForValues attr)) _ Hnd)
    as [Hnd' Hin'].
  fold (addDescriptorFors (set_of_list (config.splitForValues attr))) in Hnd', Hin'.
  split; [apply sorted_ascending, Hnd'|].
  intros x. rewrite in_sorted, Hin', Hin. split.
  - intros [Hx|(term & g & Hterm & Hm & ->)]; [now left|].
    right. exists term, g. rewrite <- Hin. auto.
  - intros [Hx|(term & g & Hterm & Hm & ->)]; [now left|].
    right. exists term, g. rewrite Hin. auto.
Qed.

Lemma sameButLocalRefs_refl (a : t) : sameButLocalRefs a a.
Proof. destruct a. reflexivity. Qed.

Lemma localStep_refl (st : State) : localStep st st.
Proof. split; [apply sameButLocalRefs_refl|]. exists []. now rewrite app_nil_r. Qed.

Lemma localStep_trans (a b c : State) : localStep a b -> localStep b c -> localStep a c.
Proof.
  intros (Hs1 & m1 & Hl1 & Hf1) (Hs2 & m2 & Hl2 & Hf2). split.
  - unfold sameButLocalRefs in *. rewrite Hs2, Hs1. reflexivity.
  - exists (m1 ++ m2). rewrite Hl2, Hl1, <- app_assoc. split; [reflexivity|].
    rewrite forallb_app, Hf1, Hf2. reflexivity.
Qed.

Lemma localStep_die (msg : string) (st : State) :
  localStep st (snd (ReferenceManager.die msg st)).
Proof.
  split; [apply sameButLocalRefs_refl|]. exists [(Fatal, msg)]. split; reflexivity.
Qed.

Lemma localStep_set (st : State) (r : RefSource.t) :
  localStep st (set_localRefs (fst st) r, snd st).
Proof.
  split; [destruct st as [[] log]; reflexivity|]. exists []. now rewrite app_nil_r.
Qed.

Lemma registerLocalDfn_step (el : h.Element) (linkType linkText : string)
    (dfnFor : list string) (st : State) :
  localStep st (snd (registerLocalDfn el linkType linkText dfnFor st)) /\
  returnsOrNoId (fst (registerLocalDfn el linkType linkText dfnFor st)).
Proof.
  unfold registerLocalDfn, mbind, M_bind, bind, get_self, modify, when, raise.
  cbn [fst snd].
  destruct (h.get el "id") as [id|]; [|split; [apply localStep_refl|now right]].
  cbn [fst snd]. destruct (match_methodish linkText); cbn [fst snd].
  - split; [|now left].
    eapply localStep_trans; [apply localStep_set|]. apply (localStep_set (_, _)).
  - split; [apply localStep_set|now left].
Qed.

Lemma addLocalDfn_step (el : h.Element) (linkText : string) (st : State) :
  localStep st (snd (addLocalDfn el linkText st)) /\
  returnsOrNoId (fst (addLocalDfn el linkText st)).
Proof.
  unfold addLocalDfn.
  destruct (negb _); [split; [apply localStep_die|now left]|].
  unfold mbind, M_bind, bind, get_self. cbn [fst snd].
  destruct (h.treeAttr el "data-dfn-for") as [dfnFor|].
  - destruct (conflictingFor _ _ _ _ _);
      [split; [apply localStep_die|now left]|apply registerLocalDfn_step].
  - destruct (other_dfn _ _);
      [split; [apply localStep_die|now left]|apply registerLocalDfn_step].
Qed.

Lemma for_each_step {A} (body : A -> M unit) (l : list A) :
  (forall x st, localStep st (snd (body x st)) /\ returnsOrNoId (fst (body x st))) ->
  forall st, localStep st (snd (for_each l body st)) /\
             returnsOrNoId (fst (for_each l body st)).
Proof.
  intros Hbody. induction l as [|x l IH]; intros st; cbn [for_each].
  - split; [apply localStep_refl|now left].
  - unfold mbind, M_bind, bind. destruct (Hbody x st) as [Hstep Hres].
    destruct (body x st) as [[[]|e] st1]; cbn [fst snd] in *; [|auto].
    destruct (IH st1) as [Hstep' Hres'].
    split; [eapply localStep_trans; eauto|exact Hres'].
Qed.

(** X14.  Whatever the elements, [addLocalDfns] changes nothing of the
    reference manager but the local tier, and what it writes stands behind
    the messages that were in the log and is fatal.  It returns, unless an
    element it files has no [id]: then it raises the [TypeError] of the
    concatenation of a [str] and [None]. *)
Theorem addLocalDfns_frame (dfns : list h.Element) (st : State) :
  sameButLocalRefs (fst st) (fst (snd (addLocalDfns dfns st))) /\
  (exists msgs,
     snd (snd (addLocalDfns dfns st)) = snd st ++ msgs /\ forallb is_fatal msgs = true) /\
  (fst (addLocalDfns dfns st) = Ret tt \/ fst (addLocalDfns dfns st) = Raise noId).
Proof.
  assert (Hall : localStep st (snd (addLocalDfns dfns st)) /\
                 returnsOrNoId (fst (addLocalDfns dfns st))).
  { unfold addLocalDfns. apply for_each_step. intros el st0.
    destruct (h.hasClass el "no-ref"); [split; [apply localStep_refl|now left]|].
    unfold mbind, M_bind, bind.
    destruct (config.linkTextsFromElement el) as [e|linkTexts]; cbn [fst snd].
    - destruct (for_each_step (addLocalDfn el) (config.allTexts e) (addLocalDfn_step el)
                  (snd (ReferenceManager.die
                          ("The term '" +:+ config.offendingText e +:+
                           "' is in both lt and local-lt of the element " +:+
                           h.outerHTML (Some (config.el e)) +:+ ".") st0)))
        as [Hstep Hres].
      split; [|exact Hres]. eapply localStep_trans; [apply localStep_die|exact Hstep].
    - apply (for_each_step (addLocalDfn el) linkTexts (addLocalDfn_step el)). }
  destruct Hall as [[Hsame Hlog] Hres]. auto.
Qed.

Lemma for_each_cons {A} (body : A -> M unit) (x : A) (l : list A) (st : State) :
  for_each (x :: l) body st
  = match body x st with
    | (Ret _, st1) => for_each l body st1
    | (Raise e, st1) => (Raise e, st1)
    end.
Proof. reflexivity. Qed.

(** X15.  An element of the class [no-ref] is passed over: a run of
    [addLocalDfns] ends the same way and leaves the same state when the
    elements of that class are taken out of its input. *)
Theorem addLocalDfns_no_ref (dfns : list h.Element) (st : State) :
  addLocalDfns (List.filter (fun el => negb (h.hasClass el "no-ref")) dfns) st
  = addLocalDfns dfns st.
Proof.
  unfold addLocalDfns. revert st.
  induction dfns as [|el dfns IH]; intros st; [reflexivity|].
  cbn [List.filter].
  destruct (h.hasClass el "no-ref") eqn:Hclass; cbn [negb]; rewrite !for_each_cons;
    cbv beta; rewrite Hclass.
  - apply IH.
  - match goal with |- match ?c with _ => _ end = _ => destruct c as [[[]|e] st1] end;
      [apply IH|reflexivity].
Qed.

End LocalDfnFacts.

(** ** [simplifyPossibleRefs] *)

Section SimplifyPossibleRefs.
Import ReferenceManager.

Lemma refkey_eqb_eq (a b : RefKey) : refkey_eqb a b = true <-> a = b.
Proof.
  destruct a as [[t1 ty1] s1], b as [[t2 ty2] s2]. unfold refkey_eqb.
  rewrite !andb_true_iff, !String.eqb_eq. split.
  - intros [[-> ->] Hs]. destruct s1, s2; try discriminate; [|reflexivity].
    apply String.eqb_eq in Hs as ->. reflexivity.
  - intros [= -> -> ->]. repeat split. destruct s2; [apply String.eqb_refl|reflexivity].
Qed.

Lemma forVals_append_held (d : list (RefKey * list (string * string))) (k k' : RefKey)
    (x v : string * string) :
  heldUnder (forVals_append d k x) k' v <-> (k' = k /\ v = x) \/ heldUnder d k' v.
Proof.
  unfold heldUnder. induction d as [|[k0 v0] d IH]; cbn [forVals_append].
  - split.
    + intros (vals & [[= -> <-]|[]] & [->|[]]). now left.
    + intros [[-> ->]|(vals & [] & _)]. exists [x]. split; now left.
  - destruct (refkey_eqb k0 k) eqn:Hk.
    + apply refkey_eqb_eq in Hk as ->. split.
      * intros (vals & [[= -> <-]|Hin] & Hv).
        -- apply in_app_iff in Hv as [Hv|[->|[]]]; [right|now left].
           exists v0. split; [now left|exact Hv].
        -- right. exists vals. split; [now right|exact Hv].
      * intros [[-> ->]|(vals & [[= -> ->]|Hin] & Hv)].
        -- exists (v0 ++ [x]). split; [now left|]. apply in_app_iff. right. now left.
        -- exists (vals ++ [x]). split; [now left|]. apply in_app_iff. now left.
        -- exists vals. split; [now right|exact Hv].
    + split.
      * intros (vals & [[= -> <-]|Hin] & Hv).
        -- right. exists v0. split; [now left|exact Hv].
        -- destruct (proj1 IH (ex_intro _ vals (conj Hin Hv))) as [Hl|(vals' & Hin' & Hv')];
             [now left|].
           right. exists vals'. split; [now right|exact Hv'].
      * intros [Hl|(vals & [[= -> ->]|Hin] & Hv)].
        -- destruct (proj2 IH (or_introl Hl)) as (vals & Hin & Hv).
           exists vals. split; [now right|exact Hv].
        -- exists vals. split; [now left|exact Hv].
        -- destruct (proj2 IH (or_intror (ex_intro _ vals (conj Hin Hv))))
             as (vals' & Hin' & Hv').
           exists vals'. split; [now right|exact Hv'].
Qed.

(** Appending never leaves a key without pairs. *)
Lemma forVals_append_nonempty (d : list (RefKey * list (string * string))) (k : RefKey)
    (x : string * string) :
  (forall k' vals, In (k', vals) d -> vals <> []) ->
  forall k' vals, In (k', vals) (forVals_append d k x) -> vals <> [].
Proof.
  induction d as [|[k0 v0] d IH]; cbn [forVals_append]; intros Hd k' vals.
  - intros [[= <- <-]|[]]. discriminate.
  - destruct (refkey_eqb k0 k).
    + intros [[= <- <-]|Hin]; [|eapply Hd; right; exact Hin].
      destruct v0; discriminate.
    + intros [[= <- <-]|Hin]; [eapply Hd; now left|].
      eapply IH; [|exact Hin]. intros k1 vals1 Hin1. eapply Hd. right. exact Hin1.
Qed.

Lemma forVals_fold_held (k0 : RefKey) (url : string) (fors : list string) :
  forall d k v,
    heldUnder (fold_left (fun d f => forVals_append d k0 (f, url)) fors d) k v <->
    (k = k0 /\ exists f, In f fors /\ v = (f, url)) \/ heldUnder d k v.
Proof.
  induction fors as [|f fors IH]; intros d k v; cbn [fold_left].
  - split; [now right|]. intros [(_ & f & [] & _)|Hd]. exact Hd.
  - rewrite IH, forVals_append_held. split.
    + intros [(-> & f' & Hf' & ->)|[[-> ->]|Hd]]; [left|left|now right].
      * split; [reflexivity|]. exists f'. split; [now right|reflexivity].
      * split; [reflexivity|]. exists f. split; [now left|reflexivity].
    + intros [(-> & f' & [<-|Hf'] & ->)|Hd].
      * right. left. split; reflexivity.
      * left. split; [reflexivity|]. exists f'. split; [exact Hf'|reflexivity].
      * right. now right.
Qed.

Lemma forVals_fold_nonempty (k0 : RefKey) (url : string) (fors : list string) :
  forall d,
    (forall k' vals, In (k', vals) d -> vals <> []) ->
    forall k' vals,
      In (k', vals) (fold_left (fun d f => forVals_append d k0 (f, url)) fors d) ->
      vals <> [].
Proof.
  induction fors as [|f fors IH]; intros d Hd; cbn [fold_left]; [exact Hd|].
  apply IH. apply forVals_append_nonempty. exact Hd.
Qed.

Lemma forVals_step_held (d : list (RefKey * list (string * string)))
    (r : RefSource.RefWrapper) (k : RefKey) (f url : string) :
  heldUnder (forVals_step d r) k (f, url) <->
  (k = refkey r /\ url = RefSource.url (RefSource.ref r) /\ shownFor r f) \/
  heldUnder d k (f, url).
Proof.
  unfold forVals_step, shownFor.
  destruct (RefSource.for_ (RefSource.ref r)) as [|f0 fors] eqn:Hfor.
  - rewrite forVals_append_held. split.
    + intros [[-> [= -> ->]]|Hd]; [left|now right]. repeat split. now right.
    + intros [(-> & -> & [[]|[_ ->]])|Hd]; [left|now right]. split; reflexivity.
  - rewrite forVals_fold_held. split.
    + intros [(-> & f' & Hf' & [= -> ->])|Hd]; [left|now right]. repeat split. now left.
    + intros [(-> & -> & [Hf|[[=] _]])|Hd]; [left|now right].
      split; [reflexivity|]. exists f. split; [exact Hf|reflexivity].
Qed.

Lemma forVals_step_nonempty (d : list (RefKey * list (string * string)))
    (r : RefSource.RefWrapper) :
  (forall k' vals, In (k', vals) d -> vals <> []) ->
  forall k' vals, In (k', vals) (forVals_step d r) -> vals <> [].
Proof.
  unfold forVals_step. intros Hd.
  destruct (RefSource.for_ (RefSource.ref r));
    [apply forVals_append_nonempty|apply forVals_fold_nonempty]; exact Hd.
Qed.

Lemma forVals_of_held (refs : list RefSource.RefWrapper) (k : RefKey) (f url : string) :
  heldUnder (forVals_of refs) k (f, url) <->
  exists r, In r refs /\ k = refkey r /\ url = RefSource.url (RefSource.ref r) /\
            shownFor r f.
Proof.
  unfold forVals_of. change (fold_left _ refs []) with (fold_left forVals_step refs []).
  assert (Hgen : forall d,
            heldUnder (fold_left forVals_step refs d) k (f, url) <->
            (exists r, In r refs /\ k = refkey r /\ url = RefSource.url (RefSource.ref r) /\
                       shownFor r f) \/ heldUnder d k (f, url)).
  { induction refs as [|r refs IH]; intros d; cbn [fold_left].
    - split; [now right|]. intros [(r & [] & _)|Hd]. exact Hd.
    - rewrite IH, forVals_step_held. split.
      + intros [(r' & Hr' & Hrest)|[Hr|Hd]]; [left|left|now right].
        * exists r'. split; [now right|exact Hrest].
        * exists r. split; [now left|exact Hr].
      + intros [(r' & [<-|Hr'] & Hrest)|Hd].
        * right. now left.
        * left. exists r'. split; [exact Hr'|exact Hrest].
        * right. now right. }
  rewrite Hgen. split; [|now left].
  intros [Hr|(vals & [] & _)]. exact Hr.
Qed.

Lemma forVals_of_nonempty (refs : list RefSource.RefWrapper) (k : RefKey)
    (vals : list (string * string)) :
  In (k, vals) (forVals_of refs) -> vals <> [].
Proof.
  unfold forVals_of. change (fold_left _ refs []) with (fold_left forVals_step refs []).
  assert (Hgen : forall d,
            (forall k' vals, In (k', vals) d -> vals <> []) ->
            forall k' vals, In (k', vals) (fold_left forVals_step refs d) -> vals <> []).
  { induction refs as [|r refs IH]; intros d Hd; cbn [fold_left]; [exact Hd|].
    apply IH, forVals_step_nonempty, Hd. }
  apply Hgen. intros k' vals' [].
Qed.

(** X16.  [simplifyPossibleRefs] invents nothing and loses no reference.
    Each dictionary it returns stands for one of the references, with its
    text, type, spec and URL, and the for-value it shows, if any, is a
    for-value of that reference, or [/] for a reference that is for nothing;
    and each reference has a dictionary with its text, type and spec. *)
Theorem simplifyPossibleRefs_sound (refs : list RefSource.RefWrapper) (alwaysShowFor : bool) :
  (forall p, In p (simplifyPossibleRefs refs alwaysShowFor) ->
     exists r, In r refs /\ standsFor p r /\ forall f, p_for p = Some f -> shownFor r f) /\
  (forall r, In r refs ->
     exists p, In p (simplifyPossibleRefs refs alwaysShowFor) /\
               (p_text p, p_type p, p_spec p) = refkey r).
Proof.
  unfold simplifyPossibleRefs, standsFor. split.
  - intros p [[[[text type] spec] fors] [Hin Hp]]%in_flat_map.
    destruct ((2 <=? length fors)%nat || alwaysShowFor).
    + apply in_map_iff in Hp as ([f url] & <- & Hv).
      destruct (proj1 (forVals_of_held refs (text, type, spec) f url)
                  (ex_intro _ fors (conj Hin Hv))) as (r & Hr & Hk & Hu & Hf).
      exists r. cbn [p_text p_type p_spec p_url p_for]. repeat split; try assumption.
      intros f' [= <-]. exact Hf.
    + destruct Hp as [<-|[]].
      pose proof (forVals_of_nonempty refs _ _ Hin) as Hne.
      destruct fors as [|[f url] fors]; [congruence|].
      destruct (proj1 (forVals_of_held refs (text, type, spec) f url)
                  (ex_intro _ ((f, url) :: fors) (conj Hin (or_introl eq_refl))))
        as (r & Hr & Hk & Hu & Hf).
      exists r. cbn [p_text p_type p_spec p_url p_for]. repeat split; try assumption.
      discriminate.
  - intros r Hr.
    assert (Hshown : exists f, shownFor r f).
    { unfold shownFor. destruct (RefSource.for_ (RefSource.ref r)) as [|f fors].
      - exists "/". right. split; reflexivity.
      - exists f. left. now left. }
    destruct Hshown as [f Hf].
    destruct (proj2 (forVals_of_held refs (refkey r) f (RefSource.url (RefSource.ref r))))
      as (vals & Hin & Hv); [exists r; auto|].
    destruct (refkey r) as [[text type] spec] eqn:Hkey.
    destruct ((2 <=? length vals)%nat || alwaysShowFor) eqn:Hshow.
    + exists {| p_text := text; p_type := type; p_spec := spec; p_for := Some f;
                p_url := RefSource.url (RefSource.ref r) |}.
      split; [|reflexivity].
      apply in_flat_map. exists ((text, type, spec), vals). split; [exact Hin|].
      rewrite Hshow. apply in_map_iff. exists (f, RefSource.url (RefSource.ref r)). auto.
    + exists {| p_text := text; p_type := type; p_spec := spec; p_for := None;
                p_url := match vals with (_, url) :: _ => url | [] => "" end |}.
      split; [|reflexivity].
      apply in_flat_map. exists ((text, type, spec), vals). split; [exact Hin|].
      rewrite Hshow. now left.
Qed.

(** X17.  With [alwaysShowFor], as for the message about an ambiguous
    for-less link, [simplifyPossibleRefs] shows every for-value of every
    reference: each dictionary has a for-value, and there is one for each
    reference and each of its for-values, and one for [/] for each reference
    that is for nothing. *)
Theorem simplifyPossibleRefs_alwaysShowFor (refs : list RefSource.RefWrapper)
    (p : PossibleRef) :
  In p (simplifyPossibleRefs refs true) <->
  exists r f, In r refs /\ standsFor p r /\ p_for p = Some f /\ shownFor r f.
Proof.
  unfold simplifyPossibleRefs, standsFor. rewrite in_flat_map. split.
  - intros ([[[text type] spec] fors] & Hin & Hp).
    rewrite orb_true_r in Hp.
    apply in_map_iff in Hp as ([f url] & <- & Hv).
    destruct (proj1 (forVals_of_held refs (text, type, spec) f url)
                (ex_intro _ fors (conj Hin Hv))) as (r & Hr & Hk & Hu & Hf).
    exists r, f. cbn [p_text p_type p_spec p_url p_for]. repeat split; assumption.
  - intros (r & f & Hr & [Hk Hu] & Hpf & Hf).
    destruct (proj2 (forVals_of_held refs (refkey r) f (RefSource.url (RefSource.ref r))))
      as (vals & Hin & Hv); [exists r; auto|].
    exists (refkey r, vals). split; [exact Hin|].
    destruct (refkey r) as [[text type] spec] eqn:Hkey.
    rewrite orb_true_r. apply in_map_iff. exists (f, RefSource.url (RefSource.ref r)).
    split; [|exact Hv].
    destruct p as [pt pty ps pf pu]. cbn in *. congruence.
Qed.

End SimplifyPossibleRefs.

(** ** [getRef] behind the local tier *)

Section GetRefTiers.
Import ReferenceManager messages.
Context `{h.Sig} `{config.Sig} `{RefSource.Sig} `{utils.Sig} `{extern.Sig}.

Lemma readOnly_ret {A} (a : A) : readOnly (mret a : M A).
Proof.
  intros st. split; [reflexivity|]. split; [exists []; now rewrite app_nil_r|].
  left. now exists a.
Qed.

Lemma readOnly_get_self : readOnly get_self.
Proof.
  intros st. split; [reflexivity|]. split; [exists []; now rewrite app_nil_r|].
  left. now exists (fst st).
Qed.

Lemma readOnly_index {A} : readOnly (raise (IndexError "list index out of range") : M A).
Proof.
  intros st. split; [reflexivity|]. split; [exists []; now rewrite app_nil_r|]. now right.
Qed.

Lemma readOnly_linkerror (msg : string) : readOnly (ReferenceManager.linkerror msg).
Proof.
  intros st. split; [reflexivity|]. split; [now exists [(LinkError, msg)]|].
  left. now exists tt.
Qed.

Lemma readOnly_die (msg : string) : readOnly (ReferenceManager.die msg).
Proof.
  intros st. split; [reflexivity|]. split; [now exists [(Fatal, msg)]|].
  left. now exists tt.
Qed.

Lemma readOnly_bind {A B} (c : M A) (k : A -> M B) :
  readOnly c -> (forall a, readOnly (k a)) -> readOnly (c ≫= k).
Proof.
  intros Hc Hk st. unfold mbind, M_bind, bind.
  destruct (Hc st) as (Hself & (m1 & Hlog) & Hres).
  destruct (c st) as [[a|e] st1]; cbn [fst snd] in *.
  - destruct (Hk a st1) as (Hself' & (m2 & Hlog') & Hres').
    split; [congruence|]. split; [|exact Hres'].
    exists (m1 ++ m2). rewrite Hlog', Hlog, app_assoc. reflexivity.
  - split; [exact Hself|]. split; [now exists m1|].
    destruct Hres as [[a Ha]|[= ->]]; [discriminate|]. now right.
Qed.

Lemma readOnly_when (b : bool) (c : M unit) : readOnly c -> readOnly (when b c).
Proof. intros Hc. destruct b; [exact Hc|apply (readOnly_ret tt)]. Qed.

Local Ltac read_only :=
  repeat first
    [ apply readOnly_ret
    | apply readOnly_get_self
    | apply readOnly_index
    | apply readOnly_linkerror
    | apply readOnly_die
    | apply readOnly_when
    | apply readOnly_bind; [|intros ?] ].

Lemma readOnly_chooseRef (refs : list RefSource.RefWrapper) (linkType text : string)
    (linkFor : option RefSource.ForArg) (error : bool) (el : option h.Element) :
  readOnly (chooseRef refs linkType text linkFor error el).
Proof.
  unfold chooseRef, reportMultiplePossibleRefs.
  destruct refs as [|first [|second rest]]; read_only.
Qed.

Lemma readOnly_settle (zeroRefsError : bool)
    (found : list RefSource.RefWrapper * option string) (linkType text : string)
    (spec status : option string) (linkFor : option RefSource.ForArg) (error : bool)
    (el : option h.Element) :
  readOnly (settle zeroRefsError found linkType text spec status linkFor error el).
Proof.
  unfold settle, reportFailure.
  destruct (snd found) as [[|c f]|]; try apply readOnly_chooseRef.
  destruct (str_in _ knownFailures); [destruct (customProperty _ _ _)|]; read_only.
Qed.

Lemma readOnly_findSignature (self : t) (linkType text : string) (spec status : option string)
    (linkFor : option RefSource.ForArg) (lf : string)
    (found : list RefSource.RefWrapper * option string) :
  readOnly (findSignature self linkType text spec status linkFor lf found).
Proof.
  unfold findSignature. destruct (splitMethodFor lf) as [interfaceName methodName].
  destruct (dict_get _ methodName) as [sigs|]; [|read_only].
  destruct (possibleMethods self text interfaceName sigs); read_only.
Qed.

Lemma readOnly_getRef_foreign (zeroRefsError : bool) (linkType text : string)
    (spec status : option string) (statusHint : string)
    (linkFor : option RefSource.ForArg) (explicitFor : bool)
    (linkForHint : option RefSource.ForArg) (error : bool) (el : option h.Element) :
  readOnly (getRef_foreign zeroRefsError linkType text spec status statusHint linkFor
              explicitFor linkForHint error el).
Proof.
  unfold getRef_foreign. apply readOnly_bind; [apply readOnly_get_self|]. intros self.
  destruct (signatureFors _ linkType linkFor) as [|lf lfs]; [apply readOnly_settle|].
  apply readOnly_bind; [apply readOnly_findSignature|]. intros found.
  destruct (splitMethodFor lf) as [interfaceName methodName].
  destruct (zeroRefsError && _); [read_only|apply readOnly_settle].
Qed.

Lemma readOnly_getRef_otherTiers (linkType text : string) (spec status : option string)
    (statusHint : string) (linkFor : option RefSource.ForArg) (explicitFor : bool)
    (linkForHint : option RefSource.ForArg) (error : bool) (el : option h.Element) :
  readOnly (getRef_otherTiers linkType text spec status statusHint linkFor explicitFor
              linkForHint error el).
Proof.
  unfold getRef_otherTiers, reportAmbiguousForlessLink, reportMultiplePossibleRefs.
  destruct (opt_eqb status (Some "local")); [read_only|].
  apply readOnly_bind; [apply readOnly_get_self|]. intros self.
  destruct (withDefaults self linkType text spec status linkFor)
    as [[[spec' status'] linkFor'] linkType'].
  destruct (nonempty (blockRivals _ _ _ _ _ _)); [read_only|].
  destruct (blockMatches _ _ _ _ _ _ _ _) as [|first [|second rest]];
    [apply readOnly_getRef_foreign|read_only|read_only].
Qed.

(** X18.  [getRef] reads the reference manager only.  Whatever the link and
    the tiers, a call leaves every slot of the reference manager as it was
    and all it does to the log is to write behind the messages that were
    there; it returns, unless it raises the [IndexError] of an index out of
    range. *)
Theorem getRef_reads_only (rand : nat) (linkType text : string)
    (spec status statusHint : option string) (linkFor : option RefSource.ForArg)
    (explicitFor : bool) (linkForHint : option RefSource.ForArg) (error : bool)
    (el : option h.Element) :
  readOnly (getRef_method rand linkType text spec status statusHint linkFor explicitFor
              linkForHint error el).
Proof.
  unfold getRef_method, getRef, getRef_local, reportAmbiguousForlessLink.
  apply readOnly_bind; [apply readOnly_get_self|]. intros self.
  destruct (negb (knownStatus status)); [read_only|].
  destruct (option_map lower spec); [apply readOnly_getRef_otherTiers|].
  apply readOnly_bind; [apply readOnly_get_self|]. intros self'.
  destruct (nonempty (forlessRivals _ _ _ _ _ _)); [read_only|].
  destruct (localMatches _ _ _ _ _ _ _) as [|first [|second rest]];
    [apply readOnly_getRef_otherTiers|read_only|read_only].
Qed.

(** X19.  A link with the status [local] is looked up in the local tier
    only: what [getRef] returns for it is [None] or one of the local matches
    of a link without a spec, whatever the anchor blocks and the foreign
    tier hold.  In particular, a link with that status and a spec gets
    [None], whether or not the document defines its text. *)
Theorem getRef_status_local (rand : nat) (linkType text : string)
    (spec statusHint : option string) (linkFor : option RefSource.ForArg)
    (explicitFor : bool) (linkForHint : option RefSource.ForArg) (error : bool)
    (el : option h.Element) (st : State) :
  fst (getRef_method rand linkType text spec (Some "local") statusHint linkFor explicitFor
         linkForHint error el st) = Ret None \/
  exists x,
    fst (getRef_method rand linkType text spec (Some "local") statusHint linkFor explicitFor
           linkForHint error el st) = Ret (Some x) /\
    spec = None /\
    In x (localMatches (fst st) linkType (normalText linkType text) linkFor linkForHint
            explicitFor el).
Proof.
  unfold getRef_method, getRef, mbind, M_bind, bind, get_self. cbn [fst snd].
  destruct (negb (knownStatus (Some "local"))).
  { left. destruct error; reflexivity. }
  destruct spec as [spec|]; cbn [option_map]; [left; reflexivity|].
  unfold getRef_local, mbind, M_bind, bind, get_self. cbn [fst snd].
  destruct (nonempty (forlessRivals _ _ _ _ _ _)); [left; reflexivity|].
  destruct (localMatches (fst st) linkType (normalText linkType text) linkFor linkForHint
              explicitFor el) as [|first [|second rest]] eqn:Hlocals.
  - left. reflexivity.
  - right. exists first. repeat split. now left.
  - set (locals := first :: second :: rest) in *.
    assert (Hchosen : forall x,
              (if testing (fst st)
               then head (sorted (fun x => RefSource.url (RefSource.ref x)) str_lt locals)
               else random_choice rand locals) = Some x -> In x locals).
    { intros x. destruct (testing (fst st)).
      - intros Hhead. apply (in_sorted (fun x => RefSource.url (RefSource.ref x)) str_lt).
        destruct (sorted _ _ locals); [discriminate|]. injection Hhead as ->. now left.
      - unfold random_choice. apply nth_error_In. }
    destruct (if testing (fst st) then _ else _) as [x|] eqn:Hx.
    + right. exists x. split; [destruct error; reflexivity|]. split; [reflexivity|].
      apply Hchosen. reflexivity.
    + left. destruct error; reflexivity.
Qed.

(** X20.  The anchor blocks come before the foreign tier.  Behind the local
    tier, for a link whose status is not [local], whose matches in the
    anchor blocks (for the spec, for-value and type that the link defaults
    give) are not empty and have no exported for-less foreign rival,
    [getRef] returns the first of those matches, whatever the foreign tier
    holds.  A single match is returned without a message; with several, the
    link error about several possible references is written, even when the
    caller has asked for no errors. *)
Theorem getRef_anchor_block_precedence (linkType text : string) (spec status : option string)
    (statusHint : string) (linkFor : option RefSource.ForArg) (explicitFor : bool)
    (linkForHint : option RefSource.ForArg) (error : bool) (el : option h.Element)
    (self : t) (log : Log) (spec' status' : option string)
    (linkFor' : option RefSource.ForArg) (linkType' : string)
    (first : RefSource.RefWrapper) (others : list RefSource.RefWrapper) :
  status <> Some "local" ->
  withDefaults self linkType text spec status linkFor = (spec', status', linkFor', linkType') ->
  blockMatches self linkType' text spec' linkFor' linkForHint explicitFor el
  = first :: others ->
  blockRivals self (first :: others) linkType' text linkFor' el = [] ->
  getRef_otherTiers linkType text spec status statusHint linkFor explicitFor linkForHint
    error el (self, log)
  = (Ret (Some first),
     (self,
      log ++ (if nonempty others
              then [(LinkError,
                     msg_multiple (simplifyPossibleRefs (first :: others) false) text
                       linkType' linkFor' first)]
              else []))).
Proof.
  intros Hstatus Hdefaults Hblock Hrivals.
  unfold getRef_otherTiers.
  assert (Hlocal : opt_eqb status (Some "local") = false).
  { destruct status as [s|]; [|reflexivity]. cbn [opt_eqb].
    destruct (String.eqb s "local") eqn:Hs; [|reflexivity].
    apply String.eqb_eq in Hs. congruence. }
  rewrite Hlocal. unfold mbind, M_bind, bind, get_self. cbn [fst snd].
  rewrite Hdefaults, Hblock, Hrivals. cbn [nonempty].
  destruct others as [|second rest]; cbn [nonempty].
  - now rewrite app_nil_r.
  - reflexivity.
Qed.

Lemma customProperty_known (failure linkType text : string) :
  customProperty failure linkType text = true -> str_in failure knownFailures = true.
Proof.
  unfold customProperty. intros [[Hf _]%andb_prop _]%andb_prop.
  apply str_in_In in Hf. apply str_in_In. unfold knownFailures.
  destruct Hf as [<-|[<-|[]]]; simpl; auto.
Qed.

(** X21.  A link that nothing matches.  Behind the local tier, when the
    anchor blocks have no match, the query to the foreign tier fails at one
    of the stages that [getRef] knows, and the link is not the argument of a
    method named with a pair of parentheses, [getRef] returns [None] and
    leaves the reference manager as it is.  It writes one link error, which
    names the stage, if the caller asked for errors, the link is of a type
    other than [maybe] and [extended-attribute] (the type the link came
    with, not the type a link default gave it), and the link is not one to
    a custom property; otherwise it writes nothing. *)
Theorem getRef_no_refs (linkType text : string) (spec status : option string)
    (statusHint : string) (linkFor : option RefSource.ForArg) (explicitFor : bool)
    (linkForHint : option RefSource.ForArg) (error : bool) (el : option h.Element)
    (self : t) (log : Log) (spec' status' : option string)
    (linkFor' : option RefSource.ForArg) (linkType' : string)
    (refs : list RefSource.RefWrapper) (failure : string) :
  status <> Some "local" ->
  withDefaults self linkType text spec status linkFor = (spec', status', linkFor', linkType') ->
  blockMatches self linkType' text spec' linkFor' linkForHint explicitFor el = [] ->
  foreignMatches self linkType' text spec' status' statusHint linkFor' linkForHint explicitFor
  = (refs, Some failure) ->
  In failure knownFailures ->
  signatureFors (Some failure) linkType' linkFor' = [] ->
  getRef_otherTiers linkType text spec status statusHint linkFor explicitFor linkForHint
    error el (self, log)
  = (Ret None,
     (self,
      log ++ (if error && negb (str_in linkType ["maybe"; "extended-attribute"]) &&
                 negb (customProperty failure linkType' text)
              then [(LinkError, msg_failure failure linkType' text spec' status' linkFor' el)]
              else []))).
Proof.
  intros Hstatus Hdefaults Hblock Hforeign Hknown Hsig.
  unfold getRef_otherTiers.
  assert (Hlocal : opt_eqb status (Some "local") = false).
  { destruct status as [s|]; [|reflexivity]. cbn [opt_eqb].
    destruct (String.eqb s "local") eqn:Hs; [|reflexivity].
    apply String.eqb_eq in Hs. congruence. }
  rewrite Hlocal. unfold mbind, M_bind, bind, get_self. cbn [fst snd].
  rewrite Hdefaults, Hblock. unfold blockRivals. cbn [nonempty andb].
  unfold getRef_foreign, mbind, M_bind, bind, get_self. cbn [fst snd].
  rewrite Hforeign. cbn [fst snd]. rewrite Hsig.
  unfold settle. cbn [fst snd].
  destruct failure as [|c f].
  { exfalso. unfold knownFailures in Hknown. simpl in Hknown. intuition discriminate. }
  unfold reportFailure. rewrite (proj2 (str_in_In _ _) Hknown).
  destruct (customProperty (String c f) linkType' text).
  - rewrite andb_false_r, app_nil_r. reflexivity.
  - rewrite andb_true_r.
    destruct (error && negb (str_in linkType ["maybe"; "extended-attribute"]));
      [reflexivity|now rewrite app_nil_r].
Qed.

Lemma defaultRef_in (linkType : string) (first : RefSource.RefWrapper)
    (rest : list RefSource.RefWrapper) :
  In (defaultRef linkType first (first :: rest)) (first :: rest).
Proof.
  unfold defaultRef. destruct (String.eqb linkType "propdesc"); [|now left].
  destruct (find _ (first :: rest)) as [r|] eqn:Hfind; [|now left].
  apply find_some in Hfind as [Hin _]. exact Hin.
Qed.

(** The reference that [find] finds is the first that passes the test. *)
Lemma find_first {A} (p : A -> bool) (l : list A) (x : A) :
  find p l = Some x ->
  exists before after,
    l = before ++ x :: after /\ p x = true /\ forall y, In y before -> p y = false.
Proof.
  induction l as [|y l IH]; [discriminate|]. cbn [find].
  destruct (p y) eqn:Hy.
  - intros [= ->]. exists [], l. repeat split; [exact Hy|intros z []].
  - intros Hfind. destruct (IH Hfind) as (before & after & -> & Hx & Hbefore).
    exists (y :: before), after. repeat split; [exact Hx|].
    intros z [<-|Hz]; [exact Hy|apply Hbefore, Hz].
Qed.

(** X22.  A link that the foreign tier matches.  Behind the local tier,
    when the anchor blocks have no match and the query to the foreign tier
    finds references without failing, [getRef] returns one of them: the
    reference itself if there is one only, and otherwise the first one or,
    for a link of the type [propdesc], the first one that is a property
    (the references before it are none), and the first one again if none is
    a property.  With several references it writes the link error about
    several possible references if the caller asked for errors; it writes
    nothing else. *)
Theorem getRef_foreign_choice (linkType text : string) (spec status : option string)
    (statusHint : string) (linkFor : option RefSource.ForArg) (explicitFor : bool)
    (linkForHint : option RefSource.ForArg) (error : bool) (el : option h.Element)
    (self : t) (log : Log) (spec' status' : option string)
    (linkFor' : option RefSource.ForArg) (linkType' : string)
    (first : RefSource.RefWrapper) (others : list RefSource.RefWrapper)
    (failure : option string) :
  status <> Some "local" ->
  withDefaults self linkType text spec status linkFor = (spec', status', linkFor', linkType') ->
  blockMatches self linkType' text spec' linkFor' linkForHint explicitFor el = [] ->
  foreignMatches self linkType' text spec' status' statusHint linkFor' linkForHint explicitFor
  = (first :: others, failure) ->
  truthy_opt failure = false ->
  exists chosen,
    In chosen (first :: others) /\
    (others = [] \/ linkType' <> "propdesc" -> chosen = first) /\
    (others <> [] -> linkType' = "propdesc" ->
     (exists before after,
        first :: others = before ++ chosen :: after /\
        RefSource.type (RefSource.ref chosen) = "property" /\
        forall r, In r before -> RefSource.type (RefSource.ref r) <> "property") \/
     (chosen = first /\
      forall r, In r (first :: others) -> RefSource.type (RefSource.ref r) <> "property")) /\
    getRef_otherTiers linkType text spec status statusHint linkFor explicitFor linkForHint
      error el (self, log)
    = (Ret (Some chosen),
       (self,
        log ++ (if error && nonempty others
                then [(LinkError,
                       msg_multiple (simplifyPossibleRefs (first :: others) false) text
                         linkType' linkFor' chosen)]
                else []))).
Proof.
  intros Hstatus Hdefaults Hblock Hforeign Hfailure.
  assert (Hlocal : opt_eqb status (Some "local") = false).
  { destruct status as [s|]; [|reflexivity]. cbn [opt_eqb].
    destruct (String.eqb s "local") eqn:Hs; [|reflexivity].
    apply String.eqb_eq in Hs. congruence. }
  assert (Hrun :
            getRef_otherTiers linkType text spec status statusHint linkFor explicitFor
              linkForHint error el (self, log)
            = chooseRef (first :: others) linkType' text linkFor' error el (self, log)).
  { unfold getRef_otherTiers. rewrite Hlocal.
    unfold mbind, M_bind, bind, get_self. cbn [fst snd].
    rewrite Hdefaults, Hblock. unfold blockRivals. cbn [nonempty andb].
    unfold getRef_foreign, mbind, M_bind, bind, get_self. cbn [fst snd].
    rewrite Hforeign. cbn [fst snd].
    unfold signatureFors. rewrite Hfailure. cbn [andb].
    unfold settle. cbn [fst snd].
    destruct failure as [[|c f]|]; [reflexivity|discriminate|reflexivity]. }
  rewrite Hrun. clear Hrun.
  destruct others as [|second rest].
  - exists first. split; [now left|]. split; [reflexivity|]. split; [congruence|].
    rewrite andb_false_r, app_nil_r. reflexivity.
  - exists (defaultRef linkType' first (first :: second :: rest)).
    split; [apply defaultRef_in|]. split; [|split].
    + intros [[=]|Hne]. unfold defaultRef.
      destruct (String.eqb linkType' "propdesc") eqn:Hp; [|reflexivity].
      apply String.eqb_eq in Hp. contradiction.
    + intros _ ->. unfold defaultRef. cbn [String.eqb Ascii.eqb Bool.eqb].
      destruct (find _ (first :: second :: rest)) as [r'|] eqn:Hfind.
      * left. destruct (find_first _ _ _ Hfind) as (before & after & Hsplit & Hty & Hbefore).
        exists before, after. split; [exact Hsplit|].
        split; [now apply String.eqb_eq in Hty|].
        intros r Hr. apply String.eqb_neq, Hbefore, Hr.
      * right. split; [reflexivity|].
        intros r Hr. apply String.eqb_neq. exact (find_none _ _ Hfind r Hr).
    + unfold chooseRef, reportMultiplePossibleRefs, when, mbind, M_bind, bind.
      cbn [nonempty]. rewrite andb_true_r.
      destruct error; [reflexivity|now rewrite app_nil_r].
Qed.

(** X23.  The link defaults fill in what a link leaves open and override
    nothing the link says.  Behind the step that takes the defaults into
    account, a spec, a status and a for-value that the link came with are
    as they were; when it came with all three, its type is as it was too,
    and the defaults are not looked at.  Where a default is taken, it is the
    one that was filed last among those that apply. *)
Theorem withDefaults_keeps_given (self : t) (linkType text : string)
    (spec status : option string) (linkFor : option RefSource.ForArg) :
  let '(spec', status', linkFor', linkType') :=
    withDefaults self linkType text spec status linkFor in
  (truthy_opt spec = true -> spec' = spec) /\
  (truthy_opt status = true -> status' = status) /\
  (truthy_for linkFor = true -> linkFor' = linkFor) /\
  (truthy_opt spec = true -> truthy_opt status = true -> truthy_for linkFor = true ->
   linkType' = linkType) /\
  (forall v vs before d after,
     List.filter (dict_mem (defaultSpecs self)) (extern.linkTextVariations text linkType)
     = v :: vs ->
     dict_get (defaultSpecs self) v = Some (before ++ d :: after) ->
     defaultApplies linkType linkFor d = true ->
     forallb (fun d' => negb (defaultApplies linkType linkFor d')) after = true ->
     linkDefault self linkType text linkFor = Some d).
Proof.
  assert (Hlast : forall v vs before d after,
     List.filter (dict_mem (defaultSpecs self)) (extern.linkTextVariations text linkType)
     = v :: vs ->
     dict_get (defaultSpecs self) v = Some (before ++ d :: after) ->
     defaultApplies linkType linkFor d = true ->
     forallb (fun d' => negb (defaultApplies linkType linkFor d')) after = true ->
     linkDefault self linkType text linkFor = Some d).
  { intros v vs before d after Hv Hget Hd Hafter.
    unfold linkDefault. rewrite Hv, Hget. cbn [default].
    unfold Datatypes.id. rewrite rev_app_distr. cbn [rev]. rewrite <- app_assoc.
    cbn [app].
    assert (Hskip : forall l rest,
              forallb (fun d' => negb (defaultApplies linkType linkFor d')) l = true ->
              find (defaultApplies linkType linkFor) (l ++ rest)
              = find (defaultApplies linkType linkFor) rest).
    { induction l as [|x l IH]; intros rest Hl; [reflexivity|].
      cbn [forallb] in Hl. apply andb_prop in Hl as [Hx Hl].
      cbn [app find]. apply negb_true_iff in Hx. rewrite Hx. apply IH, Hl. }
    rewrite Hskip by (rewrite forallb_rev; exact Hafter).
    cbn [find]. rewrite Hd. reflexivity. }
  unfold withDefaults.
  destruct (truthy_opt spec) eqn:Hspec, (truthy_opt status) eqn:Hstatus,
    (truthy_for linkFor) eqn:Hfor; cbn [negb orb];
    try (destruct (linkDefault self linkType text linkFor)
           as [[[[dfnSpec dfnType] dfnStatus] dfnFor]|]);
    unfold or_else; rewrite ?Hspec, ?Hstatus;
    repeat split; try reflexivity; try discriminate; try exact Hlast.
Qed.

End GetRefTiers.

(** ** The groups of [reportMultiplePossibleRefs] *)

Section ReportGroups.
Import ReferenceManager.

(** The possible references that stringify to a text. *)
Lemma refsByText_fold (k : string) (possibleRefs : list PossibleRef) :
  forall acc,
    default []
      (dict_get (fold_left (fun allRefs ref => dict_append allRefs (refToText ref) ref)
                   possibleRefs acc) k)
    = default [] (dict_get acc k) ++ withText k possibleRefs.
Proof.
  unfold withText.
  induction possibleRefs as [|p l IH]; intros acc; cbn [fold_left List.filter].
  - now rewrite app_nil_r.
  - rewrite IH, dict_get_append.
    destruct (String.eqb (refToText p) k); cbn [default]; [|reflexivity].
    unfold Datatypes.id. now rewrite <- app_assoc.
Qed.

Lemma dict_append_keys {V} (d : Py.Dict (list V)) (k : string) (x : V) :
  NoDup (map fst d) ->
  NoDup (map fst (dict_append d k x)) /\
  forall k', In k' (map fst (dict_append d k x)) <-> k' = k \/ In k' (map fst d).
Proof.
  induction d as [|[k0 v] d IH]; cbn [dict_append map fst].
  - intros _. split; [apply NoDup_singleton|]. intros k'. simpl. intuition.
  - intros [Hk0 Hd]%NoDup_cons. destruct (String.eqb k0 k) eqn:Hk; cbn [map fst].
    + apply String.eqb_eq in Hk as ->. split; [now apply NoDup_cons|].
      intros k'. simpl. intuition.
    + destruct (IH Hd) as [Hnd Hin]. split.
      * apply NoDup_cons. split; [|exact Hnd].
        rewrite list_elem_of_In, Hin. intros [->|Hin0].
        -- rewrite String.eqb_refl in Hk. discriminate.
        -- apply Hk0, list_elem_of_In, Hin0.
      * intros k'. simpl. rewrite Hin. intuition.
Qed.

Lemma refsByText_keys (possibleRefs : list PossibleRef) :
  NoDup (map fst (refsByText possibleRefs)).
Proof.
  unfold refsByText.
  assert (Hgen : forall acc : Py.Dict (list PossibleRef),
            NoDup (map fst acc) ->
            NoDup (map fst (fold_left
                              (fun allRefs ref => dict_append allRefs (refToText ref) ref)
                              possibleRefs acc))).
  { induction possibleRefs as [|p l IH]; intros acc Hacc; cbn [fold_left]; [exact Hacc|].
    apply IH, dict_append_keys, Hacc. }
  apply Hgen, NoDup_nil_2.
Qed.

Lemma dict_get_in {V} (d : Py.Dict V) (k : string) (v : V) :
  NoDup (map fst d) -> In (k, v) d -> dict_get d k = Some v.
Proof.
  induction d as [|[k0 v0] d IH]; [intros _ []|].
  cbn [map fst dict_get]. intros [Hk0 Hd]%NoDup_cons [[= -> ->]|Hin].
  - now rewrite String.eqb_refl.
  - destruct (String.eqb k0 k) eqn:Hk; [|apply IH; assumption].
    apply String.eqb_eq in Hk as ->. exfalso. apply Hk0, list_elem_of_In.
    apply in_map_iff. exists (k, v). split; [reflexivity|exact Hin].
Qed.

Lemma dict_get_some_in {V} (d : Py.Dict V) (k : string) (v : V) :
  dict_get d k = Some v -> In (k, v) d.
Proof.
  induction d as [|[k0 v0] d IH]; [discriminate|].
  cbn [dict_get]. destruct (String.eqb k0 k) eqn:Hk.
  - apply String.eqb_eq in Hk as ->. intros [= ->]. now left.
  - intros Hget. right. apply IH, Hget.
Qed.

(** Every group of [allRefs] holds the possible references that stringify
    to its key, in their order, and there is at least one. *)
Lemma refsByText_group (possibleRefs : list PossibleRef) (k : string)
    (refs : list PossibleRef) :
  In (k, refs) (refsByText possibleRefs) <->
  refs = withText k possibleRefs /\ refs <> [].
Proof.
  pose proof (refsByText_fold k possibleRefs []) as Hfold.
  fold (refsByText possibleRefs) in Hfold. cbn [dict_get default app] in Hfold.
  assert (Hgroups : forall (l : list PossibleRef) (acc : Py.Dict (list PossibleRef)),
            (forall k' g, In (k', g) acc -> g <> []) ->
            forall k' g,
              In (k', g) (fold_left
                            (fun allRefs ref => dict_append allRefs (refToText ref) ref)
                            l acc) -> g <> []).
  { induction l as [|p l IH]; intros acc Hacc; cbn [fold_left]; [exact Hacc|].
    apply IH. clear IH. induction acc as [|[k0 v0] acc IHacc]; cbn [dict_append].
    - intros k' g [[= <- <-]|[]]. discriminate.
    - destruct (String.eqb k0 (refToText p)).
      + intros k' g [[= <- <-]|Hin]; [destruct v0; discriminate|].
        eapply Hacc. right. exact Hin.
      + intros k' g [[= <- <-]|Hin]; [eapply Hacc; now left|].
        eapply IHacc; [|exact Hin]. intros k1 g1 Hin1. eapply Hacc. right. exact Hin1. }
  split.
  - intros Hin.
    pose proof (dict_get_in _ _ _ (refsByText_keys possibleRefs) Hin) as Hget.
    rewrite Hget in Hfold. cbn [default] in Hfold. split; [exact Hfold|].
    eapply (Hgroups possibleRefs []); [intros k' g []|exact Hin].
  - intros [-> Hne]. apply dict_get_some_in.
    destruct (dict_get (refsByText possibleRefs) k) as [g|]; cbn [default] in Hfold.
    + unfold Datatypes.id in Hfold. now rewrite Hfold.
    + congruence.
Qed.

(** X24.  The message of [reportMultiplePossibleRefs] tells apart the
    possible references that can be told apart.  A reference is listed as a
    line for a block of link defaults exactly when it is the one possible
    reference that stringifies to its text; the other references come in
    groups of two or more that stringify to the same text, each with all the
    possible references of that text in their order. *)
Theorem reportMultiplePossibleRefs_groups (possibleRefs : list PossibleRef) :
  (forall r,
     In r (uniqueRefs (refsByText possibleRefs)) <->
     withText (refToText r) possibleRefs = [r]) /\
  (forall refs,
     In refs (mergedRefs (refsByText possibleRefs)) <->
     2 <= length refs /\ exists k, refs = withText k possibleRefs).
Proof.
  split.
  - intros r. unfold uniqueRefs. rewrite in_flat_map. split.
    + intros ([k g] & Hin & Hr). apply refsByText_group in Hin as [Hg _].
      destruct g as [|r0 [|r1 g]]; try (destruct Hr; fail). destruct Hr as [<-|[]].
      assert (Hk : refToText r0 = k).
      { assert (Hin0 : In r0 (withText k possibleRefs)) by (rewrite <- Hg; now left).
        unfold withText in Hin0. apply filter_In in Hin0 as [_ Hk].
        now apply String.eqb_eq in Hk. }
      rewrite Hk. symmetry. exact Hg.
    + intros Hr. exists (refToText r, [r]). split; [|now left].
      apply refsByText_group. split; [now symmetry|discriminate].
  - intros refs. unfold mergedRefs. rewrite filter_In, in_map_iff. split.
    + intros [([k g] & <- & Hin) Hlen]. cbn [snd] in *.
      apply refsByText_group in Hin as [Hg Hne]. split; [|now exists k].
      destruct g as [|r0 [|r1 g]]; [congruence|discriminate Hlen|simpl; lia].
    + intros [Hlen (k & ->)]. split.
      * exists (k, withText k possibleRefs). split; [reflexivity|].
        apply refsByText_group. split; [reflexivity|].
        destruct (withText k possibleRefs); [simpl in Hlen; lia|discriminate].
      * destruct (withText k possibleRefs) as [|r0 [|r1 g]]; simpl in Hlen; try lia.
        reflexivity.
Qed.

End ReportGroups.

(** ** The argument of a method that cannot be told apart *)

Section AmbiguousMethod.
Import ReferenceManager messages.
Context `{h.Sig} `{config.Sig} `{RefSource.Sig} `{utils.Sig} `{extern.Sig}.

(** The search for the signature returns, reads the reference manager only
    and writes at most the link error about too many overloads. *)
Lemma findSignature_runs (self : t) (linkType text : string) (spec status : option string)
    (linkFor : option RefSource.ForArg) (lf : string)
    (found : list RefSource.RefWrapper * option string) (st : State) :
  exists found' msgs,
    findSignature self linkType text spec status linkFor lf found st
    = (Ret found', (fst st, snd st ++ msgs)) /\
    (msgs = [] \/ msgs = [(LinkError, msg_overloads text linkFor)]).
Proof.
  unfold findSignature. destruct (splitMethodFor lf) as [interfaceName methodName].
  destruct st as [self0 log]. cbn [fst snd].
  destruct (dict_get _ methodName) as [sigs|];
    [|exists found, []; rewrite app_nil_r; split; [reflexivity|now left]].
  destruct (possibleMethods self text interfaceName sigs) as [|first others];
    [exists found, []; rewrite app_nil_r; split; [reflexivity|now left]|].
  destruct others as [|second others]; cbn [nonempty when].
  - eexists _, []. rewrite app_nil_r. split; [reflexivity|now left].
  - eexists _, [_]. split; [reflexivity|now right].
Qed.

(** X25.  An argument of a method that cannot be told apart.  Behind the
    local tier, when the anchor blocks have no match, the query to the
    foreign tier has failed for a link of the type [argument] or [idl] that
    is for a method named with a pair of parentheses, zero-reference errors
    are on, and the methods of the interface whose text starts with the
    name and the opening parenthesis have two or more URLs, [getRef] gives
    up: it returns [None] with the link error about too many possible
    method targets, whatever the search for the signature of the argument
    has found. *)
Theorem getRef_ambiguous_method (linkType text : string) (spec status : option string)
    (statusHint : string) (linkFor : option RefSource.ForArg) (explicitFor : bool)
    (linkForHint : option RefSource.ForArg) (error : bool) (el : option h.Element)
    (self : t) (log : Log) (spec' status' : option string)
    (linkFor' : option RefSource.ForArg) (linkType' : string) (lf : string)
    (lfs : list string) :
  status <> Some "local" ->
  withDefaults self linkType text spec status linkFor = (spec', status', linkFor', linkType') ->
  blockMatches self linkType' text spec' linkFor' linkForHint explicitFor el = [] ->
  signatureFors
    (snd (foreignMatches self linkType' text spec' status' statusHint linkFor' linkForHint
            explicitFor))
    linkType' linkFor' = lf :: lfs ->
  error && negb (str_in linkType ["maybe"; "extended-attribute"]) = true ->
  2 <= length (methodTargets self spec' status' statusHint (fst (splitMethodFor lf))
                 (snd (splitMethodFor lf))) ->
  exists msgs,
    getRef_otherTiers linkType text spec status statusHint linkFor explicitFor linkForHint
      error el (self, log)
    = (Ret None, (self, log ++ msgs ++ [(LinkError, msg_targets text linkFor')])) /\
    (msgs = [] \/ msgs = [(LinkError, msg_overloads text linkFor')]).
Proof.
  intros Hstatus Hdefaults Hblock Hsig Hzero Htargets.
  assert (Hlocal : opt_eqb status (Some "local") = false).
  { destruct status as [s|]; [|reflexivity]. cbn [opt_eqb].
    destruct (String.eqb s "local") eqn:Hs; [|reflexivity].
    apply String.eqb_eq in Hs. congruence. }
  unfold getRef_otherTiers. rewrite Hlocal.
  unfold mbind, M_bind, bind, get_self. cbn [fst snd].
  rewrite Hdefaults, Hblock. unfold blockRivals. cbn [nonempty andb].
  unfold getRef_foreign, mbind, M_bind, bind, get_self. cbn [fst snd].
  rewrite Hsig, Hzero.
  destruct (findSignature_runs self linkType' text spec' status' linkFor' lf
              (foreignMatches self linkType' text spec' status' statusHint linkFor'
                 linkForHint explicitFor) (self, log))
    as (found' & msgs & Hrun & Hmsgs).
  rewrite Hrun. cbn [fst snd].
  destruct (splitMethodFor lf) as [interfaceName methodName]. cbn [fst snd] in Htargets.
  rewrite (proj2 (Nat.leb_le _ _) Htargets). cbn [andb].
  exists msgs. split; [|exact Hmsgs].
  unfold ReferenceManager.linkerror, messages.linkerror. cbn [fst snd].
  now rewrite <- app_assoc.
Qed.

End AmbiguousMethod.

(** ** [retrieveBoilerplateFile] *)

Section BoilerplateProperties.
Import retrieve messages.
Context `{config.Sig} `{extern.Sig} `{InputSource.Sig}.

Lemma readFirst_found (before after : list (option InputSource.t)) (source : InputSource.t)
    (content : string) :
  (forall s, In (Some s) before -> unreadable s) ->
  InputSource.read source = Ret content ->
  readFirst (before ++ Some source :: after) = Ret (Some content).
Proof.
  intros Hbefore Hread. induction before as [|[s|] before IH]; cbn [app readFirst].
  - now rewrite Hread.
  - destruct (Hbefore s (or_introl eq_refl)) as [msg ->].
    apply IH. intros s' Hs'. apply Hbefore. now right.
  - apply IH. intros s' Hs'. apply Hbefore. now right.
Qed.

Lemma readFirst_none (sources : list (option InputSource.t)) :
  (forall s, In (Some s) sources -> unreadable s) -> readFirst sources = Ret None.
Proof.
  induction sources as [|[s|] sources IH]; intros Hall; cbn [readFirst]; [reflexivity| |].
  - destruct (Hall s (or_introl eq_refl)) as [msg ->].
    apply IH. intros s' Hs'. apply Hall. now right.
  - apply IH. intros s' Hs'. apply Hall. now right.
Qed.

Lemma warn_fold (warnings : list string) (log : Log) :
  fold_left (fun log w => warn w log) warnings log
  = log ++ map (fun w => (Warning, w)) warnings.
Proof.
  revert log. induction warnings as [|w warnings IH]; intros log; cbn [fold_left map].
  - now rewrite app_nil_r.
  - rewrite IH. unfold warn. now rewrite <- app_assoc.
Qed.

(** X26.  Every source that [retrieveBoilerplateFile] may read is recorded
    as a dependency of the document, whatever the outcome, and the warnings
    about files next to the document are written.  The call returns the
    content of the first source, in the order of the list, that can be
    read, the sources before it being unreadable for want of their files,
    and writes nothing more.  When no source can be read it returns the
    empty string, and writes one fatal message if [error] is set. *)
Theorem retrieveBoilerplateFile_first_readable (doc : Doc) (name : string)
    (group status : option string) (error allowLocal : bool)
    (fileRequester : option DataFileRequester) (deps : list (option InputSource.t))
    (log : Log) :
  let sources := fst (boilerplateSources doc name group status allowLocal fileRequester) in
  let warnings :=
    map (fun w => (Warning, w))
      (snd (boilerplateSources doc name group status allowLocal fileRequester)) in
  fst (snd (retrieveBoilerplateFile doc name group status error allowLocal fileRequester
              (deps, log))) = deps ++ sources /\
  (forall before source after content,
     sources = before ++ Some source :: after ->
     (forall s, In (Some s) before -> unreadable s) ->
     InputSource.read source = Ret content ->
     retrieveBoilerplateFile doc name group status error allowLocal fileRequester (deps, log)
     = (Ret content, (deps ++ sources, log ++ warnings))) /\
  ((forall s, In (Some s) sources -> unreadable s) ->
   retrieveBoilerplateFile doc name group status error allowLocal fileRequester (deps, log)
   = (Ret "",
      (deps ++ sources,
       log ++ warnings ++
       (if error then [(Fatal, msg_no_include doc name group status)] else [])))).
Proof.
  intros sources warnings. subst sources warnings. unfold retrieveBoilerplateFile.
  destruct (boilerplateSources doc name group status allowLocal fileRequester)
    as [sources warnings].
  cbn [fst snd]. rewrite warn_fold. split; [|split].
  - destruct (readFirst sources) as [[content|]|e]; reflexivity.
  - intros before source after content -> Hbefore Hread.
    rewrite (readFirst_found _ _ _ _ Hbefore Hread). reflexivity.
  - intros Hall. rewrite (readFirst_none _ Hall).
    destruct error; [unfold die; now rewrite <- app_assoc|now rewrite app_nil_r].
Qed.

End BoilerplateProperties.

(** ** The record that a lookup in the bibliography takes *)

Section BiblioBest.
Import ReferenceManager messages.
Context `{config.Sig} `{retrieve.FileSystem} `{biblio.Sig} `{utils.Sig}.

(** X27.  The record that [getBiblioRef] takes.  When the name has
    records, once its group is loaded, the one taken is the first of those
    of the lowest order, without its line breaks.  If it is in the string
    format the entry made of it is returned; if it is neither in the string
    format nor an alias, and it is not obsolete or obsolete references are
    allowed, the entry made of it and of the status is returned.  In both
    cases the entry goes under its canonical name if one is established,
    nothing is written, and the state is as the loading of the group left
    it. *)
Theorem getBiblioRef_best_record (text : string) (status : option string)
    (generateFakeRef allowObsolete : bool) (el : option h.Element) (quiet : bool)
    (depth : nat) (st : State) :
  depth <= 100 ->
  default [] (dict_get (biblios (fst (snd (bibliosFromKey (lower text) st)))) (lower text))
  <> [] ->
  exists before best after,
    default [] (dict_get (biblios (fst (snd (bibliosFromKey (lower text) st)))) (lower text))
    = before ++ best :: after /\
    (forall c, In c before -> (biblio.order best < biblio.order c)%Z) /\
    (forall c, In c after -> (biblio.order best <= biblio.order c)%Z) /\
    (biblio.biblioFormat (utils.stripLineBreaks best) = "string" ->
     getBiblioRef text status generateFakeRef allowObsolete el quiet depth st
     = Some (Ret (Some (canonicalName (fst (snd (bibliosFromKey (lower text) st)))
                          (biblio.StringBiblioEntry (utils.stripLineBreaks best)))),
             snd (bibliosFromKey (lower text) st))) /\
    (biblio.biblioFormat (utils.stripLineBreaks best) <> "string" ->
     biblio.biblioFormat (utils.stripLineBreaks best) <> "alias" ->
     allowObsolete = true \/
     truthy (strip (default "" (biblio.obsoletedBy (utils.stripLineBreaks best)))) = false ->
     getBiblioRef text status generateFakeRef allowObsolete el quiet depth st
     = Some (Ret (Some (canonicalName (fst (snd (bibliosFromKey (lower text) st)))
                          (biblio.BiblioEntry status (utils.stripLineBreaks best)))),
             snd (bibliosFromKey (lower text) st))).
Proof.
  intros Hdepth Hrecords.
  destruct (bestCandidate_lowest_order _ Hrecords)
    as (before & best & after & Hsplit & Hbefore & Hafter & Hbest).
  exists before, best, after. repeat (split; [assumption|]).
  assert (Hbody : forall r,
            resolveCandidates
              (fun target =>
                 getBiblioRef_fuel (101 - depth) target status false false el true (depth + 1))
              text status allowObsolete quiet
              (default [] (dict_get (biblios (fst (snd (bibliosFromKey (lower text) st))))
                             (lower text)))
              (snd (bibliosFromKey (lower text) st)) = r ->
            getBiblioRef text status generateFakeRef allowObsolete el quiet depth st = r).
  { intros r <-. unfold getBiblioRef. cbn [getBiblioRef_fuel].
    rewrite (proj2 (Nat.ltb_ge 100 depth)) by lia.
    unfold lookupCandidates, mbind, M_bind, bind.
    destruct (bibliosFromKey_returns (lower text) st) as (cands & st0 & Heq & _ & ->).
    rewrite Heq in *. cbn [snd] in *.
    destruct (default [] (dict_get (biblios (fst st0)) (lower text))); [congruence|].
    reflexivity. }
  split.
  - intros Hstring. apply Hbody. unfold resolveCandidates. rewrite Hbest, Hstring.
    reflexivity.
  - intros Hstring Halias Hobsolete. apply Hbody. unfold resolveCandidates. rewrite Hbest.
    apply String.eqb_neq in Hstring, Halias. rewrite Hstring, Halias.
    destruct Hobsolete as [-> | ->]; [|reflexivity].
    destruct (truthy _); reflexivity.
Qed.

End BiblioBest.

(** ** The case of the letters of a spec *)

Section SpecCase.
Import ReferenceManager.
Context `{h.Sig} `{config.Sig} `{RefSource.Sig} `{utils.Sig} `{extern.Sig}.

Lemma lower_char_idempotent (c : ascii) : lower_char (lower_char c) = lower_char c.
Proof. destruct c as [[] [] [] [] [] [] [] []]; reflexivity. Qed.

Lemma lower_idempotent (s : string) : lower (lower s) = lower s.
Proof.
  induction s as [|c s IH]; [reflexivity|].
  cbn [lower]. now rewrite lower_char_idempotent, IH.
Qed.

(** X28.  [getRef] takes no notice of the case of the letters of the spec
    of a link: a call with a spec ends as the call with that spec in lower
    case does, and leaves the same state. *)
Theorem getRef_spec_case_insensitive (rand : nat) (linkType text spec : string)
    (status statusHint : option string) (linkFor : option RefSource.ForArg)
    (explicitFor : bool) (linkForHint : option RefSource.ForArg) (error : bool)
    (el : option h.Element) (st : State) :
  getRef_method rand linkType text (Some spec) status statusHint linkFor explicitFor
    linkForHint error el st
  = getRef_method rand linkType text (Some (lower spec)) status statusHint linkFor
      explicitFor linkForHint error el st.
Proof.
  unfold getRef_method, getRef. cbn [option_map]. now rewrite lower_idempotent.
Qed.

End SpecCase.

(** ** The further properties on documents *)

Section MoreScenarios.
Import ReferenceManager messages Scenario.

(** [setSpecData] for [css-foo], with a foreign reference of [css-foo]
    itself in the data. *)
Lemma setSpecData_hides_same_spec_witness :
  shortname (fst (snd (setSpecData md_css_foo (with_foreign, [])))) = Some "css-foo" /\
  map (fun r => (RefSource.shortname r, RefSource.export r))
    (default []
       (dict_get
          (RefSource.refs (foreignRefs (fst (snd (setSpecData md_css_foo (with_foreign, []))))))
          "foo"))
  = [(Some ("css-foo" +:+ nl), false); (Some "css-bar", true)] /\
  forall k refs r,
    In (k, refs)
      (RefSource.refs (foreignRefs (fst (snd (setSpecData md_css_foo (with_foreign, [])))))) ->
    In r refs -> sameSpecRef (Some "css-foo") r = true -> RefSource.export r = false.
Proof.
  assert (Hrun : setSpecData md_css_foo (with_foreign, [])
                 = (Ret tt, snd (setSpecData md_css_foo (with_foreign, []))))
    by reflexivity.
  destruct (setSpecData_hides_same_spec md_css_foo (with_foreign, []) _ Hrun)
    as (Hname & _ & _ & _ & Hrefs).
  split; [exact Hname|]. split; [reflexivity|exact Hrefs].
Defined.

(** The lookup of [foo], which is obsoleted by [bar]: the groups of both
    count as loaded afterwards, and the message about the obsolete reference
    is fatal. *)
Lemma getBiblioRef_frame_witness :
  exists r st',
    getBiblioRef "foo" None false false None false 0 (obsoleted, []) = Some (r, st') /\
    sameButBiblios obsoleted (fst st') /\
    loadedBiblioGroups obsoleted ⊆ loadedBiblioGroups (fst st') /\
    exists msgs, snd st' = [] ++ msgs /\ forallb is_fatal msgs = true.
Proof.
  destruct (getBiblioRef "foo" None false false None false 0 (obsoleted, []))
    as [[r st']|] eqn:Hrun; [|discriminate Hrun].
  exists r, st'. split; [reflexivity|].
  exact (getBiblioRef_frame "foo" None false false None false 0 (obsoleted, []) st' r Hrun).
Defined.

(** A name that the bibliography does not know. *)
Lemma getBiblioRef_unknown_witness :
  getBiblioRef "Nope" None false false None false 0 (manager0, [])
  = Some (Ret None, (set_loadedBiblioGroups manager0 {["no"]}, [])).
Proof.
  rewrite (getBiblioRef_unknown "Nope" None false false None false 0 (manager0, []));
    [reflexivity|lia|reflexivity|exact I].
Defined.

(** [FOO] and [foo]. *)
Lemma getBiblioRef_case_insensitive_witness :
  exists r self' log1 log2,
    getBiblioRef "FOO" None false false None false 0 (obsoleted, [])
    = Some (r, (self', log1)) /\
    getBiblioRef "foo" None false false None false 0 (obsoleted, [])
    = Some (r, (self', log2)).
Proof.
  apply (getBiblioRef_case_insensitive "FOO" "foo" None false false None false 0 obsoleted []).
  reflexivity.
Defined.

(** The alias [baz] of the obsolete [foo], looked up with every flag set
    and with none. *)
Lemma getBiblioRef_alias_ignores_flags_witness :
  getBiblioRef "baz" None true true None true 0 (aliased, [])
  = getBiblioRef "baz" None false false None false 0 (aliased, []).
Proof.
  apply (getBiblioRef_alias_ignores_flags "baz" None false false false true true true None 0
           (aliased, []) (aliased, []) [alias "baz" "foo"] (alias "baz" "foo"));
    [lia|reflexivity|reflexivity|reflexivity].
Defined.

(** A link to [foo], which an anchor block and a foreign specification
    define. *)
Lemma getRef_anchor_block_precedence_witness :
  getRef_otherTiers "dfn" "foo" None None "current" None false None true None
    (block_and_foreign, [])
  = (Ret (Some {| RefSource.text := "foo";
                  RefSource.ref := blockRef "https://example.org/css-baz/#foo" |}),
     (block_and_foreign, [] ++ [])).
Proof.
  apply (getRef_anchor_block_precedence "dfn" "foo" None None "current" None false None true
           None block_and_foreign [] None None None "dfn"
           {| RefSource.text := "foo";
              RefSource.ref := blockRef "https://example.org/css-baz/#foo" |} []);
    [discriminate|reflexivity|reflexivity|reflexivity].
Defined.

(** A link to a text that nothing defines. *)
Lemma getRef_no_refs_witness :
  getRef_otherTiers "dfn" "nothing" None None "current" None false None true None
    (manager0, [])
  = (Ret None, (manager0, [] ++ [(LinkError, "No 'dfn' refs found for 'nothing'.")])).
Proof.
  apply (getRef_no_refs "dfn" "nothing" None None "current" None false None true None
           manager0 [] None None None "dfn" [] "text");
    [discriminate|reflexivity|reflexivity|reflexivity|now left|reflexivity].
Defined.

(** A link to [foo], which two foreign specifications define. *)
Lemma getRef_foreign_choice_witness :
  exists chosen,
    In chosen
      [{| RefSource.text := "foo";
          RefSource.ref := foreignRef "css-bar" "https://example.org/css-bar/#foo" [] |};
       {| RefSource.text := "foo";
          RefSource.ref := foreignRef "css-qux" "https://example.org/css-qux/#foo" [] |}] /\
    chosen = {| RefSource.text := "foo";
                RefSource.ref := foreignRef "css-bar" "https://example.org/css-bar/#foo" [] |} /\
    fst (getRef_otherTiers "dfn" "foo" None None "current" None false None true None
           (two_foreign, []))
    = Ret (Some chosen).
Proof.
  destruct (getRef_foreign_choice "dfn" "foo" None None "current" None false None true None
              two_foreign [] None None None "dfn"
              {| RefSource.text := "foo";
                 RefSource.ref := foreignRef "css-bar" "https://example.org/css-bar/#foo" [] |}
              [{| RefSource.text := "foo";
                  RefSource.ref :=
                    foreignRef "css-qux" "https://example.org/css-qux/#foo" [] |}]
              None)
    as (chosen & Hin & Hfirst & _ & Hrun);
    [discriminate|reflexivity|reflexivity|reflexivity|reflexivity|].
  exists chosen. split; [exact Hin|]. split; [apply Hfirst; right; discriminate|].
  exact (f_equal fst Hrun).
Defined.

(** A link to the argument [bar] of the method [foo()] of [Iface], which has
    two methods of that name. *)
Lemma getRef_ambiguous_method_witness :
  exists msgs,
    getRef_otherTiers "argument" "bar" None None "current"
      (Some (RefSource.ForList ["Iface/foo()"])) false None true None (overloaded, [])
    = (Ret None,
       (overloaded,
        [] ++ msgs ++
        [(LinkError, msg_targets "bar" (Some (RefSource.ForList ["Iface/foo()"])))])) /\
    (msgs = [] \/
     msgs = [(LinkError, msg_overloads "bar" (Some (RefSource.ForList ["Iface/foo()"])))]).
Proof.
  apply (getRef_ambiguous_method "argument" "bar" None None "current"
           (Some (RefSource.ForList ["Iface/foo()"])) false None true None overloaded []
           None None (Some (RefSource.ForList ["Iface/foo()"])) "argument" "Iface/foo()" []);
    [discriminate|reflexivity|reflexivity|reflexivity|reflexivity|simpl; lia].
Defined.

(** The header of [doc_css_foo]: neither the group nor the status has a
    header of its own, and the generic one is used. *)
Lemma retrieveBoilerplateFile_first_readable_witness :
  retrieve.retrieveBoilerplateFile doc_css_foo "header" None None true true None ([], [])
  = (Ret "<header>",
     ([] ++
      [Some "bikeshed/spec-data/boilerplate/csswg/header-ED.include";
       Some "bikeshed/spec-data/boilerplate/csswg/header.include";
       Some "bikeshed/spec-data/boilerplate/header-ED.include";
       Some "bikeshed/spec-data/boilerplate/header.include"],
      [] ++ [])).
Proof.
  destruct (retrieveBoilerplateFile_first_readable doc_css_foo "header" None None true true
              None [] []) as (_ & Hfound & _).
  apply (Hfound [Some "bikeshed/spec-data/boilerplate/csswg/header-ED.include";
                 Some "bikeshed/spec-data/boilerplate/csswg/header.include";
                 Some "bikeshed/spec-data/boilerplate/header-ED.include"]
           "bikeshed/spec-data/boilerplate/header.include" [] "<header>");
    [reflexivity| |reflexivity].
  intros s [[= <-]|[[= <-]|[[= <-]|[]]]]; eexists; reflexivity.
Defined.

(** The lookup of [foo] when it is there and not obsolete. *)
Lemma getBiblioRef_best_record_witness :
  exists before best after,
    default []
      (dict_get (biblios (fst (snd (bibliosFromKey (lower "Foo") (unversioned, [])))))
         (lower "Foo"))
    = before ++ best :: after /\
    (forall c, In c before -> (biblio.order best < biblio.order c)%Z) /\
    (forall c, In c after -> (biblio.order best <= biblio.order c)%Z) /\
    (biblio.biblioFormat (utils.stripLineBreaks best) = "string" ->
     getBiblioRef "Foo" None false false None false 0 (unversioned, [])
     = Some (Ret (Some (canonicalName
                          (fst (snd (bibliosFromKey (lower "Foo") (unversioned, []))))
                          (biblio.StringBiblioEntry (utils.stripLineBreaks best)))),
             snd (bibliosFromKey (lower "Foo") (unversioned, [])))) /\
    (biblio.biblioFormat (utils.stripLineBreaks best) <> "string" ->
     biblio.biblioFormat (utils.stripLineBreaks best) <> "alias" ->
     false = true \/
     truthy (strip (default "" (biblio.obsoletedBy (utils.stripLineBreaks best)))) = false ->
     getBiblioRef "Foo" None false false None false 0 (unversioned, [])
     = Some (Ret (Some (canonicalName
                          (fst (snd (bibliosFromKey (lower "Foo") (unversioned, []))))
                          (biblio.BiblioEntry None (utils.stripLineBreaks best)))),
             snd (bibliosFromKey (lower "Foo") (unversioned, [])))).
Proof.
  apply (getBiblioRef_best_record "Foo" None false false None false 0 (unversioned, []));
    [lia|discriminate].
Defined.

End MoreScenarios.
